(** * CivicConnect: the vote store, the counter reconciler, the grievance
      query and the priority score, embedded from the TypeScript sources.

    Sources embedded here:
    - [shared/schema.ts] and the SQL migration (tables and constraints);
    - [server/storage.ts] ([PostgreSQLStorage]);
    - [server/routes.ts] (the Express handlers for votes and PATCH);
    - [client/src/pages/admin.tsx] ([getPriorityScore]), on binary64
      numbers as the browser computes it.

    Conventions:
    - the database is a record of tables, each table a list of rows in
      storage order; every storage method takes the database and returns
      the new database together with its result, or the SQLSTATE error
      that PostgreSQL raises; a statement that throws writes nothing;
    - time ([new Date()], [NOW()]) is an explicit argument [now], in
      milliseconds;
    - text is ASCII, one character per byte;
    - the sort behind ORDER BY belongs to the server, not to the
      repository: [getGrievances] takes it as an argument, and the
      theorems about the order hold for every sort that honours the
      contract of ORDER BY. *)

From Stdlib Require Import List String Ascii ZArith Bool Lia Permutation
  Sorted Floats DecimalString.
Import ListNotations.
Local Open Scope Z_scope.
Local Open Scope string_scope.

(** A decimal literal of type [float] denotes the double nearest to it,
    as a number literal does in JavaScript. *)
Set Warnings "-inexact-float".

(** ** JavaScript values *)

Module JS.

(** [if (s)] on a string: the empty string is falsy. *)
Definition truthy (s : string) : bool := negb (String.eqb s "").

(** [if (x)] on an optional string ([undefined] is falsy). *)
Definition truthy_opt (o : option string) : bool :=
  match o with Some s => truthy s | None => false end.

(** [if (n)] on an optional integer ([undefined], [NaN] and [0] are
    falsy; [parseInt] yields an integer or [NaN], and [NaN] is
    represented by [None]). *)
Definition truthy_num (o : option Z) : bool :=
  match o with Some n => negb (Z.eqb n 0) | None => false end.

(** [o === s] for an optional string [o]. *)
Definition same (o : option string) (s : string) : bool :=
  match o with Some x => String.eqb x s | None => false end.

(** [x?.f || null] on string fields. *)
Definition or_null (o : option string) : option string :=
  match o with
  | Some s => if truthy s then Some s else None
  | None => None
  end.

End JS.

(** ** The schema ([shared/schema.ts], [0000_init.sql]) *)

Inductive user_type := citizen | admin.

Inductive grievance_status :=
  pending | urgent | in_progress | resolved | closed.

Definition string_of_status (s : grievance_status) : string :=
  match s with
  | pending => "pending"
  | urgent => "urgent"
  | in_progress => "in-progress"
  | resolved => "resolved"
  | closed => "closed"
  end.

(** The enum's input function: any other label is rejected by the server. *)
Definition status_of_string (s : string) : option grievance_status :=
  if String.eqb s "pending" then Some pending
  else if String.eqb s "urgent" then Some urgent
  else if String.eqb s "in-progress" then Some in_progress
  else if String.eqb s "resolved" then Some resolved
  else if String.eqb s "closed" then Some closed
  else None.

Definition status_eqb (a b : grievance_status) : bool :=
  match a, b with
  | pending, pending | urgent, urgent | in_progress, in_progress
  | resolved, resolved | closed, closed => true
  | _, _ => false
  end.

(** Table [users]; the columns the modelled operations never read
    (password, email, phone, department, created_at) are left out. *)
Record User := mkUser {
  u_id : string;
  u_username : string;
  u_municipality : string;
  u_type : user_type
}.

(** Table [grievances], all thirteen columns. *)
Record Grievance := mkGrievance {
  g_id : string;
  g_title : string;
  g_description : string;
  g_category : string;
  g_municipality : string;
  g_location : option string;
  g_authorId : string;
  g_timestamp : Z;
  g_upvotes : Z;
  g_downvotes : Z;
  g_status : grievance_status;
  g_imageUrl : option string;
  g_updatedAt : Z
}.

(** Table [comments]. *)
Record Comment := mkComment {
  c_id : string;
  c_grievanceId : string;
  c_authorId : string;
  c_text : string;
  c_timestamp : Z;
  c_upvotes : Z
}.

(** Table [user_votes].  The primary key is a generated uuid; it is
    modelled by a number drawn from the sequence [vote_seq] of the
    database, so that it is fresh by construction. *)
Record UserVote := mkUserVote {
  v_id : nat;
  v_userId : string;
  v_grievanceId : option string;
  v_commentId : option string;
  v_voteType : string;
  v_timestamp : Z
}.

(** A vote row with a new kind and time, all else kept. *)
Definition revote (k : string) (now : Z) (v : UserVote) : UserVote :=
  mkUserVote (v_id v) (v_userId v) (v_grievanceId v) (v_commentId v) k now.

(** [InsertUserVote]: the vote schema without [id] and [timestamp]. *)
Record InsertUserVote := mkInsertUserVote {
  iv_userId : string;
  iv_grievanceId : option string;
  iv_commentId : option string;
  iv_voteType : string
}.

Record DB := mkDB {
  users : list User;
  grievances : list Grievance;
  comments : list Comment;
  user_votes : list UserVote;
  vote_seq : nat
}.

Definition set_user_votes (db : DB) (vs : list UserVote) : DB :=
  mkDB (users db) (grievances db) (comments db) vs (vote_seq db).

Definition set_grievances (db : DB) (gs : list Grievance) : DB :=
  mkDB (users db) gs (comments db) (user_votes db) (vote_seq db).

Definition set_comments (db : DB) (cs : list Comment) : DB :=
  mkDB (users db) (grievances db) cs (user_votes db) (vote_seq db).

(** ** PostgreSQL: errors, comparisons with NULL, constraints, LIKE *)

Module Pg.

(** What a statement throws, as the [catch] blocks see it: an error of
    the server with its SQLSTATE, or the [TypeError] of the query
    builder, which maps a timestamp for the driver with
    [value.toISOString()] and is given a value that is no [Date]. *)
Inductive error :=
| unique_violation
| check_violation
| foreign_key_violation
| invalid_text_representation
| invalid_row_count_in_result_offset_clause
| numeric_value_out_of_range
| type_error.

(** [error.code] as node-postgres reports it; a [TypeError] has none. *)
Definition code (e : error) : option string :=
  match e with
  | unique_violation => Some "23505"
  | check_violation => Some "23514"
  | foreign_key_violation => Some "23503"
  | invalid_text_representation => Some "22P02"
  | invalid_row_count_in_result_offset_clause => Some "2201X"
  | numeric_value_out_of_range => Some "22003"
  | type_error => None
  end.

(** A statement returns a value or throws. *)
Inductive result (A : Type) :=
| Ok (a : A)
| Throw (e : error).
Arguments Ok {A} a.
Arguments Throw {A} e.

Definition bind {A B} (r : result A) (k : A -> result B) : result B :=
  match r with Ok a => k a | Throw e => Throw e end.

(** [column = value] where either side may be NULL: NULL equals nothing. *)
Definition eq_null (col value : option string) : bool :=
  match col, value with
  | Some a, Some b => String.eqb a b
  | _, _ => false
  end.

(** [CHECK (vote_type IN ('up', 'down'))]. *)
Definition vote_type_check (k : string) : bool :=
  String.eqb k "up" || String.eqb k "down".

(** [CONSTRAINT vote_target_check]. *)
Definition vote_target_check (gid cid : option string) : bool :=
  match gid, cid with
  | Some _, None => true
  | None, Some _ => true
  | _, _ => false
  end.

(** [UNIQUE (user_id, grievance_id)] and [UNIQUE (user_id, comment_id)]:
    would a new row with these keys collide with a stored one?  A NULL
    key never collides. *)
Definition collides (uid : string) (gid cid : option string) (v : UserVote) : bool :=
  String.eqb (v_userId v) uid
  && (eq_null (v_grievanceId v) gid || eq_null (v_commentId v) cid).

(** Foreign keys of [user_votes]. *)
Definition references_ok (db : DB) (uid : string) (gid cid : option string) : bool :=
  existsb (fun u => String.eqb (u_id u) uid) (users db)
  && match gid with
     | Some g => existsb (fun x => String.eqb (g_id x) g) (grievances db)
     | None => true
     end
  && match cid with
     | Some c => existsb (fun x => String.eqb (c_id x) c) (comments db)
     | None => true
     end.

(** [INSERT INTO user_votes ... RETURNING *].  Checks run in the
    server's order: CHECK constraints, then unique indexes, then the
    foreign keys at the end of the statement. *)
Definition insert_user_vote (vote : InsertUserVote) (now : Z) (db : DB)
  : result (UserVote * DB) :=
  if negb (vote_type_check (iv_voteType vote)
           && vote_target_check (iv_grievanceId vote) (iv_commentId vote))
  then Throw check_violation
  else if existsb (collides (iv_userId vote) (iv_grievanceId vote) (iv_commentId vote))
                  (user_votes db)
  then Throw unique_violation
  else if negb (references_ok db (iv_userId vote) (iv_grievanceId vote) (iv_commentId vote))
  then Throw foreign_key_violation
  else
    let row := mkUserVote (vote_seq db) (iv_userId vote) (iv_grievanceId vote)
                          (iv_commentId vote) (iv_voteType vote) now in
    Ok (row, mkDB (users db) (grievances db) (comments db)
                  (user_votes db ++ [row]) (S (vote_seq db))).

(** [UPDATE user_votes SET vote_type = k, timestamp = now WHERE cond
    RETURNING *]: rows are rewritten in place; the CHECK on [vote_type]
    is evaluated on every rewritten row. *)
Definition update_vote_type (cond : UserVote -> bool) (k : string) (now : Z) (db : DB)
  : result (list UserVote * DB) :=
  if existsb cond (user_votes db) && negb (vote_type_check k)
  then Throw check_violation
  else
    let set_kind v := if cond v then revote k now v else v in
    Ok (map set_kind (filter cond (user_votes db)),
        set_user_votes db (map set_kind (user_votes db))).

(** *** LIKE and ILIKE over ASCII text

    ['%'] matches any run of characters, ['_'] any one character and
    the backslash makes the next pattern character literal.  A pattern
    that ends in a lone backslash is an error on the server; the query
    of this program always appends ['%'], so that branch is never
    reached and is [false] here. *)
Fixpoint like (p t : list ascii) : bool :=
  match p with
  | [] => match t with [] => true | _ :: _ => false end
  | c :: p' =>
      if Ascii.eqb c "%" then
        (fix skip (t : list ascii) : bool :=
           like p' t || match t with [] => false | _ :: t' => skip t' end) t
      else if Ascii.eqb c "_" then
        match t with [] => false | _ :: t' => like p' t' end
      else if Ascii.eqb c "\" then
        match p' with
        | [] => false
        | e :: p'' =>
            match t with
            | [] => false
            | d :: t' => Ascii.eqb e d && like p'' t'
            end
        end
      else
        match t with
        | [] => false
        | d :: t' => Ascii.eqb c d && like p' t'
        end
  end.

(** [lower()] on one ASCII character. *)
Definition lower (c : ascii) : ascii :=
  let n := nat_of_ascii c in
  if (Nat.leb 65 n && Nat.leb n 90)%bool then ascii_of_nat (n + 32) else c.

(** [text ILIKE pattern]: both sides are lower-cased, then LIKE. *)
Definition ilike (text pattern : string) : bool :=
  like (map lower (list_ascii_of_string pattern))
       (map lower (list_ascii_of_string text)).

(** [col ILIKE pattern] on a nullable column: NULL is not a match. *)
Definition ilike_null (col : option string) (pattern : string) : bool :=
  match col with Some t => ilike t pattern | None => false end.

(** The ranges of [integer] and [bigint]. *)
Definition int4_min : Z := -2147483648.
Definition int4_max : Z := 2147483647.
Definition bigint_min : Z := -9223372036854775808.
Definition bigint_max : Z := 9223372036854775807.

(** A JavaScript number bound to a placeholder of an integer type with
    the range [lo..hi].  The driver sends the number as its decimal
    text; from 1e21 on that text is in exponent notation, which the
    server does not read as an integer (22P02), and an integer outside
    the range is refused (22003).  The values are bound before the
    statement runs.  (A number from 2^53 on is sent as the shortest
    text that reads back as the same double, which can name another
    integer of that size; the range test gives the same answer.) *)
Definition integer_param (lo hi n : Z) : result Z :=
  if Z.leb (10 ^ 21) (Z.abs n) then Throw invalid_text_representation
  else if Z.ltb n lo || Z.ltb hi n then Throw numeric_value_out_of_range
  else Ok n.

End Pg.

Notation "x <- r ;; k" := (Pg.bind r (fun x => k))
  (at level 61, r at next level, right associativity).

(** ** [PostgreSQLStorage] ([server/storage.ts]) *)

(** A grievance row joined with its author's user name. *)
Record GrievanceRow := mkRow {
  row_g : Grievance;
  authorUsername : option string
}.

(** [grievances LEFT JOIN users ON grievances.author_id = users.id]: one
    row per matching user, and one row with a NULL user name when no
    user matches. *)
Definition left_join_users (us : list User) (g : Grievance) : list GrievanceRow :=
  match filter (fun u => String.eqb (g_authorId g) (u_id u)) us with
  | [] => [mkRow g None]
  | m => map (fun u => mkRow g (Some (u_username u))) m
  end.

(** The filters of [getGrievances]. *)
Record Filters := mkFilters {
  f_category : option string;
  f_municipality : option string;
  f_status : option string;
  f_authorId : option string;
  f_search : option string;
  f_sortBy : option string;
  f_limit : option Z;
  f_offset : option Z
}.

(** A filter is active when it is truthy and, for the three fields that
    have the sentinel, different from 'all'. *)
Definition active (o : option string) : bool :=
  match o with
  | Some s => JS.truthy s && negb (String.eqb s "all")
  | None => false
  end.

(** The status filter is compared with an enum column: when the filter
    is active its value is read as a status label, and a value that is
    no label fails the statement. *)
Definition status_condition (f : Filters)
  : Pg.result (option grievance_status) :=
  if active (f_status f) then
    match f_status f with
    | Some s =>
        match status_of_string s with
        | Some st => Pg.Ok (Some st)
        | None => Pg.Throw Pg.invalid_text_representation
        end
    | None => Pg.Ok None
    end
  else Pg.Ok None.

(** The filter's SQL pattern, [`%${filters.search}%`]. *)
Definition searchTerm (s : string) : string := "%" ++ s ++ "%".

(** [and(...conditions)] evaluated on one grievance; [st] is the parsed
    status filter. *)
Definition conditions (f : Filters) (st : option grievance_status) (g : Grievance) : bool :=
  (if active (f_category f)
   then Pg.eq_null (Some (g_category g)) (f_category f) else true)
  && (if active (f_municipality f)
      then Pg.eq_null (Some (g_municipality g)) (f_municipality f) else true)
  && (match st with Some s => status_eqb (g_status g) s | None => true end)
  && (if JS.truthy_opt (f_authorId f)
      then Pg.eq_null (Some (g_authorId g)) (f_authorId f) else true)
  && (match f_search f with
      | Some s =>
          if JS.truthy s then
            Pg.ilike (g_title g) (searchTerm s)
            || Pg.ilike (g_description g) (searchTerm s)
            || Pg.ilike_null (g_location g) (searchTerm s)
          else true
      | None => true
      end).

(** [upvotes - downvotes], the sort expression of the two vote orders. *)
Definition net_votes (g : Grievance) : Z := g_upvotes g - g_downvotes g.

(** [CASE WHEN status = 'urgent' THEN 0 ELSE 1 END]. *)
Definition urgent_rank (g : Grievance) : Z :=
  if status_eqb (g_status g) urgent then 0 else 1.

(** The ORDER BY clause chosen by the [switch] on [filters.sortBy], as
    the relation "[a] may stand before [b]". *)
Definition order_clause (sortBy : option string) (a b : Grievance) : bool :=
  match sortBy with
  | Some k =>
      if String.eqb k "oldest" then Z.leb (g_timestamp a) (g_timestamp b)
      else if String.eqb k "upvotes-high" then Z.leb (net_votes b) (net_votes a)
      else if String.eqb k "upvotes-low" then Z.leb (net_votes a) (net_votes b)
      else if String.eqb k "urgent" then
        Z.ltb (urgent_rank a) (urgent_rank b)
        || (Z.eqb (urgent_rank a) (urgent_rank b)
            && Z.leb (g_timestamp b) (g_timestamp a))
      else Z.leb (g_timestamp b) (g_timestamp a)
  | None => Z.leb (g_timestamp b) (g_timestamp a)
  end.

Definition row_order (sortBy : option string) (a b : GrievanceRow) : bool :=
  order_clause sortBy (row_g a) (row_g b).

(** [.limit(n)] and [.offset(n)], each called only when the number is
    truthy.  The query builder writes a LIMIT clause only for a number
    that is not negative, and every OFFSET it is given.  Both numbers
    are placeholders of type bigint, the limit bound first; the server
    then refuses a negative OFFSET before it reads any row.  The result
    is the window of the page: the LIMIT and the OFFSET in force. *)
Definition page_window (f : Filters) : Pg.result (option Z * option Z) :=
  let lim := match f_limit f with
             | Some n => if JS.truthy_num (Some n) && Z.leb 0 n then Some n else None
             | None => None
             end in
  let off := if JS.truthy_num (f_offset f) then f_offset f else None in
  let bound o :=
    match o with
    | Some n => x <- Pg.integer_param Pg.bigint_min Pg.bigint_max n ;; Pg.Ok (Some x)
    | None => Pg.Ok None
    end in
  l <- bound lim ;;
  o <- bound off ;;
  if match o with Some n => Z.ltb n 0 | None => false end
  then Pg.Throw Pg.invalid_row_count_in_result_offset_clause
  else Pg.Ok (l, o).

(** The rows of a window: OFFSET skips, LIMIT cuts. *)
Definition take_page (w : option Z * option Z) (rows : list GrievanceRow)
  : list GrievanceRow :=
  let skipped := match snd w with Some n => skipn (Z.to_nat n) rows | None => rows end in
  match fst w with Some n => firstn (Z.to_nat n) skipped | None => skipped end.

(** The sort expression [upvotes - downvotes] of the two vote orders is
    computed in the type of the columns, [integer], on every selected
    row: a difference outside the range of [integer] fails the query
    (22003). *)
Definition sorts_by_votes (sortBy : option string) : bool :=
  match sortBy with
  | Some k => String.eqb k "upvotes-high" || String.eqb k "upvotes-low"
  | None => false
  end.

Definition in_int4 (n : Z) : bool := Z.leb Pg.int4_min n && Z.leb n Pg.int4_max.

Definition sort_keys (sortBy : option string) (rows : list GrievanceRow)
  : Pg.result unit :=
  if sorts_by_votes sortBy
     && negb (forallb (fun r => in_int4 (net_votes (row_g r))) rows)
  then Pg.Throw Pg.numeric_value_out_of_range
  else Pg.Ok tt.

(** The server's sort is outside the repository.  ORDER BY promises a
    rearrangement of the rows in which no row stands before one that the
    clause puts strictly first; it promises nothing about rows that tie. *)
Definition sorter := (GrievanceRow -> GrievanceRow -> bool)
                     -> list GrievanceRow -> list GrievanceRow.

Definition order_by_contract (srt : sorter) : Prop :=
  forall le rows,
    Permutation rows (srt le rows)
    /\ ((forall a b, le a b = true \/ le b a = true) ->
        (forall a b c, le a b = true -> le b c = true -> le a c = true) ->
        StronglySorted (fun a b => le a b = true) (srt le rows)).

(** [getGrievances]: the count query is awaited first, then the page;
    the errors come in the order in which the server raises them. *)
Definition getGrievances (srt : sorter) (f : Filters) (db : DB)
  : Pg.result (list GrievanceRow * Z) :=
  st <- status_condition f ;;
  let total := Z.of_nat (List.length (filter (conditions f st) (grievances db))) in
  let joined := flat_map (left_join_users (users db)) (grievances db) in
  let selected := filter (fun r => conditions f st (row_g r)) joined in
  w <- page_window f ;;
  keys <- sort_keys (f_sortBy f) selected ;;
  Pg.Ok (take_page w (srt (row_order (f_sortBy f)) selected), total).

(** [getGrievance]: [result[0]] of the joined rows with that id. *)
Definition getGrievance (id : string) (db : DB) : option GrievanceRow :=
  hd_error
    (filter (fun r => String.eqb (g_id (row_g r)) id)
            (flat_map (left_join_users (users db)) (grievances db))).

(** [Partial<Grievance>] as the argument of [updateGrievance]: the
    members of the request body, each absent ([None]) or present with a
    value of the JSON type of its column (a string, an integer, [null]
    for the two nullable texts).  [up_timestamp] and [up_updatedAt] are
    the members as parsed from JSON, a number or a string, never a
    [Date]; [up_status] is the enum label as sent.  The [id] column is
    not part of the modelled bodies (re-keying a grievance involves the
    tables that reference it). *)
Record GrievanceUpdates := mkUpdates {
  up_title : option string;
  up_description : option string;
  up_category : option string;
  up_municipality : option string;
  up_location : option (option string);
  up_authorId : option string;
  up_timestamp : option Z;
  up_upvotes : option Z;
  up_downvotes : option Z;
  up_status : option string;
  up_imageUrl : option (option string);
  up_updatedAt : option Z
}.

Definition or_keep {A} (o : option A) (old : A) : A :=
  match o with Some x => x | None => old end.

(** [{ ...updates, updatedAt: new Date() }] written onto one row; the
    statement is reached only by a body without a [timestamp] member. *)
Definition apply_updates (u : GrievanceUpdates) (st : option grievance_status)
    (now : Z) (g : Grievance) : Grievance :=
  mkGrievance (g_id g)
    (or_keep (up_title u) (g_title g))
    (or_keep (up_description u) (g_description g))
    (or_keep (up_category u) (g_category g))
    (or_keep (up_municipality u) (g_municipality g))
    (or_keep (up_location u) (g_location g))
    (or_keep (up_authorId u) (g_authorId g))
    (g_timestamp g)
    (or_keep (up_upvotes u) (g_upvotes g))
    (or_keep (up_downvotes u) (g_downvotes g))
    (or_keep st (g_status g))
    (or_keep (up_imageUrl u) (g_imageUrl g))
    now.

(** [updateGrievance].  The query builder maps the values in the order
    of the columns: a [timestamp] member is no [Date] and throws a
    [TypeError] before anything is sent ([updatedAt] is always the
    [Date] of the call).  The server then reads the bound values, the
    two counters as [integer] and the status label as the enum, and
    runs the statement; [author_id] must reference a user on every
    rewritten row. *)
Definition updateGrievance (id : string) (u : GrievanceUpdates) (now : Z) (db : DB)
  : Pg.result (option Grievance * DB) :=
  mapped <- match up_timestamp u with
            | Some _ => Pg.Throw Pg.type_error
            | None => Pg.Ok tt
            end ;;
  up <- match up_upvotes u with
        | Some n => Pg.integer_param Pg.int4_min Pg.int4_max n
        | None => Pg.Ok 0
        end ;;
  down <- match up_downvotes u with
          | Some n => Pg.integer_param Pg.int4_min Pg.int4_max n
          | None => Pg.Ok 0
          end ;;
  st <- match up_status u with
        | Some s =>
            match status_of_string s with
            | Some x => Pg.Ok (Some x)
            | None => Pg.Throw Pg.invalid_text_representation
            end
        | None => Pg.Ok None
        end ;;
  let hit g := String.eqb (g_id g) id in
  let author_ok :=
    match up_authorId u with
    | Some a => existsb (fun x => String.eqb (u_id x) a) (users db)
    | None => true
    end in
  if existsb hit (grievances db) && negb author_ok
  then Pg.Throw Pg.foreign_key_violation
  else
    let upd g := if hit g then apply_updates u st now g else g in
    Pg.Ok (hd_error (map upd (filter hit (grievances db))),
           set_grievances db (map upd (grievances db))).

(** The WHERE clause shared by [getUserVote] and [removeVote]. *)
Definition vote_conditions (userId : string) (grievanceId commentId : option string)
    (v : UserVote) : bool :=
  String.eqb (v_userId v) userId
  && (if JS.truthy_opt grievanceId
      then Pg.eq_null (v_grievanceId v) grievanceId else true)
  && (if JS.truthy_opt commentId
      then Pg.eq_null (v_commentId v) commentId else true).

Definition getUserVote (userId : string) (grievanceId commentId : option string)
    (db : DB) : option UserVote :=
  hd_error (filter (vote_conditions userId grievanceId commentId) (user_votes db)).

Definition removeVote (userId : string) (grievanceId commentId : option string)
    (db : DB) : bool * DB :=
  let hit := vote_conditions userId grievanceId commentId in
  (existsb hit (user_votes db),
   set_user_votes db (filter (fun v => negb (hit v)) (user_votes db))).

(** The WHERE clause of the fallback UPDATE in [createOrUpdateVote]. *)
Definition fallback_conditions (vote : InsertUserVote) (v : UserVote) : bool :=
  String.eqb (v_userId v) (iv_userId vote)
  && (if JS.truthy_opt (iv_grievanceId vote)
      then Pg.eq_null (v_grievanceId v) (iv_grievanceId vote)
      else Pg.eq_null (v_commentId v) (iv_commentId vote)).

(** [createOrUpdateVote]: insert; on SQLSTATE 23505 update the stored
    row instead; any other error is thrown again. *)
Definition createOrUpdateVote (vote : InsertUserVote) (now : Z) (db : DB)
  : Pg.result (option UserVote * DB) :=
  match Pg.insert_user_vote vote now db with
  | Pg.Ok (row, db') => Pg.Ok (Some row, db')
  | Pg.Throw e =>
      if JS.same (Pg.code e) "23505" then
        r <- Pg.update_vote_type (fallback_conditions vote) (iv_voteType vote) now db ;;
        Pg.Ok (hd_error (fst r), snd r)
      else Pg.Throw e
  end.

(** [count()] of the votes of one kind on a grievance, or on a comment. *)
Definition count_grievance_votes (gid : option string) (k : string) (db : DB) : Z :=
  Z.of_nat (List.length (filter (fun v => Pg.eq_null (v_grievanceId v) gid
                                     && String.eqb (v_voteType v) k)
                           (user_votes db))).

Definition count_comment_votes (cid : option string) (k : string) (db : DB) : Z :=
  Z.of_nat (List.length (filter (fun v => Pg.eq_null (v_commentId v) cid
                                     && String.eqb (v_voteType v) k)
                           (user_votes db))).

Definition set_counts (up down : Z) (g : Grievance) : Grievance :=
  mkGrievance (g_id g) (g_title g) (g_description g) (g_category g)
    (g_municipality g) (g_location g) (g_authorId g) (g_timestamp g)
    up down (g_status g) (g_imageUrl g) (g_updatedAt g).

Definition set_comment_upvotes (up : Z) (c : Comment) : Comment :=
  mkComment (c_id c) (c_grievanceId c) (c_authorId c) (c_text c) (c_timestamp c) up.

(** [updateVoteCounts]. *)
Definition updateVoteCounts (grievanceId commentId : option string) (db : DB) : DB :=
  let db1 :=
    if JS.truthy_opt grievanceId then
      let up := count_grievance_votes grievanceId "up" db in
      let down := count_grievance_votes grievanceId "down" db in
      set_grievances db
        (map (fun g => if Pg.eq_null (Some (g_id g)) grievanceId
                       then set_counts up down g else g)
             (grievances db))
    else db in
  if JS.truthy_opt commentId then
    let up := count_comment_votes commentId "up" db1 in
    set_comments db1
      (map (fun c => if Pg.eq_null (Some (c_id c)) commentId
                     then set_comment_upvotes up c else c)
           (comments db1))
  else db1.

(** ** The Express handlers ([server/routes.ts]) *)

Record Session := mkSession {
  s_userId : option string;
  s_userType : option string
}.

Inductive Body :=
| ErrorBody (error : string)
| VoteBody (upvotes downvotes : Z) (userVote : option string)
| CommentVoteBody (userVote : option string)
| GrievanceBody (g : option Grievance).

Record Response := mkResponse {
  status : nat;
  body : Body
}.

(** [res.status(st).json({ error: msg })]. *)
Definition json_error (st : nat) (msg : string) : Response :=
  mkResponse st (ErrorBody msg).

(** [requireAuth]: the response that ends the request, or the user id. *)
Definition requireAuth (sess : Session) : Response + string :=
  match s_userId sess with
  | Some u => if JS.truthy u then inr u else inl (json_error 401 "Authentication required")
  | None => inl (json_error 401 "Authentication required")
  end.

(** [!voteType || !['up', 'down'].includes(voteType)]; a body value that
    is not a string is [None]. *)
Definition valid_voteType (voteType : option string) : option string :=
  match voteType with
  | Some k =>
      if JS.truthy k && (String.eqb k "up" || String.eqb k "down")
      then Some k else None
  | None => None
  end.

(** [existingVote && existingVote.voteType === voteType]. *)
Definition same_vote (existingVote : option UserVote) (k : string) : bool :=
  match existingVote with
  | Some v => String.eqb (v_voteType v) k
  | None => false
  end.

(** The body of the two vote handlers after validation: remove or upsert. *)
Definition toggle (userId : string) (grievanceId commentId : option string)
    (k : string) (now : Z) (db : DB) : Pg.result DB :=
  if same_vote (getUserVote userId grievanceId commentId db) k
  then Pg.Ok (snd (removeVote userId grievanceId commentId db))
  else r <- createOrUpdateVote (mkInsertUserVote userId grievanceId commentId k) now db ;;
       Pg.Ok (snd r).

(** [app.post("/api/grievances/:id/vote", requireAuth, ...)]. *)
Definition post_grievance_vote (now : Z) (sess : Session) (id : string)
    (voteType : option string) (db : DB) : Response * DB :=
  match requireAuth sess with
  | inl r => (r, db)
  | inr userId =>
      match valid_voteType voteType with
      | None => (json_error 400 "Invalid vote type", db)
      | Some k =>
          match getGrievance id db with
          | None => (json_error 404 "Grievance not found", db)
          | Some _ =>
              match toggle userId (Some id) None k now db with
              | Pg.Throw _ => (json_error 500 "Failed to process vote", db)
              | Pg.Ok db1 =>
                  let db2 := updateVoteCounts (Some id) None db1 in
                  let updatedGrievance := getGrievance id db2 in
                  let userVote := getUserVote userId (Some id) None db2 in
                  (mkResponse 200
                     (VoteBody
                        (match updatedGrievance with
                         | Some r => g_upvotes (row_g r) | None => 0 end)
                        (match updatedGrievance with
                         | Some r => g_downvotes (row_g r) | None => 0 end)
                        (JS.or_null (option_map v_voteType userVote))),
                   db2)
              end
          end
      end
  end.

(** [app.post("/api/comments/:id/vote", requireAuth, ...)]. *)
Definition post_comment_vote (now : Z) (sess : Session) (id : string)
    (voteType : option string) (db : DB) : Response * DB :=
  match requireAuth sess with
  | inl r => (r, db)
  | inr userId =>
      match valid_voteType voteType with
      | None => (json_error 400 "Invalid vote type", db)
      | Some k =>
          match toggle userId None (Some id) k now db with
          | Pg.Throw _ => (json_error 500 "Failed to process vote", db)
          | Pg.Ok db1 =>
              let db2 := updateVoteCounts None (Some id) db1 in
              let userVote := getUserVote userId None (Some id) db2 in
              (mkResponse 200
                 (CommentVoteBody (JS.or_null (option_map v_voteType userVote))),
               db2)
          end
      end
  end.

(** [app.patch("/api/grievances/:id", requireAuth, ...)]. *)
Definition patch_grievance (now : Z) (sess : Session) (id : string)
    (updates : GrievanceUpdates) (db : DB) : Response * DB :=
  match requireAuth sess with
  | inl r => (r, db)
  | inr userId =>
      match getGrievance id db with
      | None => (json_error 404 "Grievance not found", db)
      | Some r =>
          if negb (String.eqb (g_authorId (row_g r)) userId)
             && negb (JS.same (s_userType sess) "admin")
          then (json_error 403 "Permission denied", db)
          else
            match updateGrievance id updates now db with
            | Pg.Throw _ => (json_error 500 "Failed to update grievance", db)
            | Pg.Ok (g, db') => (mkResponse 200 (GrievanceBody g), db')
            end
      end
  end.

(** ** The admin page ([client/src/pages/admin.tsx]) *)

Module Admin.

(** JavaScript numbers are binary64 floats.  The counters and the two
    times are integers that a double holds exactly, so each of the two
    differences is the double nearest to the integer difference: the
    conversion of that integer (for integers below 2^63 in size). *)
Definition f64_of_Z (z : Z) : float :=
  if (z <? 0)%Z then PrimFloat.opp (PrimFloat.of_uint63 (Uint63.of_Z (- z)))
  else PrimFloat.of_uint63 (Uint63.of_Z z).

(** [Math.floor]. *)
Definition f64_floor (x : float) : float :=
  match Prim2SF x with
  | S754_finite s m e =>
      if (0 <=? e)%Z then x
      else
        let d := (2 ^ (- e))%Z in
        let q := (Zpos m / d)%Z in
        if s then
          (if (Zpos m mod d =? 0)%Z then f64_of_Z (- q) else f64_of_Z (- (q + 1)))
        else f64_of_Z q
  | _ => x
  end.

(** [Math.max(0, x)]: NaN is passed on, and [-0] yields [0]. *)
Definition f64_max0 (x : float) : float :=
  if PrimFloat.is_nan x then x
  else if PrimFloat.ltb 0 x then x else 0%float.

(** [0.1], the double nearest to one tenth. *)
Definition tenth : float := 0x1.999999999999ap-4%float.

(** [(new Date().getTime() - new Date(grievance.timestamp).getTime())
    / (1000 * 60 * 60)]. *)
Definition ageHours (now : Z) (g : Grievance) : float :=
  PrimFloat.div (f64_of_Z (now - g_timestamp g)) (f64_of_Z (1000 * 60 * 60)).

Definition getPriorityScore (now : Z) (g : Grievance) : float :=
  let baseScore := f64_of_Z (g_upvotes g - g_downvotes g) in
  let urgentMultiplier := if status_eqb (g_status g) urgent then 2%float else 1%float in
  let agePenalty := PrimFloat.mul (f64_floor (PrimFloat.div (ageHours now g) 24%float)) tenth in
  f64_max0 (PrimFloat.sub (PrimFloat.mul baseScore urgentMultiplier) agePenalty).

End Admin.

(** The sign of a binary64 value that is no NaN, read on its
    specification ([Prim2SF]); a zero of either sign is both
    non-negative and non-positive. *)
Definition SF_sign (s : bool) (x : spec_float) : Prop :=
  match x with
  | S754_zero s' | S754_infinity s' | S754_finite s' _ _ => s' = s
  | S754_nan => False
  end.

Definition SF_nonneg (x : spec_float) : Prop :=
  match x with
  | S754_zero _ => True
  | S754_infinity s | S754_finite s _ _ => s = false
  | S754_nan => False
  end.

Definition SF_nonpos (x : spec_float) : Prop :=
  match x with
  | S754_zero _ => True
  | S754_infinity s | S754_finite s _ _ => s = true
  | S754_nan => False
  end.

(** ** The constraints of [user_votes], read on the stored tables *)

(** No two stored votes collide on [(user_id, grievance_id)] or on
    [(user_id, comment_id)]. *)
Fixpoint votes_unique (vs : list UserVote) : bool :=
  match vs with
  | [] => true
  | v :: rest =>
      negb (existsb (Pg.collides (v_userId v) (v_grievanceId v) (v_commentId v)) rest)
      && votes_unique rest
  end.

(** The CHECK constraints and the foreign keys of one stored vote. *)
Definition vote_row_ok (db : DB) (v : UserVote) : bool :=
  Pg.vote_type_check (v_voteType v)
  && Pg.vote_target_check (v_grievanceId v) (v_commentId v)
  && Pg.references_ok db (v_userId v) (v_grievanceId v) (v_commentId v).

Definition constraints_hold (db : DB) : bool :=
  votes_unique (user_votes db) && forallb (vote_row_ok db) (user_votes db).

(** The denormalized counters agree with the vote rows. *)
Definition grievance_counters_ok (db : DB) (g : Grievance) : Prop :=
  g_upvotes g = count_grievance_votes (Some (g_id g)) "up" db
  /\ g_downvotes g = count_grievance_votes (Some (g_id g)) "down" db.

Definition comment_counters_ok (db : DB) (c : Comment) : Prop :=
  c_upvotes c = count_comment_votes (Some (c_id c)) "up" db.

(** A rewrite of the grievance inside a joined row. *)
Definition on_row (upd : Grievance -> Grievance) (r : GrievanceRow) : GrievanceRow :=
  mkRow (upd (row_g r)) (authorUsername r).

(** The counter invariant over the whole database. *)
Definition all_counters_ok (db : DB) : Prop :=
  (forall g, In g (grievances db) -> grievance_counters_ok db g)
  /\ (forall c, In c (comments db) -> comment_counters_ok db c).

(** The two shapes of a vote target: a grievance or a comment, with a
    non-empty id. *)
Definition target_shape (gid cid : option string) : Prop :=
  exists id, id <> "" /\ ((gid = Some id /\ cid = None)
                          \/ (gid = None /\ cid = Some id)).

(** Two grievance rows that differ at most in the two counters. *)
Definition same_but_counters (g g' : Grievance) : Prop :=
  g_id g' = g_id g /\ g_title g' = g_title g
  /\ g_description g' = g_description g /\ g_category g' = g_category g
  /\ g_municipality g' = g_municipality g /\ g_location g' = g_location g
  /\ g_authorId g' = g_authorId g /\ g_timestamp g' = g_timestamp g
  /\ g_status g' = g_status g /\ g_imageUrl g' = g_imageUrl g
  /\ g_updatedAt g' = g_updatedAt g.

(** Two comment rows that differ at most in [upvotes]. *)
Definition same_but_upvotes (c c' : Comment) : Prop :=
  c_id c' = c_id c /\ c_grievanceId c' = c_grievanceId c
  /\ c_authorId c' = c_authorId c /\ c_text c' = c_text c
  /\ c_timestamp c' = c_timestamp c.

(** ** A sort that honours ORDER BY

    The insertion sort that keeps rows that tie in the order of its
    input. *)
Fixpoint insert_before {A} (le : A -> A -> bool) (x : A) (l : list A) : list A :=
  match l with
  | [] => [x]
  | y :: l' => if le x y then x :: l else y :: insert_before le x l'
  end.

Definition stable_sort : sorter :=
  fun le rows => fold_right (insert_before le) [] rows.

(** [a] stands before [b] in [l]. *)
Definition before {A} (a b : A) (l : list A) : Prop :=
  exists l1 l2 l3, l = (l1 ++ a :: l2 ++ b :: l3)%list.

(** ** The counters as the specification words them *)

(** "Vote rows targeting that grievance", "targeting that comment". *)
Definition targets_grievance (id : string) (v : UserVote) : bool :=
  match v_grievanceId v with Some g => String.eqb g id | None => false end.

Definition targets_comment (id : string) (v : UserVote) : bool :=
  match v_commentId v with Some c => String.eqb c id | None => false end.

(** "The number of vote rows targeting ... with kind [k]." *)
Definition vote_rows (on : UserVote -> bool) (k : string) (vs : list UserVote) : Z :=
  Z.of_nat (List.length (filter (fun v => on v && String.eqb (v_voteType v) k) vs)).

(** "A grievance's stored upvotes field equals the number of vote rows
    targeting that grievance with kind up, its downvotes field equals
    the number with kind down, and a comment's stored upvotes field
    equals the number of vote rows targeting that comment with kind
    up." *)
Definition counter_invariant (db : DB) : Prop :=
  (forall g, In g (grievances db) ->
     g_upvotes g = vote_rows (targets_grievance (g_id g)) "up" (user_votes db)
     /\ g_downvotes g = vote_rows (targets_grievance (g_id g)) "down" (user_votes db))
  /\ (forall c, In c (comments db) ->
        c_upvotes c = vote_rows (targets_comment (c_id c)) "up" (user_votes db)).

(** ** The filter as the specification words it *)

(** "The sentinel [all], or absent, or empty: no constraint." *)
Definition no_filter (o : option string) : Prop :=
  o = None \/ o = Some "" \/ o = Some "all".

(** The characters that LIKE does not read literally. *)
Definition wildcard (c : ascii) : bool :=
  Ascii.eqb c "%" || Ascii.eqb c "_" || Ascii.eqb c "\".

Definition plain_text (s : string) : bool :=
  forallb (fun c => negb (wildcard c)) (list_ascii_of_string s).

Definition lowercase (s : string) : list ascii :=
  map Pg.lower (list_ascii_of_string s).

(** "The text occurs case-insensitively in the field." *)
Definition occurs_ci (s t : string) : Prop :=
  exists pre post : list ascii, lowercase t = (pre ++ lowercase s ++ post)%list.

(** The search condition of the query on one grievance. *)
Definition search_condition (o : option string) (g : Grievance) : Prop :=
  match o with
  | None => True
  | Some s =>
      s = ""
      \/ Pg.ilike (g_title g) (searchTerm s) = true
      \/ Pg.ilike (g_description g) (searchTerm s) = true
      \/ Pg.ilike_null (g_location g) (searchTerm s) = true
  end.

(** The claim's reading of a field filter: only [all] and absence lift
    the constraint, every other value must equal the field. *)
Definition claimed_field_filter (o : option string) (field : string) : bool :=
  match o with
  | None => true
  | Some v => String.eqb v "all" || String.eqb field v
  end.

(** The filters with another page. *)
Definition with_page (f : Filters) (limit offset : option Z) : Filters :=
  mkFilters (f_category f) (f_municipality f) (f_status f) (f_authorId f)
            (f_search f) (f_sortBy f) limit offset.

(** A page the server accepts: the limit absent or at most the largest
    bigint (a negative limit is left out of the query), the offset absent or
    within 0 and the largest bigint. *)
Definition page_ok (limit offset : option Z) : Prop :=
  (forall n, limit = Some n -> n <= Pg.bigint_max)
  /\ (forall n, offset = Some n -> 0 <= n <= Pg.bigint_max).

(** Under the two vote orders, the net votes of the stored grievances
    fit the type [integer]. *)
Definition net_votes_fit (f : Filters) (db : DB) : Prop :=
  f_sortBy f = Some "upvotes-high" \/ f_sortBy f = Some "upvotes-low" ->
  forall g, In g (grievances db) ->
    Pg.int4_min <= g_upvotes g - g_downvotes g <= Pg.int4_max.

(** A status filter the server accepts: no filter, or one of the five
    status labels. *)
Definition status_filter_ok (f : Filters) : Prop :=
  no_filter (f_status f)
  \/ In (f_status f)
        [Some "pending"; Some "urgent"; Some "in-progress"; Some "resolved";
         Some "closed"].

(** "The grievances satisfying the filters": each field filter is no
    filter or names the value of the field, and the search condition
    holds. *)
Definition satisfies_filters (f : Filters) (g : Grievance) : Prop :=
  (no_filter (f_category f) \/ f_category f = Some (g_category g))
  /\ (no_filter (f_municipality f) \/ f_municipality f = Some (g_municipality g))
  /\ (no_filter (f_status f) \/ f_status f = Some (string_of_status (g_status g)))
  /\ (f_authorId f = None \/ f_authorId f = Some "" \/ f_authorId f = Some (g_authorId g))
  /\ search_condition (f_search f) g.

(** * The rest of the server and the client helpers

    The remaining methods of [PostgreSQLStorage], the remaining Express
    handlers for grievances, comments and statistics, and [getTimeAgo]
    of the client pages.  Generated ids ([gen_random_uuid()]) are an
    explicit argument [uuid], like [now]. *)

(** ** Tables that reference grievances *)

Inductive assignment_status :=
  assigned | assignment_in_progress | completed | escalated.

Record Department := mkDepartment {
  d_id : string;
  d_name : string;
  d_municipality : string;
  d_headId : option string;
  d_createdAt : Z
}.

Record Assignment := mkAssignment {
  a_id : string;
  a_grievanceId : string;
  a_departmentId : option string;
  a_assignedTo : option string;
  a_assignedBy : string;
  a_assignedAt : Z;
  a_status : assignment_status;
  a_notes : option string;
  a_completedAt : option Z
}.

(** The whole database: the tables of [DB] and the two tables above. *)
Record Store := mkStore {
  core : DB;
  departments : list Department;
  assignments : list Assignment
}.

Definition set_core (st : Store) (db : DB) : Store :=
  mkStore db (departments st) (assignments st).

(** ** Request bodies *)

(** A value of a JSON object: a string, [null], or anything else. *)
Inductive JsonValue :=
| JNull
| JStr (s : string)
| JOther.

(** [body.key] of a parsed JSON object given as its list of members; of
    two members with the same key the later one counts, and a key that
    is no member is [undefined], here [None]. *)
Fixpoint member (key : string) (body : list (string * JsonValue)) : option JsonValue :=
  match body with
  | [] => None
  | (k, v) :: rest =>
      match member key rest with
      | Some w => Some w
      | None => if String.eqb k key then Some v else None
      end
  end.

(** [z.string()] of a column that is NOT NULL without default. *)
Definition zod_string (v : option JsonValue) : option string :=
  match v with Some (JStr s) => Some s | _ => None end.

(** [z.string().nullable().optional()] of a nullable column;
    [undefined] and [null] both end as NULL. *)
Definition zod_nullable_string (v : option JsonValue) : option (option string) :=
  match v with
  | None | Some JNull => Some None
  | Some (JStr s) => Some (Some s)
  | Some JOther => None
  end.

(** [z.enum([...]).optional()] of the status column, which has a
    default. *)
Definition zod_status (v : option JsonValue) : option (option grievance_status) :=
  match v with
  | None => Some None
  | Some (JStr s) =>
      match status_of_string s with
      | Some st => Some (Some st)
      | None => None
      end
  | Some _ => None
  end.

(** [InsertGrievance]: the grievance schema without [id], [timestamp],
    [upvotes], [downvotes] and [updatedAt]. *)
Record InsertGrievance := mkInsertGrievance {
  ig_title : string;
  ig_description : string;
  ig_category : string;
  ig_municipality : string;
  ig_location : option string;
  ig_authorId : string;
  ig_status : option grievance_status;
  ig_imageUrl : option string
}.

(** [insertGrievanceSchema.parse({ ...req.body, authorId })]: the keys
    of the schema are read, every other member of the body is dropped;
    [None] is a ZodError. *)
Definition parse_grievance (body : list (string * JsonValue)) (authorId : string)
  : option InsertGrievance :=
  match zod_string (member "title" body),
        zod_string (member "description" body),
        zod_string (member "category" body),
        zod_string (member "municipality" body),
        zod_nullable_string (member "location" body),
        zod_status (member "status" body),
        zod_nullable_string (member "imageUrl" body) with
  | Some t, Some d, Some c, Some m, Some l, Some s, Some i =>
      Some (mkInsertGrievance t d c m l authorId s i)
  | _, _, _, _, _, _, _ => None
  end.

(** [InsertComment]: the comment schema without [id], [timestamp] and
    [upvotes]. *)
Record InsertComment := mkInsertComment {
  ic_grievanceId : string;
  ic_authorId : string;
  ic_text : string
}.

(** [insertCommentSchema.parse({ ...req.body, grievanceId, authorId })]. *)
Definition parse_comment (body : list (string * JsonValue))
    (grievanceId authorId : string) : option InsertComment :=
  match zod_string (member "text" body) with
  | Some t => Some (mkInsertComment grievanceId authorId t)
  | None => None
  end.

(** ** More of [PostgreSQLStorage] *)

(** [createGrievance]: the primary key, then the foreign key of the
    author; the columns left out of the insert take their defaults. *)
Definition createGrievance (uuid : string) (g : InsertGrievance) (now : Z) (db : DB)
  : Pg.result (Grievance * DB) :=
  if existsb (fun x => String.eqb (g_id x) uuid) (grievances db)
  then Pg.Throw Pg.unique_violation
  else if negb (existsb (fun u => String.eqb (u_id u) (ig_authorId g)) (users db))
  then Pg.Throw Pg.foreign_key_violation
  else
    let row :=
      mkGrievance uuid (ig_title g) (ig_description g) (ig_category g)
        (ig_municipality g) (ig_location g) (ig_authorId g) now 0 0
        (match ig_status g with Some s => s | None => pending end)
        (ig_imageUrl g) now in
    Pg.Ok (row, set_grievances db (grievances db ++ [row])).

(** [deleteGrievance]: the rows of [comments], [assignments] and
    [user_votes] that reference a deleted grievance make the statement
    fail; no reference is declared ON DELETE CASCADE. *)
Definition grievance_referenced (id : string) (st : Store) : bool :=
  existsb (fun c => String.eqb (c_grievanceId c) id) (comments (core st))
  || existsb (fun a => String.eqb (a_grievanceId a) id) (assignments st)
  || existsb (fun v => Pg.eq_null (v_grievanceId v) (Some id)) (user_votes (core st)).

Definition deleteGrievance (id : string) (st : Store) : Pg.result (bool * Store) :=
  let hit g := String.eqb (g_id g) id in
  if existsb hit (grievances (core st)) && grievance_referenced id st
  then Pg.Throw Pg.foreign_key_violation
  else
    Pg.Ok (existsb hit (grievances (core st)),
           set_core st
             (set_grievances (core st)
                (filter (fun g => negb (hit g)) (grievances (core st))))).

(** A comment row joined with its author's user name. *)
Record CommentRow := mkCommentRow {
  row_c : Comment;
  c_authorUsername : option string
}.

Definition left_join_author (us : list User) (c : Comment) : list CommentRow :=
  match filter (fun u => String.eqb (c_authorId c) (u_id u)) us with
  | [] => [mkCommentRow c None]
  | m => map (fun u => mkCommentRow c (Some (u_username u))) m
  end.

(** The sort of the server on comment rows, and what ORDER BY promises. *)
Definition comment_sorter := (CommentRow -> CommentRow -> bool)
                             -> list CommentRow -> list CommentRow.

Definition comment_order_contract (srt : comment_sorter) : Prop :=
  forall le rows,
    Permutation rows (srt le rows)
    /\ ((forall a b, le a b = true \/ le b a = true) ->
        (forall a b c, le a b = true -> le b c = true -> le a c = true) ->
        StronglySorted (fun a b => le a b = true) (srt le rows)).

(** A sort that honours it: the insertion sort of [stable_sort]. *)
Definition comment_stable_sort : comment_sorter :=
  fun le rows => fold_right (insert_before le) [] rows.

(** [desc(comments.timestamp)]. *)
Definition newest_comment_first (a b : CommentRow) : bool :=
  Z.leb (c_timestamp (row_c b)) (c_timestamp (row_c a)).

(** [getComments]. *)
Definition getComments (srt : comment_sorter) (grievanceId : string) (db : DB)
  : list CommentRow :=
  srt newest_comment_first
      (filter (fun r => String.eqb (c_grievanceId (row_c r)) grievanceId)
              (flat_map (left_join_author (users db)) (comments db))).

(** [createComment]. *)
Definition createComment (uuid : string) (c : InsertComment) (now : Z) (db : DB)
  : Pg.result (Comment * DB) :=
  if existsb (fun x => String.eqb (c_id x) uuid) (comments db)
  then Pg.Throw Pg.unique_violation
  else if negb (existsb (fun g => String.eqb (g_id g) (ic_grievanceId c)) (grievances db)
                && existsb (fun u => String.eqb (u_id u) (ic_authorId c)) (users db))
  then Pg.Throw Pg.foreign_key_violation
  else
    let row := mkComment uuid (ic_grievanceId c) (ic_authorId c) (ic_text c) now 0 in
    Pg.Ok (row, set_comments db (comments db ++ [row])).

(** [updateComment]: [.set({ text })]. *)
Definition set_text (text : string) (c : Comment) : Comment :=
  mkComment (c_id c) (c_grievanceId c) (c_authorId c) text (c_timestamp c) (c_upvotes c).

Definition updateComment (id text : string) (db : DB) : option Comment * DB :=
  let hit c := String.eqb (c_id c) id in
  let upd c := if hit c then set_text text c else c in
  (hd_error (map upd (filter hit (comments db))),
   set_comments db (map upd (comments db))).

(** [deleteComment]: the votes on a deleted comment make the statement
    fail. *)
Definition deleteComment (id : string) (db : DB) : Pg.result (bool * DB) :=
  let hit c := String.eqb (c_id c) id in
  if existsb hit (comments db)
     && existsb (fun v => Pg.eq_null (v_commentId v) (Some id)) (user_votes db)
  then Pg.Throw Pg.foreign_key_violation
  else
    Pg.Ok (existsb hit (comments db),
           set_comments db (filter (fun c => negb (hit c)) (comments db))).

(** The result of [getGrievanceStats]. *)
Record Stats := mkStats {
  s_total : Z;
  s_pending : Z;
  s_urgent : Z;
  s_inProgress : Z;
  s_resolved : Z
}.

(** One step of [result.forEach(row => { ... })]: the count joins the
    total, and the field of the row's status, if it has one, is set. *)
Definition stats_step (stats : Stats) (row : grievance_status * Z) : Stats :=
  let total := s_total stats + snd row in
  match fst row with
  | pending => mkStats total (snd row) (s_urgent stats) (s_inProgress stats) (s_resolved stats)
  | urgent => mkStats total (s_pending stats) (snd row) (s_inProgress stats) (s_resolved stats)
  | in_progress => mkStats total (s_pending stats) (s_urgent stats) (snd row) (s_resolved stats)
  | resolved => mkStats total (s_pending stats) (s_urgent stats) (s_inProgress stats) (snd row)
  | closed => mkStats total (s_pending stats) (s_urgent stats) (s_inProgress stats) (s_resolved stats)
  end.

Definition stats_of_groups (groups : list (grievance_status * Z)) : Stats :=
  fold_left stats_step groups (mkStats 0 0 0 0 0).

Definition count_status (s : grievance_status) (gs : list Grievance) : Z :=
  Z.of_nat (List.length (filter (fun g => status_eqb (g_status g) s) gs)).

(** [SELECT status, count( * ) ... GROUP BY status]: one row for every
    status that some selected grievance has.  The server returns the
    groups in an order of its choice; here they come in the order of the
    enum. *)
Definition group_by_status (gs : list Grievance) : list (grievance_status * Z) :=
  filter (fun row => negb (Z.eqb (snd row) 0))
         (map (fun s => (s, count_status s gs))
              [pending; urgent; in_progress; resolved; closed]).

(** [getGrievanceStats]. *)
Definition in_municipality (municipality : option string) (g : Grievance) : bool :=
  if JS.truthy_opt municipality
  then Pg.eq_null (Some (g_municipality g)) municipality else true.

Definition getGrievanceStats (municipality : option string) (db : DB) : Stats :=
  stats_of_groups
    (group_by_status (filter (in_municipality municipality) (grievances db))).

(** ** More Express handlers *)

Inductive Payload :=
| Plain (b : Body)
| InvalidData
| Message (message : string)
| OneGrievance (g : Grievance)
| GrievanceView (r : GrievanceRow) (userVote : option (option string))
| GrievancePage (rows : list (GrievanceRow * option (option string))) (total : Z)
| OneComment (c : Comment)
| CommentList (rows : list (CommentRow * option (option string)))
| StatsBody (s : Stats).

Record Reply := mkReply {
  r_status : nat;
  r_payload : Payload
}.

Definition reply_error (st : nat) (msg : string) : Reply :=
  mkReply st (Plain (ErrorBody msg)).

Definition reply_of (r : Response) : Reply := mkReply (status r) (Plain (body r)).

(** [requireAdmin]: the refusal, if any. *)
Definition requireAdmin (sess : Session) : option Reply :=
  if negb (JS.truthy_opt (s_userId sess)) || negb (JS.same (s_userType sess) "admin")
  then Some (reply_error 403 "Admin access required")
  else None.

(** [(row as any).userVote = userVote?.voteType || null], done only for
    a session with a user id; [None] is a row without the property. *)
Definition userVote_of (sess : Session) (grievanceId commentId : option string) (db : DB)
  : option (option string) :=
  match s_userId sess with
  | Some u =>
      if JS.truthy u
      then Some (JS.or_null (option_map v_voteType
                               (getUserVote u grievanceId commentId db)))
      else None
  | None => None
  end.

(** [app.get("/api/grievances", ...)]; [limit] and [offset] are the
    query values after [parseInt], [None] for an absent one and for NaN. *)
Definition get_grievances (srt : sorter) (sess : Session)
    (category municipality status search sortBy : option string)
    (limit offset : option Z) (db : DB) : Reply :=
  match getGrievances srt
          (mkFilters category municipality status None search sortBy limit offset) db with
  | Pg.Throw _ => reply_error 500 "Failed to get grievances"
  | Pg.Ok (rows, total) =>
      mkReply 200
        (GrievancePage
           (map (fun r => (r, userVote_of sess (Some (g_id (row_g r))) None db)) rows)
           total)
  end.

(** [app.get("/api/grievances/:id", ...)]. *)
Definition get_grievance (sess : Session) (id : string) (db : DB) : Reply :=
  match getGrievance id db with
  | None => reply_error 404 "Grievance not found"
  | Some r =>
      mkReply 200 (GrievanceView r (userVote_of sess (Some (g_id (row_g r))) None db))
  end.

(** [app.post("/api/grievances", requireAuth, ...)]. *)
Definition post_grievance (uuid : string) (now : Z) (sess : Session)
    (body : list (string * JsonValue)) (db : DB) : Reply * DB :=
  match requireAuth sess with
  | inl r => (reply_of r, db)
  | inr userId =>
      match parse_grievance body userId with
      | None => (mkReply 400 InvalidData, db)
      | Some g =>
          match createGrievance uuid g now db with
          | Pg.Throw _ => (reply_error 500 "Failed to create grievance", db)
          | Pg.Ok (row, db') => (mkReply 201 (OneGrievance row), db')
          end
      end
  end.

(** [app.delete("/api/grievances/:id", requireAuth, ...)]. *)
Definition delete_grievance (sess : Session) (id : string) (st : Store) : Reply * Store :=
  match requireAuth sess with
  | inl r => (reply_of r, st)
  | inr userId =>
      match getGrievance id (core st) with
      | None => (reply_error 404 "Grievance not found", st)
      | Some r =>
          if negb (String.eqb (g_authorId (row_g r)) userId)
             && negb (JS.same (s_userType sess) "admin")
          then (reply_error 403 "Permission denied", st)
          else
            match deleteGrievance id st with
            | Pg.Throw _ => (reply_error 500 "Failed to delete grievance", st)
            | Pg.Ok (deleted, st') =>
                if deleted
                then (mkReply 200 (Message "Grievance deleted successfully"), st')
                else (reply_error 404 "Grievance not found", st')
            end
      end
  end.

(** [app.get("/api/grievances/:id/comments", ...)]. *)
Definition get_comments (srt : comment_sorter) (sess : Session) (id : string) (db : DB)
  : Reply :=
  mkReply 200
    (CommentList
       (map (fun r => (r, userVote_of sess None (Some (c_id (row_c r))) db))
            (getComments srt id db))).

(** [app.post("/api/grievances/:id/comments", requireAuth, ...)]. *)
Definition post_comment (uuid : string) (now : Z) (sess : Session) (id : string)
    (body : list (string * JsonValue)) (db : DB) : Reply * DB :=
  match requireAuth sess with
  | inl r => (reply_of r, db)
  | inr userId =>
      match parse_comment body id userId with
      | None => (mkReply 400 InvalidData, db)
      | Some c =>
          match createComment uuid c now db with
          | Pg.Throw _ => (reply_error 500 "Failed to create comment", db)
          | Pg.Ok (row, db') => (mkReply 201 (OneComment row), db')
          end
      end
  end.

(** [app.patch("/api/comments/:id", requireAuth, ...)].  [text] is the
    member of the body when it is a string, and [None] when it is absent
    or null; a text of another JSON type is not modelled. *)
Definition patch_comment (sess : Session) (id : string) (text : option string) (db : DB)
  : Reply * DB :=
  match requireAuth sess with
  | inl r => (reply_of r, db)
  | inr _ =>
      match text with
      | Some t =>
          if JS.truthy t then
            match updateComment id t db with
            | (Some c, db') => (mkReply 200 (OneComment c), db')
            | (None, db') => (reply_error 404 "Comment not found", db')
            end
          else (reply_error 400 "Text is required", db)
      | None => (reply_error 400 "Text is required", db)
      end
  end.

(** [app.delete("/api/comments/:id", requireAuth, ...)]. *)
Definition delete_comment (sess : Session) (id : string) (db : DB) : Reply * DB :=
  match requireAuth sess with
  | inl r => (reply_of r, db)
  | inr _ =>
      match deleteComment id db with
      | Pg.Throw _ => (reply_error 500 "Failed to delete comment", db)
      | Pg.Ok (deleted, db') =>
          if deleted
          then (mkReply 200 (Message "Comment deleted successfully"), db')
          else (reply_error 404 "Comment not found", db')
      end
  end.

(** [app.get("/api/analytics/stats", requireAdmin, ...)]. *)
Definition get_stats (sess : Session) (municipality : option string) (db : DB) : Reply :=
  match requireAdmin sess with
  | Some refusal => refusal
  | None => mkReply 200 (StatsBody (getGrievanceStats municipality db))
  end.

(** ** The client: [getTimeAgo] *)

Module Client.

(** [`${n}`] for an integer. *)
Definition show (n : Z) : string := NilZero.string_of_int (Z.to_int n).

(** [getTimeAgo] of the dashboard, the admin page and the comment
    dialog (the three copies are the same); [Math.floor(a / b)] on
    integers is [a / b] of [Z]. *)
Definition getTimeAgo (now timestamp : Z) : string :=
  let diffMs := now - timestamp in
  let diffMins := diffMs / (1000 * 60) in
  let diffHours := diffMins / 60 in
  let diffDays := diffHours / 24 in
  if Z.ltb diffMins 60 then show diffMins ++ "m ago"
  else if Z.ltb diffHours 24 then show diffHours ++ "h ago"
  else show diffDays ++ "d ago".

End Client.

(** ** Sample data *)

Module Example.

Definition alice := mkUser "u-alice" "alice" "Pune" citizen.
Definition bob := mkUser "u-bob" "bob" "Pune" citizen.
Definition carol := mkUser "u-carol" "carol" "Pune" admin.

Definition pothole :=
  mkGrievance "g-1" "Pothole on Main Street" "Deep pothole near the bus stop"
    "roads" "Pune" (Some "Main Street") "u-alice" 1000 1 0 pending None 1000.

Definition burst_pipe :=
  mkGrievance "g-2" "Burst water pipe" "Water is flooding the lane"
    "water" "Pune" None "u-bob" 2000 0 0 urgent None 2000.

Definition remark := mkComment "c-1" "g-1" "u-bob" "Same here" 1500 0.

(** alice has upvoted the pothole. *)
Definition alice_up := mkUserVote 0 "u-alice" (Some "g-1") None "up" 1100.

Definition db0 : DB :=
  mkDB [alice; bob; carol] [pothole; burst_pipe] [remark] [alice_up] 1.

Definition as_alice := mkSession (Some "u-alice") (Some "citizen").
Definition as_bob := mkSession (Some "u-bob") (Some "citizen").
Definition as_carol := mkSession (Some "u-carol") (Some "admin").

Definition no_filters : Filters :=
  mkFilters None None None None None None None None.




(** Two grievances created at the same instant. *)
Definition tie_a :=
  mkGrievance "t-a" "Fallen tree" "Blocks the road" "roads" "Pune" None
    "u-alice" 500 0 0 pending None 500.
Definition tie_b :=
  mkGrievance "t-b" "Broken bench" "In the park" "parks" "Pune" None
    "u-alice" 500 0 0 pending None 500.

Definition db_tie : DB := mkDB [alice] [tie_a; tie_b] [] [] 0.

(** [?category=]: the category filter is present and empty. *)
Definition empty_category : Filters :=
  mkFilters (Some "") None None None None None None None.

(** [?category=roads&search=MAIN]. *)
Definition roads_main : Filters :=
  mkFilters (Some "roads") None None None (Some "MAIN") None None None.

(** [?search=_]. *)
Definition search_underscore : Filters :=
  mkFilters None None None None (Some "_") None None None.

(** A PATCH body that only sets the status. *)
Definition set_status (s : string) : GrievanceUpdates :=
  mkUpdates None None None None None None None None None (Some s) None None.

(** A PATCH body that only sets [upvotes]. *)
Definition set_upvotes (n : Z) : GrievanceUpdates :=
  mkUpdates None None None None None None None (Some n) None None None None.

(** A grievance the server stamped at 1000 ms, with no votes yet; a
    browser whose clock is one second behind reads it at 0 ms. *)
Definition just_filed :=
  mkGrievance "g-f" "Flooded underpass" "After the rain" "roads" "Pune" None
    "u-alice" 1000 0 0 pending None 1000.

(** The scenario of the specification: 5 up, 2 down, urgent, 48 hours old. *)
Definition scenario :=
  mkGrievance "g-s" "Gas leak" "Strong smell" "safety" "Pune" None
    "u-alice" 0 5 2 urgent None 0.

(** The second scenario: 1 up, 3 down, urgent. *)
Definition unpopular :=
  mkGrievance "g-u" "Loud festival" "Too loud" "noise" "Pune" None
    "u-bob" 0 1 3 urgent None 0.

(** 3 up, 1 down, not urgent. *)
Definition contested :=
  mkGrievance "g-c" "Broken swing" "In the park" "parks" "Pune" None
    "u-carol" 0 3 1 pending None 0.

Definition hours (n : Z) : Z := n * 60 * 60 * 1000.

(** The pothole before anybody voted. *)
Definition db_fresh : DB :=
  mkDB [alice; bob; carol]
       [set_counts 0 0 pothole; burst_pipe] [remark] [] 0.

End Example.

(** ** More sample data *)

Module Sample.

(** The sample database with the two tables that reference grievances,
    both empty. *)
Definition store0 : Store := mkStore Example.db0 [] [].

(** A report whose body also tries to set the author, the id and the
    counters. *)
Definition report : list (string * JsonValue) :=
  [("title", JStr "Broken swing");
   ("description", JStr "The chain has snapped");
   ("category", JStr "parks");
   ("municipality", JStr "Pune");
   ("authorId", JStr "u-carol");
   ("id", JStr "g-1");
   ("upvotes", JOther)].

Definition parsed_report : InsertGrievance :=
  mkInsertGrievance "Broken swing" "The chain has snapped" "parks" "Pune"
    None "u-bob" None None.

Definition reply_text : list (string * JsonValue) := [("text", JStr "Any news?")].

(** bob has upvoted alice's remark on the pothole. *)
Definition second_remark := mkComment "c-2" "g-1" "u-alice" "Still there" 1700 1.
Definition bob_likes := mkUserVote 1 "u-bob" None (Some "c-2") "up" 1800.

Definition db1 : DB :=
  mkDB [Example.alice; Example.bob; Example.carol]
       [Example.pothole; Example.burst_pipe]
       [Example.remark; second_remark]
       [Example.alice_up; bob_likes] 2.

(** The groups of the statistics query in another order. *)
Definition groups_reordered : list (grievance_status * Z) :=
  [(urgent, 1); (pending, 1)].


(** A PATCH body with a status and a timestamp, as JSON carries it. *)
Definition status_and_timestamp : GrievanceUpdates :=
  mkUpdates None None None None None None (Some 5000)
            None None (Some "resolved") None None.

(** [?category=roads]. *)
Definition roads_only : Filters :=
  mkFilters (Some "roads") None None None None None None None.

End Sample.

(** * Proofs *)

Local Open Scope list_scope.

(** ** Strings and JavaScript truthiness *)

Lemma truthy_iff (s : string) : JS.truthy s = true <-> s <> "".
Proof.
  unfold JS.truthy. rewrite negb_true_iff. split; intros H.
  - apply String.eqb_neq. exact H.
  - apply String.eqb_neq. exact H.
Qed.

Lemma eqb_sym_string (a b : string) : String.eqb a b = String.eqb b a.
Proof.
  destruct (String.eqb a b) eqn:E.
  - apply String.eqb_eq in E. subst. symmetry. apply String.eqb_refl.
  - symmetry. apply String.eqb_neq. apply String.eqb_neq in E. congruence.
Qed.

Lemma eq_null_sym (a b : option string) : Pg.eq_null a b = Pg.eq_null b a.
Proof. destruct a, b; simpl; auto using eqb_sym_string. Qed.

Lemma eq_null_Some (a : option string) (s : string) :
  Pg.eq_null a (Some s) = true <-> a = Some s.
Proof.
  destruct a as [x|]; simpl; split; intros H; try discriminate.
  - apply String.eqb_eq in H. now subst.
  - injection H as ->. apply String.eqb_refl.
Qed.

(** ** Lists: first match, filters and maps *)

Lemma hd_filter_split {A} (c : A -> bool) (l : list A) (x : A) :
  hd_error (filter c l) = Some x ->
  exists l1 l2, l = l1 ++ x :: l2 /\ filter c l1 = [] /\ c x = true.
Proof.
  induction l as [|a l IH]; simpl; intros H; [discriminate|].
  destruct (c a) eqn:Ca.
  - simpl in H. injection H as ->. exists [], l. auto.
  - destruct (IH H) as (l1 & l2 & -> & F & Cx).
    exists (a :: l1), l2. simpl. rewrite Ca. auto.
Qed.

Lemma hd_filter_none {A} (c : A -> bool) (l : list A) :
  hd_error (filter c l) = None <-> existsb c l = false.
Proof.
  induction l as [|a l IH]; simpl; [tauto|].
  destruct (c a); simpl; [split; discriminate | exact IH].
Qed.

Lemma filter_nil_iff {A} (c : A -> bool) (l : list A) :
  filter c l = [] <-> existsb c l = false.
Proof.
  induction l as [|a l IH]; simpl; [tauto|].
  destruct (c a); simpl; [split; discriminate | exact IH].
Qed.

Lemma filter_none_id {A} (c : A -> bool) (l : list A) :
  existsb c l = false -> filter (fun x => negb (c x)) l = l.
Proof.
  induction l as [|a l IH]; simpl; auto.
  destruct (c a); simpl; [discriminate|]. intros H. now rewrite IH.
Qed.

Lemma map_if_none {A} (c : A -> bool) (f : A -> A) (l : list A) :
  existsb c l = false -> map (fun x => if c x then f x else x) l = l.
Proof.
  induction l as [|a l IH]; simpl; auto.
  destruct (c a); simpl; [discriminate|]. intros H. now rewrite IH.
Qed.

(** ** The unique indexes of [user_votes] *)

Lemma collides_sym (v w : UserVote) :
  Pg.collides (v_userId v) (v_grievanceId v) (v_commentId v) w
  = Pg.collides (v_userId w) (v_grievanceId w) (v_commentId w) v.
Proof.
  unfold Pg.collides.
  rewrite (eqb_sym_string (v_userId w)), (eq_null_sym (v_grievanceId w)),
    (eq_null_sym (v_commentId w)). reflexivity.
Qed.

Lemma votes_unique_app (l1 l2 : list UserVote) :
  votes_unique (l1 ++ l2) = true ->
  votes_unique l1 = true /\ votes_unique l2 = true
  /\ forall v w, In v l1 -> In w l2 ->
       Pg.collides (v_userId v) (v_grievanceId v) (v_commentId v) w = false.
Proof.
  induction l1 as [|a l1 IH]; simpl; intros H.
  - repeat split; auto. intros v w [].
  - apply andb_true_iff in H as [Ha Hu]. apply negb_true_iff in Ha.
    rewrite existsb_app in Ha. apply orb_false_iff in Ha as [Ha1 Ha2].
    destruct (IH Hu) as (U1 & U2 & X). rewrite Ha1, U1. repeat split; auto.
    intros v w [<-|Hv] Hw; [|now apply X].
    destruct (Pg.collides _ _ _ w) eqn:E; auto.
    assert (existsb (Pg.collides (v_userId a) (v_grievanceId a) (v_commentId a)) l2 = true)
      by (apply existsb_exists; eauto).
    congruence.
Qed.

Lemma votes_unique_intro (l1 l2 : list UserVote) :
  votes_unique l1 = true -> votes_unique l2 = true ->
  (forall v w, In v l1 -> In w l2 ->
     Pg.collides (v_userId v) (v_grievanceId v) (v_commentId v) w = false) ->
  votes_unique (l1 ++ l2) = true.
Proof.
  induction l1 as [|a l1 IH]; simpl; intros U1 U2 X; auto.
  apply andb_true_iff in U1 as [Ha U1]. apply negb_true_iff in Ha.
  apply andb_true_iff. split.
  - apply negb_true_iff. rewrite existsb_app, Ha. simpl.
    destruct (existsb _ l2) eqn:E; auto.
    apply existsb_exists in E as (w & Hw & Cw).
    rewrite (X a w) in Cw; auto.
  - apply IH; auto.
Qed.

(** The keys of a row are untouched by [revote]. *)
Lemma collides_revote k now uid gid cid v :
  Pg.collides uid gid cid (revote k now v) = Pg.collides uid gid cid v.
Proof. reflexivity. Qed.

(** Under the unique indexes, a condition whose matches collide pairwise
    selects at most one stored row. *)
Lemma unique_match (c : UserVote -> bool) (vs : list UserVote) (v : UserVote) :
  votes_unique vs = true ->
  (forall a b, c a = true -> c b = true ->
     Pg.collides (v_userId a) (v_grievanceId a) (v_commentId a) b = true) ->
  hd_error (filter c vs) = Some v ->
  exists l1 l2, vs = l1 ++ v :: l2 /\ c v = true
                /\ existsb c l1 = false /\ existsb c l2 = false.
Proof.
  intros U P H. destruct (hd_filter_split c vs v H) as (l1 & l2 & -> & F & Cv).
  exists l1, l2. repeat split; auto.
  - now apply filter_nil_iff.
  - apply votes_unique_app in U as (_ & U2 & _). simpl in U2.
    apply andb_true_iff in U2 as [Hv _]. apply negb_true_iff in Hv.
    destruct (existsb c l2) eqn:E; auto.
    apply existsb_exists in E as (w & Hw & Cw).
    assert (existsb (Pg.collides (v_userId v) (v_grievanceId v) (v_commentId v)) l2 = true)
      by (apply existsb_exists; exists w; auto).
    congruence.
Qed.

(** ** [createOrUpdateVote] *)

(** What a failed insert tells: which check failed. *)
Lemma insert_unique_violation vote now db :
  Pg.insert_user_vote vote now db = Pg.Throw Pg.unique_violation ->
  Pg.vote_type_check (iv_voteType vote) = true
  /\ Pg.vote_target_check (iv_grievanceId vote) (iv_commentId vote) = true
  /\ existsb (Pg.collides (iv_userId vote) (iv_grievanceId vote) (iv_commentId vote))
             (user_votes db) = true.
Proof.
  unfold Pg.insert_user_vote.
  destruct (Pg.vote_type_check _ && Pg.vote_target_check _ _) eqn:C; simpl;
    [|discriminate].
  apply andb_true_iff in C as [C1 C2].
  destruct (existsb _ (user_votes db)) eqn:E; [auto|].
  destruct (negb _); discriminate.
Qed.

(** With a target that passes the CHECK and is not the empty string, the
    WHERE clause of the fallback selects the rows the insert collided with. *)
Lemma fallback_is_collides vote v :
  Pg.vote_target_check (iv_grievanceId vote) (iv_commentId vote) = true ->
  iv_grievanceId vote <> Some "" ->
  fallback_conditions vote v
  = Pg.collides (iv_userId vote) (iv_grievanceId vote) (iv_commentId vote) v.
Proof.
  unfold fallback_conditions, Pg.collides.
  destruct (iv_grievanceId vote) as [g|], (iv_commentId vote) as [c|];
    simpl; try discriminate; intros _ Hg.
  - assert (T : JS.truthy g = true) by (apply truthy_iff; congruence).
    rewrite T. destruct (v_commentId v); simpl; now rewrite orb_false_r.
  - destruct (v_grievanceId v); reflexivity.
Qed.

Lemma colliding_rows_collide uid gid cid a b :
  Pg.vote_target_check gid cid = true ->
  Pg.collides uid gid cid a = true -> Pg.collides uid gid cid b = true ->
  Pg.collides (v_userId a) (v_grievanceId a) (v_commentId a) b = true.
Proof.
  unfold Pg.collides. intros T Ha Hb.
  apply andb_true_iff in Ha as [Ua Ka], Hb as [Ub Kb].
  apply String.eqb_eq in Ua, Ub. rewrite Ua, Ub, String.eqb_refl. simpl.
  destruct gid as [g|], cid as [c|]; simpl in T; try discriminate.
  - rewrite orb_true_iff in Ka, Kb.
    destruct Ka as [Ka|Ka]; [|destruct (v_commentId a); discriminate].
    destruct Kb as [Kb|Kb]; [|destruct (v_commentId b); discriminate].
    apply eq_null_Some in Ka, Kb. rewrite Ka, Kb. simpl.
    now rewrite String.eqb_refl.
  - rewrite orb_true_iff in Ka, Kb.
    destruct Ka as [Ka|Ka]; [destruct (v_grievanceId a); discriminate|].
    destruct Kb as [Kb|Kb]; [destruct (v_grievanceId b); discriminate|].
    apply eq_null_Some in Ka, Kb. rewrite Ka, Kb. simpl.
    rewrite String.eqb_refl. apply orb_true_r.
Qed.

(** Rewriting the one matching row in place. *)
Lemma map_revote_one (c : UserVote -> bool) k now l1 v l2 :
  c v = true -> existsb c l1 = false -> existsb c l2 = false ->
  map (fun x => if c x then revote k now x else x) (l1 ++ v :: l2)
  = l1 ++ revote k now v :: l2
  /\ filter c (l1 ++ v :: l2) = [v].
Proof.
  intros Cv H1 H2. split.
  - rewrite map_app. simpl. rewrite Cv, !map_if_none; auto.
  - rewrite filter_app. simpl. rewrite Cv.
    apply filter_nil_iff in H1, H2. now rewrite H1, H2.
Qed.

(** The stored table stays unique when one row is given a new kind. *)
Lemma votes_unique_revote k now l1 v l2 :
  votes_unique (l1 ++ v :: l2) = true ->
  votes_unique (l1 ++ revote k now v :: l2) = true.
Proof.
  intros U. apply votes_unique_app in U as (U1 & U2 & X).
  apply votes_unique_intro; auto.
  intros a w Ha [<-|Hw].
  - rewrite collides_revote. apply X; simpl; auto.
  - apply X; simpl; auto.
Qed.

(** The fallback of [createOrUpdateVote], computed: when the insert hits
    the unique index, the one stored row for that user and target gets
    the new kind; nothing is added. *)
Lemma createOrUpdateVote_fallback vote now db :
  votes_unique (user_votes db) = true ->
  iv_grievanceId vote <> Some "" ->
  Pg.insert_user_vote vote now db = Pg.Throw Pg.unique_violation ->
  exists l1 v l2,
    user_votes db = l1 ++ v :: l2
    /\ Pg.collides (iv_userId vote) (iv_grievanceId vote) (iv_commentId vote) v = true
    /\ existsb (Pg.collides (iv_userId vote) (iv_grievanceId vote) (iv_commentId vote)) l1 = false
    /\ existsb (Pg.collides (iv_userId vote) (iv_grievanceId vote) (iv_commentId vote)) l2 = false
    /\ createOrUpdateVote vote now db
       = Pg.Ok (Some (revote (iv_voteType vote) now v),
                set_user_votes db (l1 ++ revote (iv_voteType vote) now v :: l2)).
Proof.
  intros U Hg Hins.
  destruct (insert_unique_violation _ _ _ Hins) as (Ck & Ct & Ex).
  set (c := Pg.collides (iv_userId vote) (iv_grievanceId vote) (iv_commentId vote)) in *.
  destruct (hd_error (filter c (user_votes db))) as [v|] eqn:Hd.
  2:{ apply hd_filter_none in Hd. congruence. }
  destruct (unique_match c _ v U) as (l1 & l2 & E & Cv & H1 & H2); auto.
  { intros a b. apply colliding_rows_collide. exact Ct. }
  exists l1, v, l2. repeat split; auto.
  unfold createOrUpdateVote. rewrite Hins. simpl.
  unfold Pg.update_vote_type. rewrite Ck. rewrite andb_false_r. simpl.
  assert (F : forall x, fallback_conditions vote x = c x)
    by (intros x; now apply fallback_is_collides).
  rewrite !(map_ext (fun x => if fallback_conditions vote x
                            then revote (iv_voteType vote) now x else x)
                   (fun x => if c x then revote (iv_voteType vote) now x else x))
    by (intros x; now rewrite F).
  rewrite (filter_ext _ _ F).
  rewrite E. destruct (map_revote_one c (iv_voteType vote) now l1 v l2 Cv H1 H2) as [M Fl].
  rewrite M, Fl. simpl. rewrite Cv. reflexivity.
Qed.

(** A stored row that passes the CHECK and collides with a new vote has
    the new vote's user and target. *)
Lemma collides_same_target uid gid cid v :
  Pg.vote_target_check gid cid = true ->
  Pg.vote_target_check (v_grievanceId v) (v_commentId v) = true ->
  Pg.collides uid gid cid v = true ->
  v_userId v = uid /\ v_grievanceId v = gid /\ v_commentId v = cid.
Proof.
  unfold Pg.collides. intros T Tv C.
  apply andb_true_iff in C as [Cu Ck]. apply String.eqb_eq in Cu.
  destruct gid as [g|], cid as [c|]; simpl in T; try discriminate;
    destruct (v_grievanceId v) as [g'|], (v_commentId v) as [c'|];
    simpl in Tv, Ck; try discriminate.
  - rewrite orb_false_r in Ck. apply String.eqb_eq in Ck. subst. auto.
  - apply String.eqb_eq in Ck. subst. auto.
Qed.

Lemma references_ok_tables db db' uid gid cid :
  users db' = users db -> grievances db' = grievances db ->
  comments db' = comments db ->
  Pg.references_ok db' uid gid cid = Pg.references_ok db uid gid cid.
Proof. unfold Pg.references_ok. now intros -> -> ->. Qed.

Lemma vote_row_ok_tables db db' v :
  users db' = users db -> grievances db' = grievances db ->
  comments db' = comments db ->
  vote_row_ok db' v = vote_row_ok db v.
Proof.
  intros. unfold vote_row_ok. now rewrite (references_ok_tables db db').
Qed.

Lemma constraints_split db :
  constraints_hold db = true <->
  votes_unique (user_votes db) = true
  /\ forall v, In v (user_votes db) -> vote_row_ok db v = true.
Proof.
  unfold constraints_hold. rewrite andb_true_iff, forallb_forall. tauto.
Qed.

(** A stored row with the user and the target of a new vote collides
    with it. *)
Lemma same_target_collides uid gid cid w :
  Pg.vote_target_check gid cid = true ->
  v_userId w = uid -> v_grievanceId w = gid -> v_commentId w = cid ->
  Pg.collides uid gid cid w = true.
Proof.
  intros T <- <- <-. unfold Pg.collides. rewrite String.eqb_refl. simpl.
  destruct (v_grievanceId w) as [g|], (v_commentId w) as [c|];
    simpl in *; try discriminate; rewrite String.eqb_refl; reflexivity.
Qed.

(** C8. Conflict recovery in vote creation: when the insert of
    [createOrUpdateVote] fails on the unique index, because a vote row
    of that user for that target is stored already, the method does not
    throw: it returns that row with the requested kind and the time of
    the call, its id, user and target kept; the stored row is replaced
    in place by the returned one, the table has as many rows as before,
    the returned row is the only one of that user for that target, the
    other tables are untouched and the constraints of the table still
    hold. *)
Theorem createOrUpdateVote_conflict_recovery :
  forall vote now db,
    constraints_hold db = true ->
    iv_grievanceId vote <> Some "" ->
    Pg.insert_user_vote vote now db = Pg.Throw Pg.unique_violation ->
    exists l1 v l2 row db',
      user_votes db = l1 ++ v :: l2
      /\ v_userId v = iv_userId vote
      /\ v_grievanceId v = iv_grievanceId vote
      /\ v_commentId v = iv_commentId vote
      /\ createOrUpdateVote vote now db = Pg.Ok (Some row, db')
      /\ row = mkUserVote (v_id v) (iv_userId vote) (iv_grievanceId vote)
                 (iv_commentId vote) (iv_voteType vote) now
      /\ v_voteType row = iv_voteType vote
      /\ user_votes db' = l1 ++ row :: l2
      /\ List.length (user_votes db') = List.length (user_votes db)
      /\ (forall w, In w (user_votes db') ->
            v_userId w = iv_userId vote ->
            v_grievanceId w = iv_grievanceId vote ->
            v_commentId w = iv_commentId vote -> w = row)
      /\ users db' = users db
      /\ grievances db' = grievances db
      /\ comments db' = comments db
      /\ constraints_hold db' = true.
Proof.
  intros vote now db Hc Hg Hins.
  apply constraints_split in Hc as [U R].
  destruct (insert_unique_violation _ _ _ Hins) as (Ck & Ct & _).
  destruct (createOrUpdateVote_fallback vote now db U Hg Hins)
    as (l1 & v & l2 & E & Cv & N1 & N2 & Run).
  assert (Hin : In v (user_votes db))
    by (rewrite E; apply in_or_app; right; left; reflexivity).
  pose proof (R v Hin) as Rv. unfold vote_row_ok in Rv.
  apply andb_true_iff in Rv as [Rv Rf]. apply andb_true_iff in Rv as [_ Tv].
  destruct (collides_same_target _ _ _ v Ct Tv Cv) as (Eu & Eg & Ec).
  assert (Er : revote (iv_voteType vote) now v
               = mkUserVote (v_id v) (iv_userId vote) (iv_grievanceId vote)
                   (iv_commentId vote) (iv_voteType vote) now)
    by (unfold revote; now rewrite Eu, Eg, Ec).
  exists l1, v, l2, (revote (iv_voteType vote) now v),
    (set_user_votes db (l1 ++ revote (iv_voteType vote) now v :: l2)).
  split; [exact E|]. split; [exact Eu|]. split; [exact Eg|]. split; [exact Ec|].
  split; [exact Run|]. split; [exact Er|]. split; [reflexivity|].
  split; [reflexivity|].
  split; [simpl; rewrite E, !length_app; reflexivity|].
  split.
  { simpl. intros w Hw Wu Wg Wc.
    pose proof (same_target_collides _ _ _ w Ct Wu Wg Wc) as Cw.
    apply in_app_or in Hw as [Hw|[Hw|Hw]].
    - assert (X : existsb (Pg.collides (iv_userId vote) (iv_grievanceId vote)
                             (iv_commentId vote)) l1 = true)
        by (apply existsb_exists; exists w; auto).
      congruence.
    - now symmetry.
    - assert (X : existsb (Pg.collides (iv_userId vote) (iv_grievanceId vote)
                             (iv_commentId vote)) l2 = true)
        by (apply existsb_exists; exists w; auto).
      congruence. }
  split; [reflexivity|]. split; [reflexivity|]. split; [reflexivity|].
  apply constraints_split. simpl. split.
  - rewrite E in U. now apply votes_unique_revote.
  - intros w Hw.
    rewrite (vote_row_ok_tables db) by reflexivity.
    apply in_app_or in Hw as [Hw|[<-|Hw]].
    + apply R. rewrite E. apply in_or_app. now left.
    + unfold vote_row_ok. simpl. rewrite Ck, Tv. exact Rf.
    + apply R. rewrite E. apply in_or_app. right. now right.
Qed.

(** ** The toggle of the two vote handlers *)

(** For a non-empty id, the WHERE clause of [getUserVote] and
    [removeVote] selects the rows a new vote would collide with. *)
Lemma vote_conditions_grievance U id v :
  id <> "" ->
  vote_conditions U (Some id) None v = Pg.collides U (Some id) None v.
Proof.
  intros H. apply truthy_iff in H.
  unfold vote_conditions, Pg.collides. simpl. rewrite H, andb_true_r.
  destruct (v_commentId v); simpl; now rewrite orb_false_r.
Qed.

Lemma vote_conditions_comment U id v :
  id <> "" ->
  vote_conditions U None (Some id) v = Pg.collides U None (Some id) v.
Proof.
  intros H. apply truthy_iff in H.
  unfold vote_conditions, Pg.collides. simpl. rewrite H, andb_true_r.
  destruct (v_grievanceId v); reflexivity.
Qed.

Lemma hd_filter_decomp {A} (c : A -> bool) l1 (v : A) l2 :
  existsb c l1 = false -> c v = true ->
  hd_error (filter c (l1 ++ v :: l2)) = Some v.
Proof.
  intros H1 Cv. apply filter_nil_iff in H1.
  rewrite filter_app, H1. simpl. now rewrite Cv.
Qed.

Lemma filter_remove_one {A} (c : A -> bool) l1 (v : A) l2 :
  existsb c l1 = false -> c v = true -> existsb c l2 = false ->
  filter (fun x => negb (c x)) (l1 ++ v :: l2) = l1 ++ l2.
Proof.
  intros H1 Cv H2. rewrite filter_app. simpl. rewrite Cv. simpl.
  now rewrite !filter_none_id.
Qed.

(** The vote methods write [user_votes] (and its sequence) only. *)
Lemma createOrUpdateVote_frame vote now db r db' :
  createOrUpdateVote vote now db = Pg.Ok (r, db') ->
  users db' = users db /\ grievances db' = grievances db
  /\ comments db' = comments db.
Proof.
  unfold createOrUpdateVote, Pg.insert_user_vote, Pg.update_vote_type.
  repeat match goal with
         | |- context [if ?b then _ else _] => destruct b; simpl
         end;
    intros H; inversion H; subst; simpl; auto.
Qed.

Lemma toggle_frame U gid cid k now db db' :
  toggle U gid cid k now db = Pg.Ok db' ->
  users db' = users db /\ grievances db' = grievances db
  /\ comments db' = comments db.
Proof.
  unfold toggle. destruct (same_vote _ k).
  - intros H. inversion H. simpl. auto.
  - destruct (createOrUpdateVote _ now db) as [[r d]|e] eqn:E; simpl;
      intros H; inversion H; subst.
    eapply createOrUpdateVote_frame; eauto.
Qed.

(** The two outcomes of the insert that the toggle meets. *)
Lemma insert_ok vote now db :
  Pg.vote_type_check (iv_voteType vote) = true ->
  Pg.vote_target_check (iv_grievanceId vote) (iv_commentId vote) = true ->
  existsb (Pg.collides (iv_userId vote) (iv_grievanceId vote) (iv_commentId vote))
          (user_votes db) = false ->
  Pg.references_ok db (iv_userId vote) (iv_grievanceId vote) (iv_commentId vote) = true ->
  Pg.insert_user_vote vote now db
  = Pg.Ok (mkUserVote (vote_seq db) (iv_userId vote) (iv_grievanceId vote)
                      (iv_commentId vote) (iv_voteType vote) now,
           mkDB (users db) (grievances db) (comments db)
                (user_votes db
                 ++ [mkUserVote (vote_seq db) (iv_userId vote) (iv_grievanceId vote)
                                (iv_commentId vote) (iv_voteType vote) now])
                (S (vote_seq db))).
Proof.
  intros C T E R. unfold Pg.insert_user_vote. now rewrite C, T, E, R.
Qed.

Lemma insert_collision vote now db :
  Pg.vote_type_check (iv_voteType vote) = true ->
  Pg.vote_target_check (iv_grievanceId vote) (iv_commentId vote) = true ->
  existsb (Pg.collides (iv_userId vote) (iv_grievanceId vote) (iv_commentId vote))
          (user_votes db) = true ->
  Pg.insert_user_vote vote now db = Pg.Throw Pg.unique_violation.
Proof.
  intros C T E. unfold Pg.insert_user_vote. now rewrite C, T, E.
Qed.

(** ** [updateVoteCounts] and [getGrievance] *)

Lemma updateVoteCounts_votes gid cid db :
  user_votes (updateVoteCounts gid cid db) = user_votes db
  /\ users (updateVoteCounts gid cid db) = users db
  /\ vote_seq (updateVoteCounts gid cid db) = vote_seq db.
Proof.
  unfold updateVoteCounts.
  destruct (JS.truthy_opt gid), (JS.truthy_opt cid); simpl; auto.
Qed.

Lemma updateVoteCounts_grievance id db :
  id <> "" ->
  updateVoteCounts (Some id) None db
  = set_grievances db
      (map (fun g => if String.eqb (g_id g) id
                     then set_counts (count_grievance_votes (Some id) "up" db)
                                     (count_grievance_votes (Some id) "down" db) g
                     else g)
           (grievances db)).
Proof.
  intros H. apply truthy_iff in H. unfold updateVoteCounts. simpl. now rewrite H.
Qed.

Lemma updateVoteCounts_comment id db :
  id <> "" ->
  updateVoteCounts None (Some id) db
  = set_comments db
      (map (fun c => if String.eqb (c_id c) id
                     then set_comment_upvotes (count_comment_votes (Some id) "up" db) c
                     else c)
           (comments db)).
Proof.
  intros H. apply truthy_iff in H. unfold updateVoteCounts. simpl. now rewrite H.
Qed.

Lemma count_grievance_votes_ext gid k db db' :
  user_votes db' = user_votes db ->
  count_grievance_votes gid k db' = count_grievance_votes gid k db.
Proof. unfold count_grievance_votes. now intros ->. Qed.

Lemma count_comment_votes_ext cid k db db' :
  user_votes db' = user_votes db ->
  count_comment_votes cid k db' = count_comment_votes cid k db.
Proof. unfold count_comment_votes. now intros ->. Qed.

(** A rewrite of grievance rows that keeps [id] and [author_id] commutes
    with the joined lookup. *)

Lemma left_join_map us upd g :
  g_authorId (upd g) = g_authorId g ->
  left_join_users us (upd g) = map (on_row upd) (left_join_users us g).
Proof.
  intros H. unfold left_join_users. rewrite H.
  destruct (filter _ us) as [|u m]; simpl; auto.
  f_equal. rewrite map_map. reflexivity.
Qed.

Lemma joined_map us upd gs :
  (forall g, g_authorId (upd g) = g_authorId g) ->
  flat_map (left_join_users us) (map upd gs)
  = map (on_row upd) (flat_map (left_join_users us) gs).
Proof.
  intros H. induction gs as [|g gs IH]; simpl; auto.
  now rewrite map_app, IH, left_join_map.
Qed.

Lemma filter_map_comm {A B} (f : A -> B) (c : B -> bool) (l : list A) :
  filter c (map f l) = map f (filter (fun x => c (f x)) l).
Proof.
  induction l as [|a l IH]; simpl; auto.
  destruct (c (f a)); simpl; now rewrite IH.
Qed.

Lemma hd_error_map {A B} (f : A -> B) (l : list A) :
  hd_error (map f l) = option_map f (hd_error l).
Proof. destruct l; reflexivity. Qed.

Lemma getGrievance_map upd id db :
  (forall g, g_authorId (upd g) = g_authorId g) ->
  (forall g, g_id (upd g) = g_id g) ->
  getGrievance id (set_grievances db (map upd (grievances db)))
  = option_map (on_row upd) (getGrievance id db).
Proof.
  intros Ha Hi. unfold getGrievance. simpl.
  rewrite joined_map by exact Ha. rewrite filter_map_comm, hd_error_map.
  do 2 f_equal. apply filter_ext. intros r. simpl. now rewrite Hi.
Qed.

Lemma in_left_join us g r :
  In r (left_join_users us g) -> row_g r = g.
Proof.
  unfold left_join_users. destruct (filter _ us) as [|u m].
  - intros [<-|[]]. reflexivity.
  - intros H. apply in_map_iff in H as (x & <- & _). reflexivity.
Qed.

Lemma left_join_nonempty us g : left_join_users us g <> [].
Proof. unfold left_join_users. destruct (filter _ us); discriminate. Qed.

Lemma getGrievance_some id db r :
  getGrievance id db = Some r ->
  g_id (row_g r) = id /\ In (row_g r) (grievances db).
Proof.
  unfold getGrievance. intros H.
  destruct (hd_filter_split _ _ _ H) as (l1 & l2 & E & _ & C).
  apply String.eqb_eq in C. split; auto.
  assert (In r (flat_map (left_join_users (users db)) (grievances db)))
    by (rewrite E; apply in_or_app; right; now left).
  apply in_flat_map in H0 as (g & Hg & Hr).
  apply in_left_join in Hr. now subst.
Qed.

Lemma getGrievance_tables id db db' :
  users db' = users db -> grievances db' = grievances db ->
  getGrievance id db' = getGrievance id db.
Proof. unfold getGrievance. now intros -> ->. Qed.

Lemma valid_voteType_kind k :
  k = "up" \/ k = "down" ->
  valid_voteType (Some k) = Some k /\ Pg.vote_type_check k = true
  /\ JS.or_null (Some k) = Some k.
Proof. intros [->| ->]; repeat split; reflexivity. Qed.

Lemma getGrievance_exists id db r :
  getGrievance id db = Some r ->
  existsb (fun x => String.eqb (g_id x) id) (grievances db) = true.
Proof.
  intros H. apply getGrievance_some in H as [Hi Hin].
  apply existsb_exists. exists (row_g r). split; auto.
  rewrite Hi. apply String.eqb_refl.
Qed.

(** The answer of the grievance vote handler once the toggle has run. *)
Lemma post_grievance_vote_after now sess U id k db r db1 :
  requireAuth sess = inr U -> id <> "" ->
  valid_voteType (Some k) = Some k ->
  getGrievance id db = Some r ->
  toggle U (Some id) None k now db = Pg.Ok db1 ->
  post_grievance_vote now sess id (Some k) db
  = (mkResponse 200
       (VoteBody (count_grievance_votes (Some id) "up" db1)
                 (count_grievance_votes (Some id) "down" db1)
                 (JS.or_null (option_map v_voteType
                                (getUserVote U (Some id) None db1)))),
     updateVoteCounts (Some id) None db1).
Proof.
  intros Ha Hid Hk Hg Ht. unfold post_grievance_vote.
  rewrite Ha, Hk, Hg, Ht.
  destruct (toggle_frame _ _ _ _ _ _ _ Ht) as (Eu & Eg & Ec).
  assert (G1 : getGrievance id db1 = Some r)
    by (rewrite (getGrievance_tables id db db1); auto).
  rewrite (updateVoteCounts_grievance id db1 Hid).
  rewrite getGrievance_map by (intros g; destruct (String.eqb (g_id g) id); reflexivity).
  rewrite G1. simpl.
  destruct (getGrievance_some _ _ _ G1) as [Hi _].
  rewrite Hi, String.eqb_refl. simpl.
  unfold getUserVote. simpl. reflexivity.
Qed.

(** After the recount, the counters of the target agree with the rows. *)
Lemma updateVoteCounts_establishes id db g :
  id <> "" ->
  In g (grievances (updateVoteCounts (Some id) None db)) -> g_id g = id ->
  grievance_counters_ok (updateVoteCounts (Some id) None db) g.
Proof.
  intros Hid Hin Hg. unfold grievance_counters_ok.
  rewrite (count_grievance_votes_ext _ "up" db),
    (count_grievance_votes_ext _ "down" db) by apply updateVoteCounts_votes.
  rewrite updateVoteCounts_grievance in Hin by exact Hid. simpl in Hin.
  apply in_map_iff in Hin as (g0 & E & _).
  destruct (String.eqb (g_id g0) id) eqn:E0.
  - subst g. simpl. apply String.eqb_eq in E0. rewrite E0. auto.
  - subst g. apply String.eqb_neq in E0. contradiction.
Qed.

(** ** The counts of the recount are the numbers of vote rows *)

Lemma count_grievance_votes_rows id k db :
  count_grievance_votes (Some id) k db
  = vote_rows (targets_grievance id) k (user_votes db).
Proof.
  unfold count_grievance_votes, vote_rows. do 2 f_equal.
Qed.

Lemma count_comment_votes_rows id k db :
  count_comment_votes (Some id) k db
  = vote_rows (targets_comment id) k (user_votes db).
Proof.
  unfold count_comment_votes, vote_rows. do 2 f_equal.
Qed.

Lemma counter_invariant_iff db : counter_invariant db <-> all_counters_ok db.
Proof.
  unfold counter_invariant, all_counters_ok, grievance_counters_ok,
    comment_counters_ok.
  split; intros [Hg Hc]; split.
  - intros g Hin. rewrite !count_grievance_votes_rows. now apply Hg.
  - intros c Hin. rewrite count_comment_votes_rows. now apply Hc.
  - intros g Hin. rewrite <- !count_grievance_votes_rows. now apply Hg.
  - intros c Hin. rewrite <- count_comment_votes_rows. now apply Hc.
Qed.

(** The vote of a user on a grievance, as [getUserVote] finds it. *)
Lemma getUserVote_grievance U id db :
  id <> "" ->
  match getUserVote U (Some id) None db with
  | Some v => In v (user_votes db) /\ v_userId v = U /\ v_grievanceId v = Some id
  | None => forall w, In w (user_votes db) -> v_userId w = U ->
                      v_grievanceId w <> Some id
  end.
Proof.
  intros Hid. unfold getUserVote.
  destruct (hd_error (filter _ (user_votes db))) as [v|] eqn:E.
  - destruct (hd_filter_split _ _ _ E) as (l1 & l2 & E' & _ & Cv).
    rewrite vote_conditions_grievance in Cv by exact Hid.
    unfold Pg.collides in Cv. apply andb_true_iff in Cv as [Cu Cg].
    apply String.eqb_eq in Cu.
    apply orb_true_iff in Cg as [Cg|Cg];
      [|destruct (v_commentId v); discriminate].
    apply eq_null_Some in Cg.
    split; [rewrite E'; apply in_or_app; right; now left|]. split; auto.
  - apply hd_filter_none in E. intros w Hw Wu Wg.
    assert (X : existsb (vote_conditions U (Some id) None) (user_votes db) = true).
    { apply existsb_exists. exists w. split; [exact Hw|].
      rewrite vote_conditions_grievance by exact Hid.
      unfold Pg.collides. rewrite Wu, Wg, String.eqb_refl. simpl.
      now rewrite String.eqb_refl. }
    congruence.
Qed.

(** The three cases of the toggle, on the handler. *)
Lemma post_grievance_vote_toggle :
  forall now sess U id k db r,
    constraints_hold db = true ->
    requireAuth sess = inr U ->
    existsb (fun u => String.eqb (u_id u) U) (users db) = true ->
    id <> "" ->
    k = "up" \/ k = "down" ->
    getGrievance id db = Some r ->
    exists db' userVote,
      post_grievance_vote now sess id (Some k) db
      = (mkResponse 200
           (VoteBody (count_grievance_votes (Some id) "up" db')
                     (count_grievance_votes (Some id) "down" db')
                     userVote),
         db')
      /\ userVote = JS.or_null (option_map v_voteType (getUserVote U (Some id) None db'))
      /\ (forall g, In g (grievances db') -> g_id g = id ->
            grievance_counters_ok db' g)
      /\ match getUserVote U (Some id) None db with
         | None =>
             user_votes db'
             = user_votes db ++ [mkUserVote (vote_seq db) U (Some id) None k now]
             /\ userVote = Some k
         | Some v =>
             exists l1 l2,
               user_votes db = l1 ++ v :: l2
               /\ if String.eqb (v_voteType v) k
                  then user_votes db' = l1 ++ l2 /\ userVote = None
                  else user_votes db' = l1 ++ revote k now v :: l2
                       /\ userVote = Some k
         end.
Proof.
  intros now sess U id k db r Hc Ha Hu Hid Hk Hg.
  destruct (valid_voteType_kind k Hk) as (Vk & Ck & Ok).
  apply constraints_split in Hc as [Un _].
  set (c := Pg.collides U (Some id) None).
  assert (Fc : forall x, vote_conditions U (Some id) None x = c x)
    by (intros x; now apply vote_conditions_grievance).
  assert (Gu : forall d, getUserVote U (Some id) None d
                         = hd_error (filter c (user_votes d)))
    by (intros d; unfold getUserVote; now rewrite (filter_ext _ _ Fc)).
  (* what the toggle does, by the stored vote *)
  assert (T : exists db1,
    toggle U (Some id) None k now db = Pg.Ok db1
    /\ match getUserVote U (Some id) None db with
       | None =>
           user_votes db1
           = user_votes db ++ [mkUserVote (vote_seq db) U (Some id) None k now]
           /\ getUserVote U (Some id) None db1
              = Some (mkUserVote (vote_seq db) U (Some id) None k now)
       | Some v =>
           exists l1 l2,
             user_votes db = l1 ++ v :: l2
             /\ if String.eqb (v_voteType v) k
                then user_votes db1 = l1 ++ l2
                     /\ getUserVote U (Some id) None db1 = None
                else user_votes db1 = l1 ++ revote k now v :: l2
                     /\ getUserVote U (Some id) None db1 = Some (revote k now v)
       end).
  { unfold toggle. destruct (getUserVote U (Some id) None db) as [v|] eqn:Ev.
    - rewrite Gu in Ev.
      destruct (unique_match c _ v Un) as (l1 & l2 & E & Cv & H1 & H2); auto.
      { intros a b. now apply colliding_rows_collide. }
      simpl. destruct (String.eqb (v_voteType v) k) eqn:Ek.
      + eexists. split; [reflexivity|]. exists l1, l2. split; auto.
        unfold removeVote. simpl.
        rewrite (filter_ext _ _ (fun x => f_equal negb (Fc x))).
        rewrite E, filter_remove_one by auto. split; auto.
        rewrite Gu. simpl. apply hd_filter_none.
        rewrite existsb_app, H1, H2. reflexivity.
      + assert (Hins : Pg.insert_user_vote (mkInsertUserVote U (Some id) None k) now db
                       = Pg.Throw Pg.unique_violation).
        { apply insert_collision; auto. simpl. fold c.
          rewrite E, existsb_app. simpl. rewrite Cv. apply orb_true_r. }
        assert (Hne : iv_grievanceId (mkInsertUserVote U (Some id) None k) <> Some "")
          by (simpl; congruence).
        destruct (createOrUpdateVote_fallback _ now db Un Hne Hins)
          as (m1 & w & m2 & E' & Cw & M1 & M2 & Run).
        simpl in Cw, M1, M2, Run. fold c in Cw, M1, M2.
        assert (w = v).
        { pose proof (hd_filter_decomp c m1 w m2 M1 Cw) as D.
          rewrite <- E', Ev in D. congruence. }
        subst w. rewrite Run. simpl. eexists. split; [reflexivity|].
        exists m1, m2. split; auto. simpl. split; auto.
        rewrite Gu. simpl. apply hd_filter_decomp; auto.
    - simpl. rewrite Gu in Ev. apply hd_filter_none in Ev.
      unfold createOrUpdateVote.
      rewrite insert_ok; simpl; auto.
      2:{ unfold Pg.references_ok. simpl.
          rewrite Hu, (getGrievance_exists _ _ _ Hg). reflexivity. }
      eexists. split; [reflexivity|]. simpl. split; auto.
      rewrite Gu. simpl. apply filter_nil_iff in Ev.
      rewrite filter_app, Ev. simpl.
      unfold c, Pg.collides. simpl. now rewrite !String.eqb_refl. }
  destruct T as (db1 & Ht & Hcase).
  exists (updateVoteCounts (Some id) None db1),
    (JS.or_null (option_map v_voteType (getUserVote U (Some id) None db1))).
  destruct (updateVoteCounts_votes (Some id) None db1) as (Ev & _ & _).
  rewrite (count_grievance_votes_ext _ "up" db1),
    (count_grievance_votes_ext _ "down" db1) by exact Ev.
  split; [now apply (post_grievance_vote_after now sess U id k db r db1)|].
  split; [unfold getUserVote; now rewrite Ev|].
  split; [intros g; now apply updateVoteCounts_establishes|].
  rewrite Ev.
  destruct (getUserVote U (Some id) None db) as [v|].
  - destruct Hcase as (l1 & l2 & E & Hc). exists l1, l2. split; auto.
    destruct (String.eqb (v_voteType v) k).
    + destruct Hc as [-> ->]. auto.
    + destruct Hc as [-> ->]. auto.
  - destruct Hcase as [-> ->]. auto.
Qed.

(** C1. Toggle protocol of [POST /api/grievances/:id/vote]: for an
    authenticated user [U], a stored grievance [id] and a kind [k] in
    up/down: when no stored vote row has user [U] and grievance [id], a
    row of kind [k] is appended; when the stored row of [U] for [id] has
    kind [k], that row is removed and [U] has no vote left; when it has
    the other kind, that same row (same id, user and target) gets kind
    [k] in place and no row is added.  The counters are then recomputed:
    the answer is 200 with the number of vote rows on the grievance of
    kind up, the number of kind down, both also stored on the grievance,
    and the resulting vote of [U].  On the pothole nobody has voted on:
    alice's up is answered 1/0 and up, her down after it 0/1 and down,
    with one vote row stored. *)
Theorem grievance_vote_toggle :
  forall now sess U id k db r,
    constraints_hold db = true ->
    requireAuth sess = inr U ->
    existsb (fun u => String.eqb (u_id u) U) (users db) = true ->
    id <> "" ->
    k = "up" \/ k = "down" ->
    getGrievance id db = Some r ->
    (exists db' ups downs userVote,
      post_grievance_vote now sess id (Some k) db
      = (mkResponse 200 (VoteBody ups downs userVote), db')
      /\ ups = vote_rows (targets_grievance id) "up" (user_votes db')
      /\ downs = vote_rows (targets_grievance id) "down" (user_votes db')
      /\ (forall g, In g (grievances db') -> g_id g = id ->
            g_upvotes g = ups /\ g_downvotes g = downs)
      /\ userVote = JS.or_null (option_map v_voteType (getUserVote U (Some id) None db'))
      /\ match getUserVote U (Some id) None db with
         | None =>
             (forall w, In w (user_votes db) -> v_userId w = U ->
                        v_grievanceId w <> Some id)
             /\ user_votes db'
                = user_votes db ++ [mkUserVote (vote_seq db) U (Some id) None k now]
             /\ userVote = Some k
         | Some v =>
             v_userId v = U /\ v_grievanceId v = Some id
             /\ exists l1 l2,
               user_votes db = l1 ++ v :: l2
               /\ if String.eqb (v_voteType v) k
                  then user_votes db' = l1 ++ l2 /\ userVote = None
                  else user_votes db'
                       = l1 ++ mkUserVote (v_id v) (v_userId v) (v_grievanceId v)
                                 (v_commentId v) k now :: l2
                       /\ userVote = Some k
         end)
    /\ (exists db1 db2 row,
          post_grievance_vote 3000 Example.as_alice "g-1" (Some "up") Example.db_fresh
          = (mkResponse 200 (VoteBody 1 0 (Some "up")), db1)
          /\ post_grievance_vote 4000 Example.as_alice "g-1" (Some "down") db1
             = (mkResponse 200 (VoteBody 0 1 (Some "down")), db2)
          /\ user_votes db2 = [row]
          /\ v_userId row = "u-alice" /\ v_grievanceId row = Some "g-1"
          /\ v_voteType row = "down").
Proof.
  intros now sess U id k db r Hc Ha Hu Hid Hk Hg.
  split.
  - destruct (post_grievance_vote_toggle now sess U id k db r Hc Ha Hu Hid Hk Hg)
      as (db' & userVote & Run & Euv & Cnt & Cases).
    exists db', (count_grievance_votes (Some id) "up" db'),
      (count_grievance_votes (Some id) "down" db'), userVote.
    split; [exact Run|].
    split; [apply count_grievance_votes_rows|].
    split; [apply count_grievance_votes_rows|].
    split.
    { intros g Hin Eg. destruct (Cnt g Hin Eg) as [K1 K2].
      rewrite Eg in K1, K2. auto. }
    split; [exact Euv|].
    pose proof (getUserVote_grievance U id db Hid) as Spec.
    destruct (getUserVote U (Some id) None db) as [v|].
    + destruct Spec as (_ & Su & Sg). split; [exact Su|]. split; [exact Sg|].
      exact Cases.
    + split; [exact Spec|exact Cases].
  - eexists. eexists. eexists.
    split; [vm_compute; reflexivity|].
    split; [vm_compute; reflexivity|].
    repeat split; reflexivity.
Qed.

(** ** What a vote request can do to the database *)

Lemma post_grievance_vote_cases now sess id vt db resp db' :
  post_grievance_vote now sess id vt db = (resp, db') ->
  (status resp <> 200%nat /\ db' = db)
  \/ (status resp = 200%nat
      /\ exists U k db1,
           requireAuth sess = inr U /\ valid_voteType vt = Some k
           /\ toggle U (Some id) None k now db = Pg.Ok db1
           /\ db' = updateVoteCounts (Some id) None db1).
Proof.
  unfold post_grievance_vote.
  destruct (requireAuth sess) as [r|U] eqn:Ha.
  { unfold requireAuth in Ha.
    destruct (s_userId sess) as [u|]; [destruct (JS.truthy u)|];
      inversion Ha; intros H; inversion H; subst; left; simpl; split; auto;
      discriminate. }
  destruct (valid_voteType vt) as [k|];
    [|intros H; inversion H; left; simpl; split; auto; discriminate].
  destruct (getGrievance id db);
    [|intros H; inversion H; left; simpl; split; auto; discriminate].
  destruct (toggle U (Some id) None k now db) as [db1|e] eqn:Ht;
    intros H; inversion H; subst; simpl.
  - right. split; auto. exists U, k, db1. auto.
  - left. split; auto. discriminate.
Qed.

Lemma post_comment_vote_cases now sess id vt db resp db' :
  post_comment_vote now sess id vt db = (resp, db') ->
  (status resp <> 200%nat /\ db' = db)
  \/ (status resp = 200%nat
      /\ exists U k db1,
           requireAuth sess = inr U /\ valid_voteType vt = Some k
           /\ toggle U None (Some id) k now db = Pg.Ok db1
           /\ db' = updateVoteCounts None (Some id) db1).
Proof.
  unfold post_comment_vote.
  destruct (requireAuth sess) as [r|U] eqn:Ha.
  { unfold requireAuth in Ha.
    destruct (s_userId sess) as [u|]; [destruct (JS.truthy u)|];
      inversion Ha; intros H; inversion H; subst; left; simpl; split; auto;
      discriminate. }
  destruct (valid_voteType vt) as [k|];
    [|intros H; inversion H; left; simpl; split; auto; discriminate].
  destruct (toggle U None (Some id) k now db) as [db1|e] eqn:Ht;
    intros H; inversion H; subst; simpl.
  - right. split; auto. exists U, k, db1. auto.
  - left. split; auto. discriminate.
Qed.

(** ** The toggle touches only the rows of its user and target *)

Lemma filter_filter_sub {A} (q c : A -> bool) (l : list A) :
  (forall x, In x l -> q x = true -> c x = true) ->
  filter q (filter c l) = filter q l.
Proof.
  induction l as [|a l IH]; simpl; intros H; auto.
  destruct (c a) eqn:Ca; simpl.
  - destruct (q a); rewrite IH; auto.
  - destruct (q a) eqn:Qa.
    + rewrite H in Ca; auto. discriminate.
    + apply IH. auto.
Qed.

Lemma filter_untouched_map {A} (c : A -> bool) (f : A -> A) (l : list A) :
  (forall x, c (f x) = c x) ->
  filter (fun x => negb (c x)) (map (fun x => if c x then f x else x) l)
  = filter (fun x => negb (c x)) l.
Proof.
  intros H. induction l as [|a l IH]; simpl; auto.
  destruct (c a) eqn:Ca; simpl.
  - rewrite H, Ca. simpl. exact IH.
  - rewrite Ca. simpl. now rewrite IH.
Qed.


Lemma target_shape_facts U gid cid :
  target_shape gid cid ->
  Pg.vote_target_check gid cid = true
  /\ gid <> Some ""
  /\ (forall v, vote_conditions U gid cid v = Pg.collides U gid cid v).
Proof.
  intros (id & Hid & [[-> ->]|[-> ->]]); repeat split; try congruence; intros v.
  - now apply vote_conditions_grievance.
  - now apply vote_conditions_comment.
Qed.

Lemma votes_unique_filter (c : UserVote -> bool) vs :
  votes_unique vs = true -> votes_unique (filter c vs) = true.
Proof.
  induction vs as [|v vs IH]; simpl; auto. intros H.
  apply andb_true_iff in H as [Hv Hu]. apply negb_true_iff in Hv.
  destruct (c v); simpl; auto.
  rewrite IH by auto. rewrite andb_true_r. apply negb_true_iff.
  destruct (existsb _ (filter c vs)) eqn:E; auto.
  apply existsb_exists in E as (w & Hw & Cw). apply filter_In in Hw as [Hw _].
  assert (existsb (Pg.collides (v_userId v) (v_grievanceId v) (v_commentId v)) vs = true)
    by (apply existsb_exists; eauto).
  congruence.
Qed.

Lemma existsb_collides_map (f : UserVote -> UserVote) uid gid cid vs :
  (forall v, v_userId (f v) = v_userId v /\ v_grievanceId (f v) = v_grievanceId v
             /\ v_commentId (f v) = v_commentId v) ->
  existsb (Pg.collides uid gid cid) (map f vs)
  = existsb (Pg.collides uid gid cid) vs.
Proof.
  intros H. induction vs as [|w vs IH]; simpl; auto.
  rewrite IH. f_equal. unfold Pg.collides.
  now destruct (H w) as (-> & -> & ->).
Qed.

Lemma votes_unique_map (f : UserVote -> UserVote) vs :
  (forall v, v_userId (f v) = v_userId v /\ v_grievanceId (f v) = v_grievanceId v
             /\ v_commentId (f v) = v_commentId v) ->
  votes_unique (map f vs) = votes_unique vs.
Proof.
  intros H. induction vs as [|v vs IH]; simpl; auto.
  rewrite IH, existsb_collides_map by exact H.
  now destruct (H v) as (-> & -> & ->).
Qed.

Lemma insert_ok_inv vote now db row db' :
  Pg.insert_user_vote vote now db = Pg.Ok (row, db') ->
  Pg.vote_type_check (iv_voteType vote) = true
  /\ Pg.vote_target_check (iv_grievanceId vote) (iv_commentId vote) = true
  /\ existsb (Pg.collides (iv_userId vote) (iv_grievanceId vote) (iv_commentId vote))
             (user_votes db) = false
  /\ Pg.references_ok db (iv_userId vote) (iv_grievanceId vote) (iv_commentId vote) = true
  /\ row = mkUserVote (vote_seq db) (iv_userId vote) (iv_grievanceId vote)
                      (iv_commentId vote) (iv_voteType vote) now
  /\ db' = mkDB (users db) (grievances db) (comments db)
                (user_votes db ++ [row]) (S (vote_seq db)).
Proof.
  unfold Pg.insert_user_vote.
  destruct (Pg.vote_type_check _ && Pg.vote_target_check _ _) eqn:C; simpl;
    [|discriminate].
  apply andb_true_iff in C as [C1 C2].
  destruct (existsb _ (user_votes db)) eqn:E; [discriminate|].
  destruct (Pg.references_ok _ _ _ _) eqn:R; simpl; [|discriminate].
  intros H. inversion H. subst. repeat split; auto.
Qed.

Lemma collides_self U gid cid k now n :
  target_shape gid cid ->
  Pg.collides U gid cid (mkUserVote n U gid cid k now) = true.
Proof.
  intros (id & _ & [[-> ->]|[-> ->]]); unfold Pg.collides; simpl;
    now rewrite !String.eqb_refl.
Qed.

(** A successful toggle leaves every row of another user or target as
    it was, in place, and keeps the constraints of the table. *)
Lemma toggle_effect U gid cid k now db db1 :
  target_shape gid cid ->
  toggle U gid cid k now db = Pg.Ok db1 ->
  filter (fun v => negb (Pg.collides U gid cid v)) (user_votes db1)
  = filter (fun v => negb (Pg.collides U gid cid v)) (user_votes db)
  /\ (constraints_hold db = true -> constraints_hold db1 = true).
Proof.
  intros Sh Ht.
  destruct (target_shape_facts U gid cid Sh) as (Tc & Hg & Fc).
  set (c := Pg.collides U gid cid) in *.
  unfold toggle in Ht. destruct (same_vote _ k).
  - (* the stored vote is removed *)
    inversion Ht; subst; clear Ht. unfold removeVote. simpl.
    rewrite (filter_ext _ _ (fun x => f_equal negb (Fc x))). split.
    + apply filter_filter_sub. auto.
    + rewrite !constraints_split. simpl. intros [Un R]. split.
      * now apply votes_unique_filter.
      * intros v Hv. apply filter_In in Hv as [Hv _].
        rewrite (vote_row_ok_tables db) by reflexivity. auto.
  - destruct (createOrUpdateVote _ now db) as [[r d]|e] eqn:E; simpl in Ht;
      inversion Ht; subst; clear Ht.
    unfold createOrUpdateVote in E.
    destruct (Pg.insert_user_vote _ now db) as [[row d']|e] eqn:Ei.
    + (* a row is appended *)
      inversion E; subst; clear E.
      apply insert_ok_inv in Ei as (Ck & _ & Ex & Rf & -> & ->).
      simpl in *. fold c in Ex. split.
      * rewrite filter_app. simpl. unfold c at 2.
        rewrite collides_self by exact Sh. simpl. apply app_nil_r.
      * rewrite !constraints_split. simpl. intros [Un R]. split.
        -- apply votes_unique_intro; auto.
           intros v w Hv [<-|[]]. rewrite collides_sym. simpl.
           destruct (Pg.collides U gid cid v) eqn:Cv; auto.
           assert (existsb c (user_votes db) = true)
             by (apply existsb_exists; eauto).
           congruence.
        -- intros v Hv. apply in_app_or in Hv as [Hv|[<-|[]]].
           ++ rewrite (vote_row_ok_tables db) by reflexivity. auto.
           ++ unfold vote_row_ok. simpl. rewrite Ck, Tc. exact Rf.
    + (* the stored row gets the new kind *)
      destruct (JS.same (Pg.code e) "23505"); [|discriminate].
      unfold Pg.update_vote_type in E. simpl in E.
      assert (F : forall x, fallback_conditions (mkInsertUserVote U gid cid k) x = c x)
        by (intros x; now apply fallback_is_collides).
      destruct (existsb _ (user_votes db) && negb (Pg.vote_type_check k)) eqn:Ck;
        simpl in E; [discriminate|].
      inversion E; subst; clear E. simpl.
      rewrite (map_ext (fun x => if fallback_conditions (mkInsertUserVote U gid cid k) x
                                 then revote k now x else x)
                       (fun x => if c x then revote k now x else x))
        by (intros x; now rewrite F).
      split.
      * apply filter_untouched_map. reflexivity.
      * rewrite !constraints_split. simpl. intros [Un R]. split.
        -- rewrite votes_unique_map; auto.
           intros v. destruct (c v); auto.
        -- intros w Hw. apply in_map_iff in Hw as (v & <- & Hv).
           rewrite (vote_row_ok_tables db) by reflexivity.
           destruct (c v) eqn:Cv; auto.
           assert (Ev : existsb (fallback_conditions (mkInsertUserVote U gid cid k))
                                (user_votes db) = true).
           { apply existsb_exists. exists v. split; auto. now rewrite F. }
           rewrite Ev in Ck. simpl in Ck. apply negb_false_iff in Ck.
           pose proof (R v Hv) as Rv. unfold vote_row_ok in *. simpl.
           rewrite Ck. simpl.
           apply andb_true_iff in Rv as [Rv ->]. apply andb_true_iff in Rv as [_ ->].
           reflexivity.
Qed.

Lemma filter_agree {A} (q c : A -> bool) (l l1 : list A) :
  (forall x, In x l -> q x = true -> c x = false) ->
  (forall x, In x l1 -> q x = true -> c x = false) ->
  filter (fun x => negb (c x)) l1 = filter (fun x => negb (c x)) l ->
  filter q l1 = filter q l.
Proof.
  intros H H1 E.
  rewrite <- (filter_filter_sub q (fun x => negb (c x)) l1),
          <- (filter_filter_sub q (fun x => negb (c x)) l).
  - now rewrite E.
  - intros x Hx Qx. now rewrite (H x).
  - intros x Hx Qx. now rewrite (H1 x).
Qed.

(** A selection that never picks a row of the toggled user and target
    reads the same rows before and after the toggle. *)
Lemma toggle_selection U gid cid k now db db1 (q : UserVote -> bool) :
  target_shape gid cid ->
  toggle U gid cid k now db = Pg.Ok db1 ->
  constraints_hold db = true ->
  (forall x, Pg.vote_target_check (v_grievanceId x) (v_commentId x) = true ->
             q x = true -> Pg.collides U gid cid x = false) ->
  filter q (user_votes db1) = filter q (user_votes db).
Proof.
  intros Sh Ht Hc Hq.
  destruct (toggle_effect _ _ _ _ _ _ _ Sh Ht) as [E C1].
  specialize (C1 Hc).
  apply constraints_split in Hc as [_ R], C1 as [_ R1].
  apply (filter_agree q (Pg.collides U gid cid)); auto.
  - intros x Hx. apply Hq. specialize (R x Hx). unfold vote_row_ok in R.
    apply andb_true_iff in R as [R _]. now apply andb_true_iff in R as [_ R].
  - intros x Hx. apply Hq. specialize (R1 x Hx). unfold vote_row_ok in R1.
    apply andb_true_iff in R1 as [R1 _]. now apply andb_true_iff in R1 as [_ R1].
Qed.

Lemma counts_after_grievance_toggle U id k now db db1 :
  id <> "" ->
  toggle U (Some id) None k now db = Pg.Ok db1 ->
  constraints_hold db = true ->
  (forall g' kk, g' <> id ->
     count_grievance_votes (Some g') kk db1 = count_grievance_votes (Some g') kk db)
  /\ (forall c' kk,
        count_comment_votes (Some c') kk db1 = count_comment_votes (Some c') kk db).
Proof.
  intros Hid Ht Hc.
  assert (Sh : target_shape (Some id) None) by (exists id; auto).
  split.
  - intros g' kk Hg. unfold count_grievance_votes.
    rewrite (toggle_selection _ _ _ _ _ _ _ _ Sh Ht Hc); auto.
    intros x _ Q. apply andb_true_iff in Q as [Q _]. apply eq_null_Some in Q.
    unfold Pg.collides. rewrite Q. simpl.
    replace (String.eqb g' id) with false
      by (symmetry; now apply String.eqb_neq).
    destruct (v_commentId x); simpl; apply andb_false_r.
  - intros c' kk. unfold count_comment_votes.
    rewrite (toggle_selection _ _ _ _ _ _ _ _ Sh Ht Hc); auto.
    intros x T Q. apply andb_true_iff in Q as [Q _]. apply eq_null_Some in Q.
    unfold Pg.collides. rewrite Q in *. simpl.
    destruct (v_grievanceId x); simpl in *; [discriminate|apply andb_false_r].
Qed.

Lemma counts_after_comment_toggle U id k now db db1 :
  id <> "" ->
  toggle U None (Some id) k now db = Pg.Ok db1 ->
  constraints_hold db = true ->
  (forall c' kk, c' <> id ->
     count_comment_votes (Some c') kk db1 = count_comment_votes (Some c') kk db)
  /\ (forall g' kk,
        count_grievance_votes (Some g') kk db1 = count_grievance_votes (Some g') kk db).
Proof.
  intros Hid Ht Hc.
  assert (Sh : target_shape None (Some id)) by (exists id; auto).
  split.
  - intros c' kk Hg. unfold count_comment_votes.
    rewrite (toggle_selection _ _ _ _ _ _ _ _ Sh Ht Hc); auto.
    intros x _ Q. apply andb_true_iff in Q as [Q _]. apply eq_null_Some in Q.
    unfold Pg.collides. rewrite Q. simpl.
    replace (String.eqb c' id) with false
      by (symmetry; now apply String.eqb_neq).
    destruct (v_grievanceId x); simpl; apply andb_false_r.
  - intros g' kk. unfold count_grievance_votes.
    rewrite (toggle_selection _ _ _ _ _ _ _ _ Sh Ht Hc); auto.
    intros x T Q. apply andb_true_iff in Q as [Q _]. apply eq_null_Some in Q.
    unfold Pg.collides. rewrite Q in *. simpl.
    destruct (v_commentId x); simpl in *; [discriminate|apply andb_false_r].
Qed.

(** The recount keeps every key that a vote row references. *)
Lemma existsb_map_key {A} (key : A -> string) (f : A -> A) (s : string) (l : list A) :
  (forall x, key (f x) = key x) ->
  existsb (fun x => String.eqb (key x) s) (map f l)
  = existsb (fun x => String.eqb (key x) s) l.
Proof.
  intros H. induction l as [|a l IH]; simpl; auto. now rewrite H, IH.
Qed.

Lemma forallb_pointwise {A} (f g : A -> bool) (l : list A) :
  (forall x, f x = g x) -> forallb f l = forallb g l.
Proof. intros H. induction l as [|a l IH]; simpl; auto. now rewrite H, IH. Qed.

Lemma updateVoteCounts_constraints gid cid db :
  constraints_hold (updateVoteCounts gid cid db) = constraints_hold db.
Proof.
  unfold constraints_hold.
  destruct (updateVoteCounts_votes gid cid db) as (-> & Eu & _).
  f_equal. apply forallb_pointwise. intros v. unfold vote_row_ok. f_equal.
  unfold Pg.references_ok. rewrite Eu. f_equal; [f_equal|].
  - destruct (v_grievanceId v) as [g|]; auto.
    unfold updateVoteCounts.
    destruct (JS.truthy_opt gid), (JS.truthy_opt cid); simpl; auto;
      apply (existsb_map_key g_id); intros x;
      match goal with |- context [if ?b then _ else _] => destruct b end;
      reflexivity.
  - destruct (v_commentId v) as [c|]; auto.
    unfold updateVoteCounts.
    destruct (JS.truthy_opt gid), (JS.truthy_opt cid); simpl; auto;
      apply (existsb_map_key c_id); intros x;
      match goal with |- context [if ?b then _ else _] => destruct b end;
      reflexivity.
Qed.

Lemma updateVoteCounts_establishes_comment id db c :
  id <> "" ->
  In c (comments (updateVoteCounts None (Some id) db)) -> c_id c = id ->
  comment_counters_ok (updateVoteCounts None (Some id) db) c.
Proof.
  intros Hid Hin Hc. unfold comment_counters_ok.
  rewrite (count_comment_votes_ext _ "up" db) by apply updateVoteCounts_votes.
  rewrite updateVoteCounts_comment in Hin by exact Hid. simpl in Hin.
  apply in_map_iff in Hin as (c0 & E & _).
  destruct (String.eqb (c_id c0) id) eqn:E0.
  - subst c. simpl. apply String.eqb_eq in E0. now rewrite E0.
  - subst c. apply String.eqb_neq in E0. contradiction.
Qed.

(** ** The counter invariant *)

Lemma grievance_vote_invariant now sess id vt db resp db' :
  id <> "" ->
  post_grievance_vote now sess id vt db = (resp, db') ->
  (status resp = 200%nat ->
   forall g, In g (grievances db') -> g_id g = id -> grievance_counters_ok db' g)
  /\ (constraints_hold db = true -> all_counters_ok db ->
      constraints_hold db' = true /\ all_counters_ok db').
Proof.
  intros Hid H.
  destruct (post_grievance_vote_cases _ _ _ _ _ _ _ H)
    as [[Hs ->]|(Hs & U & k & db1 & _ & _ & Ht & ->)].
  - split; [contradiction|auto].
  - split; [intros _ g; now apply updateVoteCounts_establishes|].
    intros Hc [Ig Ic].
    assert (Sh : target_shape (Some id) None) by (exists id; auto).
    destruct (toggle_effect _ _ _ _ _ _ _ Sh Ht) as [_ C1].
    destruct (toggle_frame _ _ _ _ _ _ _ Ht) as (_ & Eg & Ec).
    destruct (counts_after_grievance_toggle _ _ _ _ _ _ Hid Ht Hc) as [Kg Kc].
    destruct (updateVoteCounts_votes (Some id) None db1) as (Ev & _ & _).
    split; [rewrite updateVoteCounts_constraints; auto|].
    split.
    + intros g Hg. destruct (String.eqb (g_id g) id) eqn:E.
      * apply String.eqb_eq in E. now apply updateVoteCounts_establishes.
      * apply String.eqb_neq in E.
        rewrite updateVoteCounts_grievance in Hg by exact Hid. simpl in Hg.
        apply in_map_iff in Hg as (g0 & E0 & Hg0).
        destruct (String.eqb (g_id g0) id) eqn:E1.
        { subst g. simpl in E. apply String.eqb_eq in E1. contradiction. }
        subst g0. rewrite Eg in Hg0. unfold grievance_counters_ok.
        rewrite (count_grievance_votes_ext _ "up" db1),
          (count_grievance_votes_ext _ "down" db1) by exact Ev.
        rewrite !Kg by exact E. now apply Ig.
    + intros c Hc'. unfold comment_counters_ok.
      rewrite (count_comment_votes_ext _ "up" db1) by exact Ev.
      rewrite Kc. apply Ic.
      rewrite updateVoteCounts_grievance in Hc' by exact Hid. simpl in Hc'.
      now rewrite <- Ec.
Qed.

Lemma comment_vote_invariant now sess id vt db resp db' :
  id <> "" ->
  post_comment_vote now sess id vt db = (resp, db') ->
  (status resp = 200%nat ->
   forall c, In c (comments db') -> c_id c = id -> comment_counters_ok db' c)
  /\ (constraints_hold db = true -> all_counters_ok db ->
      constraints_hold db' = true /\ all_counters_ok db').
Proof.
  intros Hid H.
  destruct (post_comment_vote_cases _ _ _ _ _ _ _ H)
    as [[Hs ->]|(Hs & U & k & db1 & _ & _ & Ht & ->)].
  - split; [contradiction|auto].
  - split; [intros _ c; now apply updateVoteCounts_establishes_comment|].
    intros Hc [Ig Ic].
    assert (Sh : target_shape None (Some id)) by (exists id; auto).
    destruct (toggle_effect _ _ _ _ _ _ _ Sh Ht) as [_ C1].
    destruct (toggle_frame _ _ _ _ _ _ _ Ht) as (_ & Eg & Ec).
    destruct (counts_after_comment_toggle _ _ _ _ _ _ Hid Ht Hc) as [Kc Kg].
    destruct (updateVoteCounts_votes None (Some id) db1) as (Ev & _ & _).
    split; [rewrite updateVoteCounts_constraints; auto|].
    split.
    + intros g Hg. unfold grievance_counters_ok.
      rewrite (count_grievance_votes_ext _ "up" db1),
        (count_grievance_votes_ext _ "down" db1) by exact Ev.
      rewrite !Kg. apply Ig.
      rewrite updateVoteCounts_comment in Hg by exact Hid. simpl in Hg.
      now rewrite <- Eg.
    + intros c Hc'. destruct (String.eqb (c_id c) id) eqn:E.
      * apply String.eqb_eq in E. now apply updateVoteCounts_establishes_comment.
      * apply String.eqb_neq in E.
        rewrite updateVoteCounts_comment in Hc' by exact Hid. simpl in Hc'.
        apply in_map_iff in Hc' as (c0 & E0 & Hc0).
        destruct (String.eqb (c_id c0) id) eqn:E1.
        { subst c. simpl in E. apply String.eqb_eq in E1. contradiction. }
        subst c0. rewrite Ec in Hc0. unfold comment_counters_ok.
        rewrite (count_comment_votes_ext _ "up" db1) by exact Ev.
        rewrite Kc by exact E. now apply Ic.
Qed.

(** C2 (amended). Counter invariant: the recount leaves the vote rows
    alone and writes onto its target the numbers of vote rows on it (of
    kind up and of kind down for a grievance, of kind up only for a
    comment); so after every completed vote request the stored counters
    of that request's target equal the numbers of its vote rows, and
    when every grievance and comment carried the numbers of its vote
    rows before the request, every one does after it. *)
Theorem vote_counter_invariant :
  forall now sess id vt db resp db',
    id <> "" ->
    (user_votes (updateVoteCounts (Some id) None db) = user_votes db
     /\ forall g, In g (grievances (updateVoteCounts (Some id) None db)) ->
          g_id g = id ->
          g_upvotes g = vote_rows (targets_grievance id) "up" (user_votes db)
          /\ g_downvotes g = vote_rows (targets_grievance id) "down" (user_votes db))
    /\ (user_votes (updateVoteCounts None (Some id) db) = user_votes db
        /\ grievances (updateVoteCounts None (Some id) db) = grievances db
        /\ forall c, In c (comments (updateVoteCounts None (Some id) db)) ->
             c_id c = id ->
             c_upvotes c = vote_rows (targets_comment id) "up" (user_votes db))
    /\ (post_grievance_vote now sess id vt db = (resp, db') ->
        (status resp = 200%nat ->
         forall g, In g (grievances db') -> g_id g = id ->
           g_upvotes g = vote_rows (targets_grievance id) "up" (user_votes db')
           /\ g_downvotes g
              = vote_rows (targets_grievance id) "down" (user_votes db'))
        /\ (constraints_hold db = true -> counter_invariant db ->
            constraints_hold db' = true /\ counter_invariant db'))
    /\ (post_comment_vote now sess id vt db = (resp, db') ->
        (status resp = 200%nat ->
         forall c, In c (comments db') -> c_id c = id ->
           c_upvotes c = vote_rows (targets_comment id) "up" (user_votes db'))
        /\ (constraints_hold db = true -> counter_invariant db ->
            constraints_hold db' = true /\ counter_invariant db')).
Proof.
  intros now sess id vt db resp db' Hid.
  split; [|split; [|split]].
  - split; [apply updateVoteCounts_votes|]. intros g Hg Eg.
    destruct (updateVoteCounts_establishes id db g Hid Hg Eg) as [K1 K2].
    rewrite Eg, count_grievance_votes_rows in K1, K2.
    destruct (updateVoteCounts_votes (Some id) None db) as (Ev & _).
    rewrite Ev in K1, K2. auto.
  - split; [apply updateVoteCounts_votes|].
    split; [rewrite updateVoteCounts_comment by exact Hid; reflexivity|].
    intros c Hc Ec.
    pose proof (updateVoteCounts_establishes_comment id db c Hid Hc Ec) as K.
    unfold comment_counters_ok in K.
    rewrite Ec, count_comment_votes_rows in K.
    destruct (updateVoteCounts_votes None (Some id) db) as (Ev & _).
    now rewrite Ev in K.
  - intros Run. destruct (grievance_vote_invariant _ _ _ _ _ _ _ Hid Run) as [T P].
    split.
    + intros Hs g Hg Eg. destruct (T Hs g Hg Eg) as [K1 K2].
      rewrite Eg, count_grievance_votes_rows in K1, K2. auto.
    + intros Hc Hi. apply counter_invariant_iff in Hi.
      destruct (P Hc Hi) as [C I]. split; [exact C|].
      now apply counter_invariant_iff.
  - intros Run. destruct (comment_vote_invariant _ _ _ _ _ _ _ Hid Run) as [T P].
    split.
    + intros Hs c Hc Ec. pose proof (T Hs c Hc Ec) as K.
      unfold comment_counters_ok in K.
      now rewrite Ec, count_comment_votes_rows in K.
    + intros Hc Hi. apply counter_invariant_iff in Hi.
      destruct (P Hc Hi) as [C I]. split; [exact C|].
      now apply counter_invariant_iff.
Qed.

(** Counterexample to C2 as stated (the counters of a grievance equal
    the numbers of its vote rows after every completed vote operation):
    alice, the author of the pothole, sets its upvotes to 1000 by PATCH;
    bob then votes on the burst pipe and is answered 200.  After that
    vote the pothole still stores 1000 upvotes against one vote row of
    kind up. *)
Lemma patched_counter_outlives_votes :
  exists g1 db1 db2,
    patch_grievance 5000 Example.as_alice "g-1" (Example.set_upvotes 1000)
      Example.db0
    = (mkResponse 200 (GrievanceBody (Some g1)), db1)
    /\ post_grievance_vote 6000 Example.as_bob "g-2" (Some "up") db1
       = (mkResponse 200 (VoteBody 1 0 (Some "up")), db2)
    /\ constraints_hold db2 = true
    /\ (exists g, In g (grievances db2) /\ g_id g = "g-1"
                  /\ g_upvotes g = 1000
                  /\ vote_rows (targets_grievance "g-1") "up" (user_votes db2) = 1)
    /\ ~ counter_invariant db2.
Proof.
  eexists. eexists. eexists.
  split; [vm_compute; reflexivity|].
  split; [vm_compute; reflexivity|].
  split; [vm_compute; reflexivity|].
  split.
  - eexists. split; [left; reflexivity|]. repeat split.
  - intros [Hg _]. destruct (Hg _ (or_introl eq_refl)) as [H _].
    vm_compute in H. discriminate H.
Qed.

(** ** Frame of the vote handlers *)

Lemma Forall2_map_self {A} (R : A -> A -> Prop) (f : A -> A) (l : list A) :
  (forall x, R x (f x)) -> Forall2 R l (map f l).
Proof. intros H. induction l; simpl; constructor; auto. Qed.

Lemma Forall2_same {A} (R : A -> A -> Prop) (l : list A) :
  (forall x, R x x) -> Forall2 R l l.
Proof. intros H. induction l; constructor; auto. Qed.

Lemma same_but_counters_refl g : same_but_counters g g.
Proof. unfold same_but_counters; repeat split. Qed.

Lemma same_but_upvotes_refl c : same_but_upvotes c c.
Proof. unfold same_but_upvotes; repeat split. Qed.

Lemma updateVoteCounts_frame_grievance id db :
  comments (updateVoteCounts (Some id) None db) = comments db
  /\ Forall2 (fun g g' => same_but_counters g g' /\ (g_id g <> id -> g' = g))
             (grievances db) (grievances (updateVoteCounts (Some id) None db)).
Proof.
  unfold updateVoteCounts. simpl. destruct (JS.truthy id); simpl.
  - split; auto. apply Forall2_map_self. intros g.
    destruct (String.eqb (g_id g) id) eqn:E.
    + split; [unfold same_but_counters; repeat split|].
      apply String.eqb_eq in E. contradiction.
    + split; [apply same_but_counters_refl|reflexivity].
  - split; auto. apply Forall2_same. intros g.
    split; [apply same_but_counters_refl|reflexivity].
Qed.

Lemma updateVoteCounts_frame_comment id db :
  grievances (updateVoteCounts None (Some id) db) = grievances db
  /\ Forall2 (fun c c' => same_but_upvotes c c' /\ (c_id c <> id -> c' = c))
             (comments db) (comments (updateVoteCounts None (Some id) db)).
Proof.
  unfold updateVoteCounts. simpl. destruct (JS.truthy id); simpl.
  - split; auto. apply Forall2_map_self. intros c.
    destruct (String.eqb (c_id c) id) eqn:E.
    + split; [unfold same_but_upvotes; repeat split|].
      apply String.eqb_eq in E. contradiction.
    + split; [apply same_but_upvotes_refl|reflexivity].
  - split; auto. apply Forall2_same. intros c.
    split; [apply same_but_upvotes_refl|reflexivity].
Qed.

(** Placeholders of an integer type. *)
Lemma integer_param_inv lo hi n x :
  Pg.integer_param lo hi n = Pg.Ok x -> x = n /\ lo <= n <= hi.
Proof.
  unfold Pg.integer_param. destruct (Z.leb (10 ^ 21) (Z.abs n)); [discriminate|].
  destruct (Z.ltb n lo) eqn:L; [discriminate|].
  destruct (Z.ltb hi n) eqn:H; [discriminate|].
  simpl. intros E. inversion E. apply Z.ltb_ge in L, H. lia.
Qed.

Lemma integer_param_ok lo hi n :
  lo <= n <= hi -> Z.abs n < 10 ^ 21 -> Pg.integer_param lo hi n = Pg.Ok n.
Proof.
  intros R A. unfold Pg.integer_param.
  assert (E1 : Z.leb (10 ^ 21) (Z.abs n) = false) by (apply Z.leb_gt; exact A).
  assert (E2 : Z.ltb n lo = false) by (apply Z.ltb_ge; lia).
  assert (E3 : Z.ltb hi n = false) by (apply Z.ltb_ge; lia).
  now rewrite E1, E2, E3.
Qed.

Lemma int4_param_ok n :
  Pg.int4_min <= n <= Pg.int4_max ->
  Pg.integer_param Pg.int4_min Pg.int4_max n = Pg.Ok n.
Proof.
  intros R. apply integer_param_ok; auto.
  unfold Pg.int4_min, Pg.int4_max in R. lia.
Qed.

Lemma int4_param_refused n :
  ~ (Pg.int4_min <= n <= Pg.int4_max) ->
  exists e, Pg.integer_param Pg.int4_min Pg.int4_max n = Pg.Throw e.
Proof.
  intros R. unfold Pg.integer_param.
  destruct (Z.leb (10 ^ 21) (Z.abs n)); [eauto|].
  destruct (Z.ltb n Pg.int4_min) eqn:L; [simpl; eauto|].
  destruct (Z.ltb Pg.int4_max n) eqn:H; [simpl; eauto|].
  apply Z.ltb_ge in L, H. exfalso. apply R. lia.
Qed.

(** What a successful [updateGrievance] was given, and what it wrote. *)
Lemma updateGrievance_inv id u now db g db' :
  updateGrievance id u now db = Pg.Ok (g, db') ->
  up_timestamp u = None
  /\ (forall n, up_upvotes u = Some n -> Pg.int4_min <= n <= Pg.int4_max)
  /\ (forall n, up_downvotes u = Some n -> Pg.int4_min <= n <= Pg.int4_max)
  /\ exists st,
       (forall s, up_status u = Some s ->
                  exists x, status_of_string s = Some x /\ st = Some x)
       /\ (up_status u = None -> st = None)
       /\ g = hd_error (map (fun x => if String.eqb (g_id x) id
                                      then apply_updates u st now x else x)
                            (filter (fun x => String.eqb (g_id x) id) (grievances db)))
       /\ db' = set_grievances db
                  (map (fun x => if String.eqb (g_id x) id
                                 then apply_updates u st now x else x)
                       (grievances db)).
Proof.
  unfold updateGrievance.
  destruct (up_timestamp u); [discriminate|]. simpl.
  destruct (match up_upvotes u with
            | Some n => Pg.integer_param Pg.int4_min Pg.int4_max n
            | None => Pg.Ok 0 end) as [x|e] eqn:Eu; [|discriminate]. simpl.
  destruct (match up_downvotes u with
            | Some n => Pg.integer_param Pg.int4_min Pg.int4_max n
            | None => Pg.Ok 0 end) as [y|e] eqn:Ed; [|discriminate]. simpl.
  destruct (match up_status u with
            | Some s => match status_of_string s with
                        | Some x => Pg.Ok (Some x)
                        | None => Pg.Throw Pg.invalid_text_representation
                        end
            | None => Pg.Ok None
            end) as [st|e] eqn:Es; simpl; [|discriminate].
  destruct (existsb _ (grievances db) && negb _); [discriminate|].
  intros H. inversion H; subst; clear H.
  split; [reflexivity|]. split; [|split].
  - intros n En. rewrite En in Eu. now apply integer_param_inv in Eu.
  - intros n En. rewrite En in Ed. now apply integer_param_inv in Ed.
  - exists st. split; [|split; [|split]]; try reflexivity.
    + intros s E. rewrite E in Es.
      destruct (status_of_string s) as [z|]; [|discriminate].
      inversion Es. eauto.
    + intros E. rewrite E in Es. now inversion Es.
Qed.

Lemma updateGrievance_bumps id u now db g db' :
  updateGrievance id u now db = Pg.Ok (g, db') ->
  (forall x, In x (grievances db') -> g_id x = id -> g_updatedAt x = now)
  /\ (forall x, g = Some x -> g_id x = id /\ g_updatedAt x = now).
Proof.
  intros H. apply updateGrievance_inv in H as (_ & _ & _ & st & _ & _ & -> & ->).
  simpl. split.
  - intros x Hx Ex. apply in_map_iff in Hx as (g0 & E & _).
    destruct (String.eqb (g_id g0) id) eqn:E0.
    + now subst x.
    + subst x. apply String.eqb_neq in E0. contradiction.
  - intros x Hx. rewrite hd_error_map in Hx.
    destruct (hd_error (filter _ (grievances db))) as [g0|] eqn:Hd; [|discriminate].
    apply hd_filter_split in Hd as (_ & _ & _ & _ & C).
    simpl in Hx. rewrite C in Hx. inversion Hx; subst. simpl.
    apply String.eqb_eq in C. auto.
Qed.

(** C10. Frame of the vote requests: whatever a grievance vote request
    answers, the users and the comments are as before and every stored
    grievance keeps all of title, description, category, municipality,
    location, authorId, timestamp, status, imageUrl and updatedAt (so a
    vote never moves updatedAt) and, when it is not the voted grievance,
    its counters too; a comment vote request changes no grievance and
    at most the upvotes of the voted comment.  Every successful
    [updateGrievance], in contrast, sets updatedAt of the rows it
    rewrites to the time of the call. *)
Theorem vote_frame :
  forall now sess id vt db,
    (let db' := snd (post_grievance_vote now sess id vt db) in
     users db' = users db
     /\ comments db' = comments db
     /\ Forall2 (fun g g' => same_but_counters g g' /\ (g_id g <> id -> g' = g))
                (grievances db) (grievances db'))
    /\ (let db' := snd (post_comment_vote now sess id vt db) in
        users db' = users db
        /\ grievances db' = grievances db
        /\ Forall2 (fun c c' => same_but_upvotes c c' /\ (c_id c <> id -> c' = c))
                   (comments db) (comments db'))
    /\ (forall u g db',
          updateGrievance id u now db = Pg.Ok (g, db') ->
          (forall x, In x (grievances db') -> g_id x = id -> g_updatedAt x = now)
          /\ (forall x, g = Some x -> g_id x = id /\ g_updatedAt x = now)).
Proof.
  intros now sess id vt db. split; [|split].
  - destruct (post_grievance_vote now sess id vt db) as [resp db'] eqn:H. simpl.
    destruct (post_grievance_vote_cases _ _ _ _ _ _ _ H)
      as [[_ ->]|(_ & U & k & db1 & _ & _ & Ht & ->)].
    + repeat split; auto. apply Forall2_same. intros g.
      split; [apply same_but_counters_refl|reflexivity].
    + destruct (toggle_frame _ _ _ _ _ _ _ Ht) as (Eu & Eg & Ec).
      destruct (updateVoteCounts_votes (Some id) None db1) as (_ & Eu' & _).
      destruct (updateVoteCounts_frame_grievance id db1) as [Fc Fg].
      rewrite Eu', Eu, Fc, Ec. rewrite Eg in Fg. auto.
  - destruct (post_comment_vote now sess id vt db) as [resp db'] eqn:H. simpl.
    destruct (post_comment_vote_cases _ _ _ _ _ _ _ H)
      as [[_ ->]|(_ & U & k & db1 & _ & _ & Ht & ->)].
    + repeat split; auto. apply Forall2_same. intros c.
      split; [apply same_but_upvotes_refl|reflexivity].
    + destruct (toggle_frame _ _ _ _ _ _ _ Ht) as (Eu & Eg & Ec).
      destruct (updateVoteCounts_votes None (Some id) db1) as (_ & Eu' & _).
      destruct (updateVoteCounts_frame_comment id db1) as [Fg Fc].
      rewrite Eu', Eu, Fg, Eg. rewrite Ec in Fc. auto.
  - intros u g db'. apply updateGrievance_bumps.
Qed.

(** ** A vote on a comment that is not stored *)

Lemma votes_reference_comments db v c :
  constraints_hold db = true -> In v (user_votes db) ->
  v_commentId v = Some c ->
  existsb (fun x => String.eqb (c_id x) c) (comments db) = true.
Proof.
  intros Hc Hv E. apply constraints_split in Hc as [_ R].
  specialize (R v Hv). unfold vote_row_ok, Pg.references_ok in R.
  rewrite E in R. rewrite !andb_true_iff in R. tauto.
Qed.

(** C9. [POST /api/comments/:id/vote] for an id that no stored comment
    has: the handler does not look the comment up; the insert of the
    vote fails on the foreign key, the error is not the unique
    violation, and the request is answered 500 "Failed to process
    vote" (not a NotFound); no vote is recorded. *)
Theorem comment_vote_on_missing_comment :
  forall now sess U id k db,
    constraints_hold db = true ->
    requireAuth sess = inr U ->
    k = "up" \/ k = "down" ->
    id <> "" ->
    existsb (fun c => String.eqb (c_id c) id) (comments db) = false ->
    post_comment_vote now sess id (Some k) db
    = (json_error 500 "Failed to process vote", db).
Proof.
  intros now sess U id k db Hc Ha Hk Hid Hm.
  destruct (valid_voteType_kind k Hk) as (Vk & Ck & _).
  assert (Ex : existsb (Pg.collides U None (Some id)) (user_votes db) = false).
  { destruct (existsb _ (user_votes db)) eqn:E; auto.
    apply existsb_exists in E as (v & Hv & Cv).
    unfold Pg.collides in Cv. apply andb_true_iff in Cv as [_ Cv].
    assert (v_commentId v = Some id).
    { apply eq_null_Some. destruct (v_grievanceId v); exact Cv. }
    rewrite (votes_reference_comments db v id Hc Hv H) in Hm. discriminate. }
  unfold post_comment_vote. rewrite Ha, Vk.
  unfold toggle, getUserVote.
  rewrite (filter_ext _ _ (fun x => vote_conditions_comment U id x Hid)).
  apply filter_nil_iff in Ex as Fx. rewrite Fx. simpl.
  unfold createOrUpdateVote, Pg.insert_user_vote. simpl.
  rewrite Ck, Ex. simpl.
  unfold Pg.references_ok. simpl. rewrite Hm, andb_false_r. reflexivity.
Qed.

(** ** [PATCH /api/grievances/:id] *)

Lemma updateGrievance_runs id u now db st :
  up_timestamp u = None ->
  (forall n, up_upvotes u = Some n -> Pg.int4_min <= n <= Pg.int4_max) ->
  (forall n, up_downvotes u = Some n -> Pg.int4_min <= n <= Pg.int4_max) ->
  (up_status u = None /\ st = None)
  \/ (exists s x, up_status u = Some s /\ status_of_string s = Some x /\ st = Some x) ->
  match up_authorId u with
  | Some a => existsb (fun x => String.eqb (u_id x) a) (users db)
  | None => true
  end = true ->
  updateGrievance id u now db
  = Pg.Ok (hd_error (map (fun x => if String.eqb (g_id x) id
                                   then apply_updates u st now x else x)
                         (filter (fun x => String.eqb (g_id x) id) (grievances db))),
           set_grievances db
             (map (fun x => if String.eqb (g_id x) id
                            then apply_updates u st now x else x)
                  (grievances db))).
Proof.
  intros Ht Hu Hd Hs Hau. unfold updateGrievance. rewrite Ht. simpl.
  assert (Eu : exists x, match up_upvotes u with
                         | Some n => Pg.integer_param Pg.int4_min Pg.int4_max n
                         | None => Pg.Ok 0 end = Pg.Ok x).
  { destruct (up_upvotes u) as [n|]; [|eauto].
    rewrite int4_param_ok by now apply Hu. eauto. }
  assert (Ed : exists x, match up_downvotes u with
                         | Some n => Pg.integer_param Pg.int4_min Pg.int4_max n
                         | None => Pg.Ok 0 end = Pg.Ok x).
  { destruct (up_downvotes u) as [n|]; [|eauto].
    rewrite int4_param_ok by now apply Hd. eauto. }
  destruct Eu as [x ->], Ed as [y ->]. simpl.
  destruct Hs as [[-> ->]|(s & z & -> & -> & ->)]; simpl;
    now rewrite Hau, andb_false_r.
Qed.

Lemma updateGrievance_author id u now db g db' :
  updateGrievance id u now db = Pg.Ok (g, db') ->
  existsb (fun x => String.eqb (g_id x) id) (grievances db) = true ->
  match up_authorId u with
  | Some a => existsb (fun x => String.eqb (u_id x) a) (users db)
  | None => true
  end = true.
Proof.
  unfold updateGrievance. intros H Hex.
  destruct (up_timestamp u); [discriminate|]. simpl in H.
  destruct (match up_upvotes u with
            | Some n => Pg.integer_param Pg.int4_min Pg.int4_max n
            | None => Pg.Ok 0 end) as [x|e]; [|discriminate]. simpl in H.
  destruct (match up_downvotes u with
            | Some n => Pg.integer_param Pg.int4_min Pg.int4_max n
            | None => Pg.Ok 0 end) as [y|e]; [|discriminate]. simpl in H.
  destruct (match up_status u with
            | Some s => match status_of_string s with
                        | Some x => Pg.Ok (Some x)
                        | None => Pg.Throw Pg.invalid_text_representation
                        end
            | None => Pg.Ok None
            end) as [st|e]; simpl in H; [|discriminate].
  rewrite Hex in H. simpl in H.
  destruct (match up_authorId u with
            | Some a => existsb (fun x => String.eqb (u_id x) a) (users db)
            | None => true
            end); [reflexivity|discriminate].
Qed.

(** The bodies that the statement refuses, on a stored grievance. *)
Lemma updateGrievance_refuses id u now db :
  existsb (fun x => String.eqb (g_id x) id) (grievances db) = true ->
  up_timestamp u <> None
  \/ (exists n, (up_upvotes u = Some n \/ up_downvotes u = Some n)
                /\ ~ (Pg.int4_min <= n <= Pg.int4_max))
  \/ (exists s, up_status u = Some s /\ status_of_string s = None)
  \/ (exists a, up_authorId u = Some a
                /\ existsb (fun x => String.eqb (u_id x) a) (users db) = false) ->
  exists e, updateGrievance id u now db = Pg.Throw e.
Proof.
  intros Hex H.
  destruct (updateGrievance id u now db) as [[g db']|e] eqn:E; [exfalso|eauto].
  pose proof (updateGrievance_author _ _ _ _ _ _ E Hex) as Ha.
  apply updateGrievance_inv in E as (Ht & Hu & Hd & st & Hs & _).
  destruct H as [H|[(n & [Hn|Hn] & R)|[(s & Es & Ns)|(a & Ea & Na)]]].
  - contradiction.
  - apply R. now apply Hu.
  - apply R. now apply Hd.
  - destruct (Hs s Es) as (x & Ex & _). congruence.
  - rewrite Ea, Na in Ha. discriminate.
Qed.

Lemma first_updated (upd : Grievance -> Grievance) id gs :
  existsb (fun x => String.eqb (g_id x) id) gs = true ->
  exists g0, In g0 gs /\ g_id g0 = id
             /\ hd_error (map (fun x => if String.eqb (g_id x) id then upd x else x)
                              (filter (fun x => String.eqb (g_id x) id) gs))
                = Some (upd g0).
Proof.
  intros Ex. rewrite hd_error_map.
  destruct (hd_error (filter (fun x => String.eqb (g_id x) id) gs)) as [g0|] eqn:Hd.
  - destruct (hd_filter_split _ _ _ Hd) as (l1 & l2 & E & _ & C).
    exists g0. simpl. rewrite C. repeat split.
    + rewrite E. apply in_or_app. right. now left.
    + now apply String.eqb_eq.
  - apply hd_filter_none in Hd. congruence.
Qed.

(** C7 (amended). [PATCH /api/grievances/:id] by an authenticated
    caller on a stored grievance, with a body that does not set the id.
    A caller who is neither the author of the grievance nor an admin is
    refused with 403 and nothing is written.  For the author as for an
    admin: a body with a timestamp member, with a counter outside the
    range of a 32-bit integer, with a status that is none of the five
    labels or with an author that is no stored user is answered with
    500 and nothing is written; any other body with a status is written
    as sent: the answer is 200 with the grievance, whose status is the
    status of the body, whose title and counters are those of the body
    where it has them, and whose updatedAt is the time of the call. *)
Theorem patch_grievance_permission :
  forall now sess U id u db r,
    requireAuth sess = inr U ->
    getGrievance id db = Some r ->
    (String.eqb (g_authorId (row_g r)) U || JS.same (s_userType sess) "admin" = false ->
     patch_grievance now sess id u db = (json_error 403 "Permission denied", db))
    /\ (String.eqb (g_authorId (row_g r)) U || JS.same (s_userType sess) "admin" = true ->
        (up_timestamp u <> None
         \/ (exists n, (up_upvotes u = Some n \/ up_downvotes u = Some n)
                       /\ ~ (Pg.int4_min <= n <= Pg.int4_max))
         \/ (exists s, up_status u = Some s /\ status_of_string s = None)
         \/ (exists a, up_authorId u = Some a
                       /\ existsb (fun x => String.eqb (u_id x) a) (users db) = false) ->
         patch_grievance now sess id u db
         = (json_error 500 "Failed to update grievance", db))
        /\ (up_timestamp u = None ->
            (forall n, up_upvotes u = Some n -> Pg.int4_min <= n <= Pg.int4_max) ->
            (forall n, up_downvotes u = Some n -> Pg.int4_min <= n <= Pg.int4_max) ->
            forall s st,
              up_status u = Some s -> status_of_string s = Some st ->
              match up_authorId u with
              | Some a => existsb (fun x => String.eqb (u_id x) a) (users db)
              | None => true
              end = true ->
              exists g db',
                patch_grievance now sess id u db
                = (mkResponse 200 (GrievanceBody (Some g)), db')
                /\ g_id g = id /\ g_status g = st
                /\ (forall x, In x (grievances db') -> g_id x = id -> g_status x = st)
                /\ (forall t, up_title u = Some t -> g_title g = t)
                /\ (forall n, up_upvotes u = Some n -> g_upvotes g = n)
                /\ (forall n, up_downvotes u = Some n -> g_downvotes g = n)
                /\ g_updatedAt g = now
                /\ In g (grievances db'))).
Proof.
  intros now sess U id u db r Ha Hg. unfold patch_grievance. rewrite Ha, Hg.
  rewrite <- negb_orb. split; intros Hal; rewrite Hal; simpl; [reflexivity|].
  split.
  - intros H.
    destruct (updateGrievance_refuses id u now db
                (getGrievance_exists _ _ _ Hg) H) as [e ->].
    reflexivity.
  - intros Ht Hu Hd s st Hs Hst Hau.
    rewrite (updateGrievance_runs id u now db (Some st) Ht Hu Hd) by eauto 6.
    destruct (first_updated (apply_updates u (Some st) now) id (grievances db))
      as (g0 & Hin & Hid & ->).
    { eapply getGrievance_exists; eauto. }
    eexists. eexists. split; [reflexivity|]. simpl.
    split; [exact Hid|]. split; [reflexivity|]. split; [|split; [|split; [|split; [|split]]]].
    + intros x Hx Ex. apply in_map_iff in Hx as (g1 & E & _).
      destruct (String.eqb (g_id g1) id) eqn:E0.
      * now subst x.
      * subst x. apply String.eqb_neq in E0. contradiction.
    + intros t E. now rewrite E.
    + intros n E. now rewrite E.
    + intros n E. now rewrite E.
    + reflexivity.
    + apply in_map_iff. exists g0. split; auto.
      apply String.eqb_eq in Hid. now rewrite Hid.
Qed.

(** The PATCH handler writes the grievances only, and keeps their ids:
    the constraints of [user_votes] hold after it as before. *)
Lemma patch_grievance_constraints now sess id u db :
  constraints_hold (snd (patch_grievance now sess id u db)) = constraints_hold db.
Proof.
  unfold patch_grievance.
  destruct (requireAuth sess) as [r|U]; auto.
  destruct (getGrievance id db) as [r|]; auto.
  destruct (negb _ && negb _); auto.
  destruct (updateGrievance id u now db) as [[g db']|e] eqn:E; auto.
  apply updateGrievance_inv in E as (_ & _ & _ & st & _ & _ & _ & ->).
  simpl. unfold constraints_hold. simpl. f_equal.
  apply forallb_pointwise. intros v. unfold vote_row_ok. f_equal.
  unfold Pg.references_ok. simpl. f_equal. f_equal.
  destruct (v_grievanceId v) as [x|]; auto.
  apply (existsb_map_key g_id). intros y.
  destruct (String.eqb (g_id y) id); reflexivity.
Qed.

(** ** Insertion sorts honour the contract of ORDER BY *)

Section InsertionSorts.

Context {A : Type} (le : A -> A -> bool).

Lemma insert_before_perm x l : Permutation (x :: l) (insert_before le x l).
Proof.
  induction l as [|y l IH]; simpl; auto.
  destruct (le x y); auto.
  eapply perm_trans; [apply perm_swap|]. now constructor.
Qed.

Hypothesis le_total : forall a b, le a b = true \/ le b a = true.
Hypothesis le_trans : forall a b c, le a b = true -> le b c = true -> le a c = true.

Lemma insert_before_sorted x l :
  StronglySorted (fun a b => le a b = true) l ->
  StronglySorted (fun a b => le a b = true) (insert_before le x l).
Proof.
  induction l as [|y l IH]; simpl; intros S.
  - repeat constructor.
  - apply StronglySorted_inv in S as [S F].
    destruct (le x y) eqn:E.
    + constructor; [constructor; auto|].
      constructor; [exact E|].
      eapply Forall_impl; [|exact F]. intros z Hz. simpl in *. eauto.
    + constructor; [auto|].
      eapply Permutation_Forall; [apply insert_before_perm|].
      constructor; auto.
      destruct (le_total x y); congruence.
Qed.

End InsertionSorts.

Lemma stable_sort_contract : order_by_contract stable_sort.
Proof.
  intros le rows. unfold stable_sort. split.
  - induction rows as [|x rows IH]; simpl; auto.
    eapply perm_trans; [|apply insert_before_perm]. now constructor.
  - intros T Tr. induction rows as [|x rows IH]; simpl; [constructor|].
    now apply insert_before_sorted.
Qed.




Lemma before_in {A} (a b : A) l : before a b l -> In a l /\ In b l.
Proof.
  intros (l1 & l2 & l3 & ->). split; apply in_or_app; right.
  - now left.
  - right. apply in_or_app. right. now left.
Qed.





(** ** The ORDER BY clauses are total preorders *)

Lemma urgent_rank_range g : urgent_rank g = 0 \/ urgent_rank g = 1.
Proof. unfold urgent_rank. destruct (status_eqb _ _); auto. Qed.

Lemma urgent_order_iff a b :
  Z.ltb (urgent_rank a) (urgent_rank b)
  || (Z.eqb (urgent_rank a) (urgent_rank b)
      && Z.leb (g_timestamp b) (g_timestamp a)) = true
  <-> urgent_rank a < urgent_rank b
      \/ (urgent_rank a = urgent_rank b /\ g_timestamp b <= g_timestamp a).
Proof.
  rewrite orb_true_iff, andb_true_iff, Z.ltb_lt, Z.eqb_eq, Z.leb_le. tauto.
Qed.

Lemma order_clause_total k a b :
  order_clause k a b = true \/ order_clause k b a = true.
Proof.
  unfold order_clause. destruct k as [k|];
    repeat match goal with
           | |- context [if ?c then _ else _] => destruct c
           end;
    rewrite ?urgent_order_iff, ?Z.leb_le; lia.
Qed.

Lemma order_clause_trans k a b c :
  order_clause k a b = true -> order_clause k b c = true ->
  order_clause k a c = true.
Proof.
  unfold order_clause. destruct k as [k|];
    repeat match goal with
           | |- context [if ?c then _ else _] => destruct c
           end;
    rewrite ?urgent_order_iff, ?Z.leb_le; lia.
Qed.

(** Sublists cut by LIMIT and OFFSET stay sorted. *)
Lemma in_firstn {A} n (l : list A) x : In x (firstn n l) -> In x l.
Proof.
  revert l. induction n as [|n IH]; intros [|y l]; simpl; try tauto.
  intros [H|H]; auto.
Qed.

Lemma in_skipn {A} n (l : list A) x : In x (skipn n l) -> In x l.
Proof.
  revert l. induction n as [|n IH]; intros [|y l]; simpl; auto.
Qed.

Lemma StronglySorted_skipn {A} (R : A -> A -> Prop) n (l : list A) :
  StronglySorted R l -> StronglySorted R (skipn n l).
Proof.
  revert l. induction n as [|n IH]; intros l S; simpl; auto.
  destruct l as [|x l]; auto. apply StronglySorted_inv in S as [S _]. auto.
Qed.

Lemma StronglySorted_firstn {A} (R : A -> A -> Prop) n (l : list A) :
  StronglySorted R l -> StronglySorted R (firstn n l).
Proof.
  revert l. induction n as [|n IH]; intros l S; simpl; [constructor|].
  destruct l as [|x l]; [constructor|].
  apply StronglySorted_inv in S as [S F]. constructor; auto.
  apply Forall_forall. intros y Hy. rewrite Forall_forall in F. apply F.
  eapply in_firstn. exact Hy.
Qed.


(** ** LIKE on a pattern without wildcards is substring search *)

Lemma like_percent_step p t :
  Pg.like ("%"%char :: p) t
  = Pg.like p t || match t with [] => false | _ :: t' => Pg.like ("%"%char :: p) t' end.
Proof. destruct t; reflexivity. Qed.

Lemma like_literal_step c p t :
  wildcard c = false ->
  Pg.like (c :: p) t
  = match t with [] => false | d :: t' => Ascii.eqb c d && Pg.like p t' end.
Proof.
  unfold wildcard. intros H.
  apply orb_false_iff in H as [H H3]. apply orb_false_iff in H as [H1 H2].
  destruct t; simpl; now rewrite H1, H2, H3.
Qed.

Lemma like_percent p t :
  Pg.like ("%"%char :: p) t = true
  <-> exists pre post, t = pre ++ post /\ Pg.like p post = true.
Proof.
  induction t as [|a t IH]; rewrite like_percent_step.
  - rewrite orb_false_r. split.
    + intros H. exists [], []. auto.
    + intros (pre & post & E & H). symmetry in E.
      apply app_eq_nil in E as [_ ->]. exact H.
  - rewrite orb_true_iff, IH. split.
    + intros [H|(pre & post & -> & H)].
      * exists [], (a :: t). auto.
      * exists (a :: pre), post. auto.
    + intros (pre & post & E & H). destruct pre as [|b pre]; simpl in E.
      * left. now subst post.
      * right. injection E as -> ->. eauto.
Qed.

Lemma like_any t : Pg.like ["%"%char] t = true.
Proof. apply like_percent. exists t, []. rewrite app_nil_r. auto. Qed.

Lemma like_plain p q t :
  forallb (fun c => negb (wildcard c)) p = true ->
  Pg.like (p ++ q) t = true
  <-> exists t', t = p ++ t' /\ Pg.like q t' = true.
Proof.
  revert t. induction p as [|c p IH]; intros t Hp.
  - simpl. split; [intros H; eauto | now intros (t' & -> & H)].
  - simpl in Hp. apply andb_true_iff in Hp as [Hc Hp]. apply negb_true_iff in Hc.
    rewrite <- app_comm_cons, like_literal_step by exact Hc. destruct t as [|d t].
    + split; [discriminate | intros (t' & E & _); discriminate].
    + rewrite andb_true_iff, (IH t Hp). split.
      * intros [E (t' & -> & H)]. apply Ascii.eqb_eq in E. subst d.
        exists t'. split; [reflexivity|exact H].
      * intros (t' & E & H). simpl in E. injection E as -> ->.
        split; [apply Ascii.eqb_refl | exists t'; auto].
Qed.

Lemma like_contains p t :
  forallb (fun c => negb (wildcard c)) p = true ->
  Pg.like ("%"%char :: p ++ ["%"%char]) t = true
  <-> exists pre post, t = pre ++ p ++ post.
Proof.
  intros Hp. rewrite like_percent. split.
  - intros (pre & rest & -> & H). apply (like_plain p _ rest Hp) in H as (post & -> & _).
    eauto.
  - intros (pre & post & ->). exists pre, (p ++ post). split; auto.
    apply like_plain; auto. exists post. split; auto. apply like_any.
Qed.

Lemma wildcard_lower c : wildcard (Pg.lower c) = wildcard c.
Proof. destruct c as [[] [] [] [] [] [] [] []]; reflexivity. Qed.

Lemma list_ascii_of_string_app (s1 s2 : string) :
  list_ascii_of_string (s1 ++ s2)%string
  = list_ascii_of_string s1 ++ list_ascii_of_string s2.
Proof. induction s1 as [|c s1 IH]; simpl; auto. now rewrite IH. Qed.

(** The query's ILIKE on text without wildcards: the text occurs in the
    field, letter case aside. *)
Lemma ilike_searchTerm s t :
  plain_text s = true ->
  Pg.ilike t (searchTerm s) = true <-> occurs_ci s t.
Proof.
  intros Hp. unfold Pg.ilike, searchTerm, occurs_ci, lowercase.
  rewrite !list_ascii_of_string_app, !map_app. simpl.
  change (Pg.lower "%"%char) with "%"%char.
  apply (like_contains (map Pg.lower (list_ascii_of_string s))).
  unfold plain_text in Hp. rewrite forallb_forall in *.
  intros c Hc. apply in_map_iff in Hc as (c0 & <- & Hc0).
  rewrite wildcard_lower. auto.
Qed.

(** ** [getGrievances] *)

(** Rows of the join, read back as grievances. *)
Lemma in_joined us gs g :
  In g (map row_g (flat_map (left_join_users us) gs)) <-> In g gs.
Proof.
  rewrite in_map_iff. split.
  - intros (r & <- & Hr). apply in_flat_map in Hr as (g0 & Hg & Hr).
    apply in_left_join in Hr. now subst.
  - intros Hg. destruct (left_join_users us g) as [|r l] eqn:E.
    + exfalso. eapply left_join_nonempty; eauto.
    + exists r. split.
      * apply (in_left_join us g). rewrite E. now left.
      * apply in_flat_map. exists g. split; auto. rewrite E. now left.
Qed.

Lemma getGrievances_inv srt f db rows total :
  getGrievances srt f db = Pg.Ok (rows, total) ->
  exists st w,
    status_condition f = Pg.Ok st
    /\ total = Z.of_nat (List.length (filter (conditions f st) (grievances db)))
    /\ page_window f = Pg.Ok w
    /\ rows = take_page w
                (srt (row_order (f_sortBy f))
                     (filter (fun r => conditions f st (row_g r))
                             (flat_map (left_join_users (users db)) (grievances db)))).
Proof.
  unfold getGrievances. destruct (status_condition f) as [st|e]; simpl; [|discriminate].
  destruct (page_window f) as [w|e]; simpl; [|discriminate].
  destruct (sort_keys _ _) as [k|e]; simpl; [|discriminate].
  intros H. inversion H; subst. eauto 6.
Qed.

Lemma take_page_inv w (l : list GrievanceRow) :
  (forall R, StronglySorted R l -> StronglySorted R (take_page w l))
  /\ (forall x, In x (take_page w l) -> In x l).
Proof.
  unfold take_page. destruct w as [[n|] [m|]]; simpl; split; auto; intros;
    repeat first [apply StronglySorted_firstn | apply StronglySorted_skipn];
    repeat match goal with
           | H : In _ (firstn _ _) |- _ => apply in_firstn in H
           | H : In _ (skipn _ _) |- _ => apply in_skipn in H
           end; auto.
Qed.

Lemma bound_param_inv (o x : option Z) :
  match o with
  | Some n => y <- Pg.integer_param Pg.bigint_min Pg.bigint_max n ;; Pg.Ok (Some y)
  | None => Pg.Ok None
  end = Pg.Ok x -> x = o.
Proof.
  destruct o as [n|]; simpl.
  - destruct (Pg.integer_param _ _ n) as [y|e] eqn:E; simpl; [|discriminate].
    apply integer_param_inv in E as [-> _]. intros H. now inversion H.
  - intros H. now inversion H.
Qed.

Lemma page_window_none f w :
  page_window f = Pg.Ok w ->
  JS.truthy_num (f_limit f) = false -> JS.truthy_num (f_offset f) = false ->
  w = (None, None).
Proof.
  unfold page_window. intros H L O. rewrite O in H.
  assert (E : match f_limit f with
              | Some n => if JS.truthy_num (Some n) && Z.leb 0 n then Some n else None
              | None => None
              end = None).
  { destruct (f_limit f) as [n|]; auto. now rewrite L. }
  rewrite E in H. simpl in H. now inversion H.
Qed.

Lemma bigint_param_ok n :
  0 <= n <= Pg.bigint_max ->
  Pg.integer_param Pg.bigint_min Pg.bigint_max n = Pg.Ok n.
Proof.
  intros R. apply integer_param_ok.
  - unfold Pg.bigint_min, Pg.bigint_max in *. lia.
  - unfold Pg.bigint_max in R. lia.
Qed.

Lemma page_window_total f :
  page_ok (f_limit f) (f_offset f) -> exists w, page_window f = Pg.Ok w.
Proof.
  intros [Hl Ho]. unfold page_window.
  assert (L : exists l,
             match (match f_limit f with
                    | Some n => if JS.truthy_num (Some n) && Z.leb 0 n
                                then Some n else None
                    | None => None
                    end) with
             | Some n => y <- Pg.integer_param Pg.bigint_min Pg.bigint_max n ;;
                         Pg.Ok (Some y)
             | None => Pg.Ok None
             end = Pg.Ok l).
  { destruct (f_limit f) as [n|]; [|eauto].
    destruct (JS.truthy_num (Some n)); simpl; [|eauto].
    destruct (Z.leb 0 n) eqn:E; [|eauto]. apply Z.leb_le in E.
    rewrite bigint_param_ok by (split; auto). simpl. eauto. }
  destruct L as [l ->]. simpl.
  destruct (f_offset f) as [n|]; simpl; [|eauto].
  destruct (negb (Z.eqb n 0)); simpl; [|eauto].
  rewrite bigint_param_ok by auto. simpl.
  assert (E : Z.ltb n 0 = false) by (apply Z.ltb_ge; now apply Ho).
  rewrite E. eauto.
Qed.

Lemma sort_keys_ok f db (c : GrievanceRow -> bool) :
  net_votes_fit f db ->
  sort_keys (f_sortBy f)
    (filter c (flat_map (left_join_users (users db)) (grievances db))) = Pg.Ok tt.
Proof.
  intros H. unfold sort_keys. destruct (sorts_by_votes (f_sortBy f)) eqn:S; auto.
  assert (K : f_sortBy f = Some "upvotes-high" \/ f_sortBy f = Some "upvotes-low").
  { unfold sorts_by_votes in S. destruct (f_sortBy f) as [k|]; [|discriminate].
    apply orb_prop in S as [S|S]; apply String.eqb_eq in S; subst; auto. }
  assert (F : forallb (fun r => in_int4 (net_votes (row_g r)))
                (filter c (flat_map (left_join_users (users db)) (grievances db)))
              = true).
  { apply forallb_forall. intros r Hr. apply filter_In in Hr as [Hr _].
    assert (Hg : In (row_g r) (grievances db))
      by (apply (in_joined (users db)); now apply in_map).
    specialize (H K _ Hg). unfold in_int4, net_votes.
    apply andb_true_iff. split; apply Z.leb_le; lia. }
  now rewrite F.
Qed.

Lemma status_condition_total f :
  status_filter_ok f -> exists st, status_condition f = Pg.Ok st.
Proof.
  unfold status_condition. intros [H|H].
  - assert (A : active (f_status f) = false).
    { unfold active, JS.truthy. destruct H as [->|[->| ->]]; reflexivity. }
    rewrite A. eauto.
  - simpl in H. destruct H as [<-|[<-|[<-|[<-|[<-|[]]]]]]; simpl; eauto.
Qed.

Lemma status_eqb_eq a b : status_eqb a b = true <-> a = b.
Proof. destruct a, b; simpl; split; intros H; congruence. Qed.



Lemma row_order_contract srt le rows :
  order_by_contract srt ->
  (forall a b, le a b = true \/ le b a = true) ->
  (forall a b c, le a b = true -> le b c = true -> le a c = true) ->
  Permutation rows (srt le rows)
  /\ StronglySorted (fun a b => le a b = true) (srt le rows).
Proof. intros C T Tr. destruct (C le rows) as [P S]. auto. Qed.

Lemma getGrievances_sorted srt f db rows total :
  order_by_contract srt ->
  getGrievances srt f db = Pg.Ok (rows, total) ->
  StronglySorted (fun a b => row_order (f_sortBy f) a b = true) rows
  /\ (JS.truthy_num (f_limit f) = false -> JS.truthy_num (f_offset f) = false ->
      exists st,
        status_condition f = Pg.Ok st
        /\ Permutation
             (filter (fun r => conditions f st (row_g r))
                     (flat_map (left_join_users (users db)) (grievances db)))
             rows).
Proof.
  intros C H. apply getGrievances_inv in H as (st & w & Hst & _ & W & ->).
  destruct (take_page_inv w
              (srt (row_order (f_sortBy f))
                 (filter (fun r => conditions f st (row_g r))
                    (flat_map (left_join_users (users db)) (grievances db)))))
    as (PS & _).
  destruct (row_order_contract srt (row_order (f_sortBy f))
              (filter (fun r => conditions f st (row_g r))
                      (flat_map (left_join_users (users db)) (grievances db))) C)
    as [Pm S].
  { intros a b. apply order_clause_total. }
  { intros a b c. apply order_clause_trans. }
  split; [now apply PS|].
  intros L O. exists st. split; auto.
  now rewrite (page_window_none f w W L O).
Qed.

(** ** The filter conditions *)

Lemma active_false_iff o : active o = false <-> no_filter o.
Proof.
  unfold active, no_filter, JS.truthy. destruct o as [s|].
  - rewrite andb_false_iff, !negb_false_iff, !String.eqb_eq. split.
    + intros [->| ->]; auto.
    + intros [H|[H|H]]; inversion H; auto.
  - tauto.
Qed.

Lemma field_clause o field :
  (if active o then Pg.eq_null (Some field) o else true) = true
  <-> no_filter o \/ o = Some field.
Proof.
  destruct (active o) eqn:A.
  - rewrite eq_null_sym, eq_null_Some. split; auto.
    intros [H|H]; auto. apply active_false_iff in H. congruence.
  - apply active_false_iff in A. tauto.
Qed.

Lemma author_clause o a :
  (if JS.truthy_opt o then Pg.eq_null (Some a) o else true) = true
  <-> o = None \/ o = Some "" \/ o = Some a.
Proof.
  destruct o as [s|]; simpl; [|tauto].
  unfold JS.truthy. destruct (String.eqb s "") eqn:E; simpl.
  - apply String.eqb_eq in E. subst. tauto.
  - rewrite String.eqb_eq. apply String.eqb_neq in E. split.
    + intros ->. auto.
    + intros [H|[H|H]]; inversion H; congruence.
Qed.

Lemma status_roundtrip s st :
  status_of_string s = Some st <-> s = string_of_status st.
Proof.
  unfold status_of_string. split.
  - intros H.
    repeat match type of H with
           | (if String.eqb ?a ?b then _ else _) = _ =>
               let E := fresh "E" in
               destruct (String.eqb a b) eqn:E;
               [apply String.eqb_eq in E; inversion H; subst; reflexivity|]
           end.
    discriminate.
  - intros ->. destruct st; reflexivity.
Qed.

Lemma status_clause f st g :
  status_condition f = Pg.Ok st ->
  match st with Some s => status_eqb (g_status g) s | None => true end = true
  <-> no_filter (f_status f) \/ f_status f = Some (string_of_status (g_status g)).
Proof.
  unfold status_condition. destruct (active (f_status f)) eqn:A.
  - destruct (f_status f) as [s|] eqn:Fs; [|discriminate].
    destruct (status_of_string s) as [x|] eqn:Sx; [|discriminate].
    intros H. inversion H; subst; clear H. apply status_roundtrip in Sx.
    rewrite status_eqb_eq. split.
    + intros ->. right. now subst.
    + intros [H|H].
      * apply active_false_iff in H. congruence.
      * inversion H. subst s. destruct (g_status g), x; simpl in *; congruence.
  - intros H. inversion H; subst. apply active_false_iff in A. tauto.
Qed.

Lemma search_clause o g :
  match o with
  | Some s =>
      if JS.truthy s then
        Pg.ilike (g_title g) (searchTerm s)
        || Pg.ilike (g_description g) (searchTerm s)
        || Pg.ilike_null (g_location g) (searchTerm s)
      else true
  | None => true
  end = true
  <-> search_condition o g.
Proof.
  unfold search_condition. destruct o as [s|]; [|tauto].
  unfold JS.truthy. destruct (String.eqb s "") eqn:E; simpl.
  - apply String.eqb_eq in E. tauto.
  - apply String.eqb_neq in E. rewrite !orb_true_iff. tauto.
Qed.

Lemma conditions_iff f st g :
  status_condition f = Pg.Ok st ->
  conditions f st g = true
  <-> (no_filter (f_category f) \/ f_category f = Some (g_category g))
      /\ (no_filter (f_municipality f) \/ f_municipality f = Some (g_municipality g))
      /\ (no_filter (f_status f) \/ f_status f = Some (string_of_status (g_status g)))
      /\ (f_authorId f = None \/ f_authorId f = Some "" \/ f_authorId f = Some (g_authorId g))
      /\ search_condition (f_search f) g.
Proof.
  intros Hst. unfold conditions.
  rewrite !andb_true_iff, !field_clause, (status_clause f st g Hst),
    author_clause, search_clause.
  tauto.
Qed.

Lemma search_plain s g :
  s <> "" -> plain_text s = true ->
  search_condition (Some s) g
  <-> occurs_ci s (g_title g) \/ occurs_ci s (g_description g)
      \/ exists loc, g_location g = Some loc /\ occurs_ci s loc.
Proof.
  intros Hs Hp. unfold search_condition.
  rewrite !(ilike_searchTerm s) by exact Hp. split.
  - intros [H|[H|[H|H]]]; auto; [contradiction|].
    destruct (g_location g) as [loc|]; simpl in H; [|discriminate].
    apply (ilike_searchTerm s) in H; eauto.
  - intros [H|[H|(loc & E & H)]]; auto.
    right. right. right. rewrite E. simpl. now apply ilike_searchTerm.
Qed.

Lemma filter_none_of {A} (c : A -> bool) (l : list A) :
  (forall x, In x l -> c x = false) -> filter c l = [].
Proof.
  induction l as [|a l IH]; simpl; intros H; auto.
  rewrite (H a) by auto. auto.
Qed.

Lemma joined_one us g :
  NoDup (map u_id us) -> map row_g (left_join_users us g) = [g].
Proof.
  unfold left_join_users. intros N.
  induction us as [|u us IH]; simpl; auto.
  inversion N as [|x l Hn N']; subst.
  destruct (String.eqb (g_authorId g) (u_id u)) eqn:E.
  - apply String.eqb_eq in E. simpl. f_equal.
    rewrite filter_none_of; auto.
    intros w Hw. apply String.eqb_neq. intros E'. apply Hn.
    rewrite <- E, E'. now apply in_map.
  - auto.
Qed.

Lemma joined_all us gs :
  NoDup (map u_id us) ->
  map row_g (flat_map (left_join_users us) gs) = gs.
Proof.
  intros N. induction gs as [|g gs IH]; simpl; auto.
  now rewrite map_app, joined_one, IH.
Qed.

Lemma getGrievances_bad_status srt f db s :
  f_status f = Some s -> s <> "" -> s <> "all" -> status_of_string s = None ->
  getGrievances srt f db = Pg.Throw Pg.invalid_text_representation.
Proof.
  intros Hs H1 H2 Hn. unfold getGrievances, status_condition.
  assert (A : active (f_status f) = true).
  { rewrite Hs. unfold active. apply andb_true_iff. split.
    - now apply truthy_iff.
    - apply negb_true_iff. now apply String.eqb_neq. }
  now rewrite A, Hs, Hn.
Qed.

Lemma getGrievances_rows srt f db st rows total :
  order_by_contract srt ->
  status_condition f = Pg.Ok st ->
  getGrievances srt f db = Pg.Ok (rows, total) ->
  JS.truthy_num (f_limit f) = false -> JS.truthy_num (f_offset f) = false ->
  (forall g, In g (map row_g rows)
             <-> In g (grievances db) /\ conditions f st g = true)
  /\ (NoDup (map u_id (users db)) ->
      Permutation (map row_g rows) (filter (conditions f st) (grievances db))).
Proof.
  intros C Hst H L O.
  destruct (getGrievances_sorted srt f db rows total C H) as [_ P].
  destruct (P L O) as (st' & Hst' & Pm). rewrite Hst in Hst'.
  inversion Hst'; subst st'; clear Hst'. split.
  - intros g. split.
    + intros Hg. apply in_map_iff in Hg as (r & <- & Hr).
      apply (Permutation_in _ (Permutation_sym Pm)) in Hr.
      apply filter_In in Hr as [Hr Cr]. split; auto.
      apply (in_joined (users db)). now apply in_map.
    + intros [Hg Cg]. apply (in_joined (users db)) in Hg.
      apply in_map_iff in Hg as (r & <- & Hr). apply in_map.
      apply (Permutation_in _ Pm). apply filter_In. auto.
  - intros N. eapply perm_trans.
    + apply Permutation_map, Permutation_sym, Pm.
    + rewrite <- (joined_all (users db) (grievances db) N) at 2.
      rewrite filter_map_comm. apply Permutation_refl.
Qed.


(** ** The total and the page *)

Lemma conditions_satisfies f st g :
  status_condition f = Pg.Ok st ->
  conditions f st g = true <-> satisfies_filters f g.
Proof. intros H. unfold satisfies_filters. now apply conditions_iff. Qed.


(** C3 (amended). The total of the grievance query is the number of
    stored grievances that satisfy the filters, whatever the page, for
    every query that the server accepts: for filters whose status is no
    filter or one of the five labels, any two choices of limit and
    offset with the offset absent or from 0 to the largest bigint and
    the limit absent or at most the largest bigint (a negative limit is
    left out of the query, which then returns every row), and, under
    the two vote orders, stored net votes that fit a 32-bit integer,
    [getGrievances] returns both times with the same total, the number
    of the grievances that satisfy the filters: each field filter is
    absent, empty, 'all' or the value of the field, and the search text
    is absent, empty or matched; for a text without %, _ and backslash,
    matched means that it occurs, letter case aside, in the title, the
    description or the location.  On the sample data the category
    "roads" has total 1 with limit 1 and with limit 100, and so has
    the category "roads" with the search text "MAIN". *)
Theorem total_ignores_pagination :
  forall srt f db limit1 offset1 limit2 offset2,
    status_filter_ok f ->
    page_ok limit1 offset1 ->
    page_ok limit2 offset2 ->
    net_votes_fit f db ->
    (exists (matching : Grievance -> bool) rows1 rows2,
       (forall g, matching g = true <-> satisfies_filters f g)
       /\ (forall s g,
             f_search f = Some s -> s <> "" -> plain_text s = true ->
             (search_condition (f_search f) g
              <-> occurs_ci s (g_title g) \/ occurs_ci s (g_description g)
                  \/ exists loc, g_location g = Some loc /\ occurs_ci s loc))
       /\ getGrievances srt (with_page f limit1 offset1) db
          = Pg.Ok (rows1, Z.of_nat (List.length (filter matching (grievances db))))
       /\ getGrievances srt (with_page f limit2 offset2) db
          = Pg.Ok (rows2, Z.of_nat (List.length (filter matching (grievances db)))))
    /\ (exists rows1 rows2,
          getGrievances srt (with_page Sample.roads_only (Some 1) (Some 0)) Example.db0
          = Pg.Ok (rows1, 1)
          /\ getGrievances srt (with_page Sample.roads_only (Some 100) (Some 0))
                           Example.db0
             = Pg.Ok (rows2, 1))
    /\ (exists rows1 rows2,
          getGrievances srt (with_page Example.roads_main (Some 1) (Some 0)) Example.db0
          = Pg.Ok (rows1, 1)
          /\ getGrievances srt (with_page Example.roads_main (Some 100) (Some 0))
                           Example.db0
             = Pg.Ok (rows2, 1)).
Proof.
  intros srt f db l1 o1 l2 o2 Hs P1 P2 Hn. split; [|split].
  - destruct (status_condition_total f Hs) as (st & Hst).
    exists (conditions f st).
    destruct (page_window_total (with_page f l1 o1) P1) as (w1 & W1).
    destruct (page_window_total (with_page f l2 o2) P2) as (w2 & W2).
    eexists. eexists. split; [intros g; now apply conditions_satisfies|].
    split; [intros s g Es Hne Hp; rewrite Es; now apply search_plain|].
    unfold getGrievances.
    change (status_condition (with_page f l1 o1)) with (status_condition f).
    change (status_condition (with_page f l2 o2)) with (status_condition f).
    rewrite Hst, W1, W2. simpl.
    change (f_sortBy (with_page f l1 o1)) with (f_sortBy f).
    change (f_sortBy (with_page f l2 o2)) with (f_sortBy f).
    change (conditions (with_page f l1 o1)) with (conditions f).
    change (conditions (with_page f l2 o2)) with (conditions f).
    rewrite (sort_keys_ok f db) by exact Hn. simpl. split; reflexivity.
  - eexists. eexists. split; reflexivity.
  - eexists. eexists. split; reflexivity.
Qed.

(** Counterexample to C3 as stated (every two choices of limit and
    offset): with the same filters, limit 1 and offset 0 return the
    total 2, and limit 1 and offset -1 return no total: the server
    refuses the negative OFFSET and the handler answers 500.  A status
    filter that is no label fails the count itself. *)
Lemma negative_offset_returns_no_total :
  (forall srt,
     getGrievances srt (with_page Example.no_filters (Some 1) (Some (-1))) Example.db0
     = Pg.Throw Pg.invalid_row_count_in_result_offset_clause)
  /\ getGrievances stable_sort (with_page Example.no_filters (Some 1) (Some 0)) Example.db0
     = Pg.Ok ([mkRow Example.burst_pipe (Some "bob")], 2)
  /\ get_grievances stable_sort Example.as_alice None None None None None
       (Some 1) (Some (-1)) Example.db0
     = reply_error 500 "Failed to get grievances"
  /\ get_grievances stable_sort Example.as_alice None None (Some "bogus") None None
       (Some 1) (Some 0) Example.db0
     = reply_error 500 "Failed to get grievances".
Proof. repeat split. Qed.

(** ** The order *)



(** C6 (amended). The filter of the grievance query.  A category,
    municipality or status filter that is absent, empty or the sentinel
    'all' puts no constraint on its field; any other value requires the
    field to equal it, and for the status it must be one of the five
    status labels, or the query fails.  The author filter constrains
    when it is non-empty.  A non-empty search text selects a grievance
    when the pattern %text% matches its title, its description or its
    location under ILIKE; for a text without the characters %, _ and
    backslash that is: the text occurs, letter case aside, in one of the
    three.  Without limit and offset the returned rows are exactly the
    stored grievances that satisfy all these conditions, for every sort
    that honours ORDER BY. *)
Theorem getGrievances_filter :
  forall srt,
    order_by_contract srt ->
    forall f db,
      (forall s, f_status f = Some s -> s <> "" -> s <> "all" ->
                 status_of_string s = None ->
                 getGrievances srt f db = Pg.Throw Pg.invalid_text_representation)
      /\ (forall st,
            status_condition f = Pg.Ok st ->
            (forall g,
               conditions f st g = true
               <-> (no_filter (f_category f) \/ f_category f = Some (g_category g))
                   /\ (no_filter (f_municipality f)
                       \/ f_municipality f = Some (g_municipality g))
                   /\ (no_filter (f_status f)
                       \/ f_status f = Some (string_of_status (g_status g)))
                   /\ (f_authorId f = None \/ f_authorId f = Some ""
                       \/ f_authorId f = Some (g_authorId g))
                   /\ search_condition (f_search f) g)
            /\ (forall s g,
                  f_search f = Some s -> s <> "" -> plain_text s = true ->
                  (search_condition (f_search f) g
                   <-> occurs_ci s (g_title g) \/ occurs_ci s (g_description g)
                       \/ exists loc, g_location g = Some loc /\ occurs_ci s loc))
            /\ (forall rows total,
                  getGrievances srt f db = Pg.Ok (rows, total) ->
                  JS.truthy_num (f_limit f) = false ->
                  JS.truthy_num (f_offset f) = false ->
                  (forall g, In g (map row_g rows)
                             <-> In g (grievances db) /\ conditions f st g = true)
                  /\ (NoDup (map u_id (users db)) ->
                      Permutation (map row_g rows)
                                  (filter (conditions f st) (grievances db))))).
Proof.
  intros srt C f db. split.
  - intros s. apply getGrievances_bad_status.
  - intros st Hst. split; [|split].
    + intros g. now apply conditions_iff.
    + intros s g Hs Hne Hp. rewrite Hs. now apply search_plain.
    + intros rows total H L O. now apply (getGrievances_rows srt f db st rows total).
Qed.

(** Counterexample to C6 as stated (only 'all' and absence lift a
    constraint): the request [?category=] carries an empty category; no
    stored grievance has the empty category, and the query still returns
    the pothole, whose category is "roads". *)
Lemma empty_filter_value_is_no_constraint :
  f_category Example.empty_category = Some ""
  /\ claimed_field_filter (f_category Example.empty_category)
                          (g_category Example.pothole) = false
  /\ getGrievances stable_sort Example.empty_category Example.db0
     = Pg.Ok ([mkRow Example.burst_pipe (Some "bob");
               mkRow Example.pothole (Some "alice")], 2).
Proof. repeat split. Qed.

(** The same for the search text: [?search=_] selects the pothole, in
    whose title, description and location no underscore occurs. *)
Lemma search_wildcard_is_not_literal :
  ~ occurs_ci "_" (g_title Example.pothole)
  /\ ~ occurs_ci "_" (g_description Example.pothole)
  /\ ~ occurs_ci "_" "Main Street"
  /\ getGrievances stable_sort Example.search_underscore Example.db0
     = Pg.Ok ([mkRow Example.burst_pipe (Some "bob");
               mkRow Example.pothole (Some "alice")], 2).
Proof.
  assert (N : forall t, ~ In "_"%char (lowercase t) -> ~ occurs_ci "_" t).
  { intros t H (pre & post & E). apply H. rewrite E.
    apply in_or_app. right. now left. }
  repeat split; try apply N; simpl; intuition discriminate.
Qed.
(** * The admin page's priority score, in binary64 arithmetic *)

(** ** Signs through the IEEE operations

    Rounding never changes the sign of a result, so the sign of a
    product, a quotient or a difference is read from the signs of the
    operands. *)

Lemma shr_1_nonneg mrs : 0 <= shr_m mrs -> 0 <= shr_m (shr_1 mrs).
Proof.
  destruct mrs as [m r s]. simpl. destruct m as [|p|p]; simpl; try lia.
  destruct p; simpl; lia.
Qed.

Lemma iter_shr_1_nonneg p mrs :
  0 <= shr_m mrs -> 0 <= shr_m (iter_pos shr_1 p mrs).
Proof.
  revert mrs. induction p as [p IH|p IH|]; intros mrs H; simpl.
  - apply IH, IH. now apply shr_1_nonneg.
  - now apply IH, IH.
  - now apply shr_1_nonneg.
Qed.

Lemma shr_fexp_nonneg prec emax m e l :
  0 <= m -> 0 <= shr_m (fst (shr_fexp prec emax m e l)).
Proof.
  intros H. unfold shr_fexp, shr.
  assert (K : 0 <= shr_m (shr_record_of_loc m l))
    by (destruct l as [|[]]; simpl; exact H).
  destruct (fexp prec emax (Zdigits2 m + e) - e); simpl; auto.
  now apply iter_shr_1_nonneg.
Qed.

Lemma round_nearest_even_nonneg m l : 0 <= m -> 0 <= round_nearest_even m l.
Proof.
  intros H. unfold round_nearest_even. destruct l as [|[]]; auto; try lia.
  destruct (Z.even m); lia.
Qed.

Lemma binary_round_aux_sign prec emax s m e l :
  0 <= m -> SF_sign s (binary_round_aux prec emax s m e l).
Proof.
  intros H. unfold binary_round_aux.
  pose proof (shr_fexp_nonneg prec emax m e l H) as H1.
  destruct (shr_fexp prec emax m e l) as [mrs' e']. simpl in H1.
  pose proof (shr_fexp_nonneg prec emax
                (round_nearest_even (shr_m mrs') (loc_of_shr_record mrs')) e'
                loc_Exact (round_nearest_even_nonneg _ _ H1)) as H2.
  destruct (shr_fexp prec emax _ e' loc_Exact) as [mrs'' e'']. simpl in H2.
  destruct (shr_m mrs'') as [|p|p]; simpl; auto; try lia.
  destruct (e'' <=? emax - prec)%Z; reflexivity.
Qed.

Lemma binary_round_sign prec emax s m e :
  SF_sign s (binary_round prec emax s m e).
Proof.
  unfold binary_round. destruct (shl_align m e _) as [mz ez].
  apply binary_round_aux_sign. lia.
Qed.

Lemma SF_sign_nonneg x : SF_sign false x -> SF_nonneg x.
Proof. destruct x; simpl; auto. Qed.

Lemma SF_sign_nonpos x : SF_sign true x -> SF_nonpos x.
Proof. destruct x; simpl; auto. Qed.

Lemma binary_normalize_nonneg prec emax m e :
  0 <= m -> SF_nonneg (binary_normalize prec emax m e false).
Proof.
  intros H. destruct m as [|p|p]; simpl; auto; try lia.
  apply SF_sign_nonneg, binary_round_sign.
Qed.

Lemma of_uint63_nonneg n : SF_nonneg (Prim2SF (PrimFloat.of_uint63 n)).
Proof.
  rewrite of_uint63_spec. apply binary_normalize_nonneg.
  apply Uint63.to_Z_bounded.
Qed.

Lemma SFopp_nonneg x : SF_nonneg x -> SF_nonpos (SFopp x).
Proof. destruct x as [s|s| |s m e]; simpl; auto; intros ->; reflexivity. Qed.

Lemma f64_of_Z_nonneg z : 0 <= z -> SF_nonneg (Prim2SF (Admin.f64_of_Z z)).
Proof.
  intros H. unfold Admin.f64_of_Z.
  assert (E : (z <? 0)%Z = false) by (apply Z.ltb_ge; exact H).
  rewrite E. apply of_uint63_nonneg.
Qed.

Lemma f64_of_Z_nonpos z : z <= 0 -> SF_nonpos (Prim2SF (Admin.f64_of_Z z)).
Proof.
  intros H. unfold Admin.f64_of_Z. destruct (z <? 0)%Z eqn:E.
  - rewrite opp_spec. apply SFopp_nonneg, of_uint63_nonneg.
  - apply Z.ltb_ge in E. assert (z = 0) by lia. subst z. exact I.
Qed.

Lemma SFmul_nonpos x my ey :
  SF_nonpos x -> SF_nonpos (SF64mul x (S754_finite false my ey)).
Proof.
  destruct x as [s|s| |s m e]; simpl; auto.
  - intros ->. reflexivity.
  - intros ->. apply SF_sign_nonpos. apply binary_round_aux_sign. lia.
Qed.

Lemma SFmul_nonneg x my ey :
  SF_nonneg x -> SF_nonneg (SF64mul x (S754_finite false my ey)).
Proof.
  destruct x as [s|s| |s m e]; simpl; auto.
  - intros ->. reflexivity.
  - intros ->. apply SF_sign_nonneg. apply binary_round_aux_sign. lia.
Qed.

Lemma SFdiv_nonneg x my ey :
  SF_nonneg x -> SF_nonneg (SF64div x (S754_finite false my ey)).
Proof.
  destruct x as [s|s| |s m e]; simpl; auto.
  - intros ->. reflexivity.
  - intros ->. unfold SF64div, SFdiv.
    destruct (SFdiv_core_binary prec emax (Z.pos m) e (Z.pos my) ey)
      as [[mz ez] lz] eqn:D.
    apply SF_sign_nonneg. apply binary_round_aux_sign.
    unfold SFdiv_core_binary in D.
    set (m' := match _ - _ - _ with Z.pos _ => _ | Z0 => _ | Z.neg _ => _ end) in D.
    assert (Hm : 0 <= m').
    { unfold m'. destruct (_ - _ - _); try lia. apply Z.shiftl_nonneg. lia. }
    pose proof (Z_div_mod m' (Z.pos my) ltac:(lia)) as Q.
    destruct (Z.div_eucl m' (Z.pos my)) as [q r]. inversion D; subst.
    destruct Q as [Q1 Q2]. nia.
Qed.

Lemma f64_floor_nonneg x :
  SF_nonneg (Prim2SF x) -> SF_nonneg (Prim2SF (Admin.f64_floor x)).
Proof.
  unfold Admin.f64_floor.
  destruct (Prim2SF x) as [s|s| |s m e] eqn:E; intros H;
    try (rewrite E; exact H).
  destruct (0 <=? e)%Z eqn:Ee; [rewrite E; exact H|].
  simpl in H. subst s. apply f64_of_Z_nonneg.
  apply Z.leb_gt in Ee. apply Z.div_pos; [lia|].
  apply Z.pow_pos_nonneg; lia.
Qed.

Lemma SFsub_nonpos x y :
  SF_nonpos x -> SF_nonneg y -> SF_nonpos (SF64sub x y).
Proof.
  destruct x as [sx|sx| |sx mx ex], y as [sy|sy| |sy my ey]; simpl;
    try tauto; intros Hx Hy; subst; simpl; auto.
  - destruct sx, sy; exact I.
  - apply SF_sign_nonpos.
    destruct (shl_align mx ex (Z.min ex ey)) as [a ea].
    destruct (shl_align my ey (Z.min ex ey)) as [b eb]. simpl.
    apply binary_round_sign.
Qed.

Lemma SFeqb_refl x : x <> S754_nan -> SFeqb x x = true.
Proof.
  unfold SFeqb. destruct x as [s|s| |s m e]; simpl; auto; try congruence.
  - destruct s; reflexivity.
  - intros _. rewrite Z.compare_refl, Pos.compare_cont_refl.
    destruct s; reflexivity.
Qed.

Lemma f64_max0_nonpos x :
  SF_nonpos (Prim2SF x) -> Admin.f64_max0 x = 0%float.
Proof.
  intros H. unfold Admin.f64_max0, PrimFloat.is_nan.
  rewrite eqb_spec, ltb_spec.
  rewrite SFeqb_refl by (intros E; rewrite E in H; exact H). simpl.
  change (Prim2SF 0) with (S754_zero false).
  destruct (Prim2SF x) as [s|s| |s m e]; simpl in *; try tauto; subst; reflexivity.
Qed.

Lemma positive_constants :
  (exists m e, Prim2SF 1 = S754_finite false m e)
  /\ (exists m e, Prim2SF 2 = S754_finite false m e)
  /\ (exists m e, Prim2SF 24 = S754_finite false m e)
  /\ (exists m e, Prim2SF Admin.tenth = S754_finite false m e)
  /\ (exists m e, Prim2SF (Admin.f64_of_Z (1000 * 60 * 60)) = S754_finite false m e).
Proof. repeat split; eexists; eexists; vm_compute; reflexivity. Qed.
(** ** The priority score *)

Lemma ageHours_nonneg now g :
  g_timestamp g <= now -> SF_nonneg (Prim2SF (Admin.ageHours now g)).
Proof.
  intros H. unfold Admin.ageHours. rewrite div_spec.
  destruct positive_constants as (_ & _ & _ & _ & (m & e & E)).
  rewrite E. apply SFdiv_nonneg, f64_of_Z_nonneg. lia.
Qed.

Lemma agePenalty_nonneg now g :
  g_timestamp g <= now ->
  SF_nonneg (Prim2SF (PrimFloat.mul
               (Admin.f64_floor (PrimFloat.div (Admin.ageHours now g) 24))
               Admin.tenth)).
Proof.
  intros H. rewrite mul_spec.
  destruct positive_constants as (_ & _ & (m24 & e24 & E24) & (mt & et & Et) & _).
  rewrite Et. apply SFmul_nonneg, f64_floor_nonneg.
  rewrite div_spec, E24. apply SFdiv_nonneg. now apply ageHours_nonneg.
Qed.

Lemma score_clamped now g :
  g_upvotes g - g_downvotes g <= 0 -> g_timestamp g <= now ->
  Admin.getPriorityScore now g = 0%float.
Proof.
  intros Hn Ha. unfold Admin.getPriorityScore.
  apply f64_max0_nonpos. rewrite sub_spec.
  apply SFsub_nonpos; [|now apply agePenalty_nonneg].
  rewrite mul_spec.
  destruct positive_constants as ((m1 & e1 & E1) & (m2 & e2 & E2) & _).
  destruct (status_eqb (g_status g) urgent).
  - rewrite E2. now apply SFmul_nonpos, f64_of_Z_nonpos.
  - rewrite E1. now apply SFmul_nonpos, f64_of_Z_nonpos.
Qed.

Lemma urgentMultiplier_cases (s : grievance_status) :
  (s = urgent /\ (if status_eqb s urgent then 2%float else 1%float) = 2%float)
  \/ (s <> urgent /\ (if status_eqb s urgent then 2%float else 1%float) = 1%float).
Proof. destruct s; simpl; (left; split; [reflexivity|reflexivity]) || (right; split; [discriminate|reflexivity]). Qed.

(** C4 (amended). In the browser's binary64 arithmetic the priority
    score is max(0, (upvotes - downvotes) * urgentMultiplier -
    agePenalty) with urgentMultiplier 2 exactly for status urgent and 1
    otherwise, agePenalty floor(ageInHours / 24) * 0.1 and ageInHours
    the elapsed milliseconds divided by 3600000; floor and max are the
    ones of [Math] (a day not yet complete is not counted, a negative
    difference yields 0); 5 up, 2 down, urgent and 48 hours old scores
    5.8, and still 5.8 one millisecond before 72 hours, then 5.7; 3 up,
    1 down, not urgent and 7 days old scores 1.2999999999999998, the
    double that 2 - 7 * 0.1 rounds to; and a grievance with non-positive
    net votes whose timestamp is not later than the time of scoring
    scores 0, whatever its status and age. *)
Theorem priority_score :
  forall now g,
    (exists m : float,
       ((g_status g = urgent /\ m = 2%float) \/ (g_status g <> urgent /\ m = 1%float))
       /\ Admin.ageHours now g
          = PrimFloat.div (Admin.f64_of_Z (now - g_timestamp g)) 3600000
       /\ Admin.getPriorityScore now g
          = Admin.f64_max0
              (PrimFloat.sub
                 (PrimFloat.mul (Admin.f64_of_Z (g_upvotes g - g_downvotes g)) m)
                 (PrimFloat.mul
                    (Admin.f64_floor (PrimFloat.div (Admin.ageHours now g) 24))
                    0.1)))
    /\ (Admin.f64_of_Z 3 = 3%float /\ Admin.f64_of_Z (-2) = (-2)%float
        /\ Admin.f64_floor 2.75 = 2%float /\ Admin.f64_floor (-0.25) = (-1)%float
        /\ Admin.f64_floor 7 = 7%float
        /\ Admin.f64_max0 5.8 = 5.8%float /\ Admin.f64_max0 (-4.3) = 0%float)
    /\ Admin.getPriorityScore (Example.hours 48) Example.scenario = 5.8%float
    /\ Admin.getPriorityScore (Example.hours 72 - 1) Example.scenario = 5.8%float
    /\ Admin.getPriorityScore (Example.hours 72) Example.scenario = 5.7%float
    /\ Admin.getPriorityScore (Example.hours 168) Example.contested
       = 1.2999999999999998%float
    /\ (g_upvotes g - g_downvotes g <= 0 -> g_timestamp g <= now ->
        Admin.getPriorityScore now g = 0%float).
Proof.
  intros now g.
  assert (E : Admin.f64_of_Z (1000 * 60 * 60) = 3600000%float)
    by (vm_compute; reflexivity).
  split; [|split; [|split; [|split; [|split; [|split]]]]].
  - exists (if status_eqb (g_status g) urgent then 2%float else 1%float).
    split; [|split].
    + destruct (urgentMultiplier_cases (g_status g)) as [[H1 H2]|[H1 H2]].
      * left. split; [exact H1|exact H2].
      * right. split; [exact H1|exact H2].
    + unfold Admin.ageHours. now rewrite E.
    + reflexivity.
  - repeat split; vm_compute; reflexivity.
  - vm_compute. reflexivity.
  - vm_compute. reflexivity.
  - vm_compute. reflexivity.
  - vm_compute. reflexivity.
  - apply score_clamped.
Qed.

(** Counterexample to C4 as stated (non-positive net votes score 0 at
    any age): a grievance without votes, stamped by the server one
    second after the browser's clock, has a negative age; the floor is
    -1, the penalty -0.1 and the score 0.1. *)
Lemma future_timestamp_scores_above_zero :
  g_upvotes Example.just_filed - g_downvotes Example.just_filed <= 0
  /\ Admin.f64_floor (PrimFloat.div (Admin.ageHours 0 Example.just_filed) 24)
     = (-1)%float
  /\ Admin.getPriorityScore 0 Example.just_filed = 0.1%float
  /\ Admin.getPriorityScore 0 Example.just_filed <> 0%float
  /\ PrimFloat.ltb 0 (Admin.getPriorityScore 0 Example.just_filed) = true.
Proof.
  split; [simpl; lia|]. split; [vm_compute; reflexivity|].
  split; [vm_compute; reflexivity|]. split; [|vm_compute; reflexivity].
  intros H. apply (f_equal Prim2SF) in H. vm_compute in H. discriminate H.
Qed.

(** ** The theorems at the sample data *)

Lemma db0_constraints : constraints_hold Example.db0 = true.
Proof. reflexivity. Qed.

Lemma db0_counters : counter_invariant Example.db0.
Proof.
  split.
  - intros g [<-|[<-|[]]]; split; reflexivity.
  - intros c [<-|[]]; reflexivity.
Qed.

(** alice, who has upvoted the pothole, votes down: her row is flipped. *)
Lemma grievance_vote_toggle_witness :
  exists db',
    post_grievance_vote 5000 Example.as_alice "g-1" (Some "down") Example.db0
    = (mkResponse 200 (VoteBody 0 1 (Some "down")), db')
    /\ user_votes db' = [mkUserVote 0 "u-alice" (Some "g-1") None "down" 5000].
Proof.
  destruct (grievance_vote_toggle 5000 Example.as_alice "u-alice" "g-1" "down"
              Example.db0 (mkRow Example.pothole (Some "alice")))
    as [(db' & ups & downs & uv & H1 & H2 & H3 & _ & _ & H4) _];
    [reflexivity | reflexivity | reflexivity | discriminate
    | right; reflexivity | reflexivity |].
  exists db'.
  change (getUserVote "u-alice" (Some "g-1") None Example.db0)
    with (Some Example.alice_up) in H4.
  destruct H4 as (_ & _ & l1 & l2 & E & H4).
  change (String.eqb (v_voteType Example.alice_up) "down") with false in H4.
  destruct H4 as [Ev ->].
  destruct l1 as [|x l1]; [|destruct l1; discriminate E].
  injection E as <-. rewrite Ev in H2, H3. simpl in Ev.
  rewrite H1, Ev. split; [|reflexivity].
  now rewrite H2, H3.
Defined.

(** bob votes on the pothole, in a database whose counters agree with
    the vote rows. *)
Lemma vote_counter_invariant_witness :
  constraints_hold
    (snd (post_grievance_vote 5000 Example.as_bob "g-1" (Some "up") Example.db0)) = true
  /\ counter_invariant
       (snd (post_grievance_vote 5000 Example.as_bob "g-1" (Some "up") Example.db0)).
Proof.
  refine (proj2 (proj1 (proj2 (proj2
    (vote_counter_invariant 5000 Example.as_bob "g-1" (Some "up") Example.db0
       (fst (post_grievance_vote 5000 Example.as_bob "g-1" (Some "up") Example.db0))
       (snd (post_grievance_vote 5000 Example.as_bob "g-1" (Some "up") Example.db0))
       _))) _) _ _).
  - discriminate.
  - reflexivity.
  - reflexivity.
  - exact db0_counters.
Defined.

(** The pages of the specification, limit 1 and limit 100 at offset 0,
    for [?category=roads&search=MAIN]: the pothole is the one match. *)
Lemma total_ignores_pagination_witness :
  exists rows1 rows2,
    getGrievances stable_sort (with_page Example.roads_main (Some 1) (Some 0)) Example.db0
    = Pg.Ok (rows1, 1)
    /\ getGrievances stable_sort (with_page Example.roads_main (Some 100) (Some 0)) Example.db0
       = Pg.Ok (rows2, 1).
Proof.
  destruct (total_ignores_pagination stable_sort Example.roads_main Example.db0
              (Some 1) (Some 0) (Some 100) (Some 0))
    as [(matching & rows1 & rows2 & M & _ & R1 & R2) _].
  - left. left. reflexivity.
  - split; intros n H; inversion H; subst; unfold Pg.bigint_max; lia.
  - split; intros n H; inversion H; subst; unfold Pg.bigint_max; lia.
  - intros [H|H]; discriminate H.
  - exists rows1, rows2. rewrite R1, R2.
    assert (K1 : matching Example.pothole = true).
    { apply M.
      split; [right; reflexivity|]. split; [left; left; reflexivity|].
      split; [left; left; reflexivity|]. split; [left; reflexivity|].
      right. left. reflexivity. }
    assert (K2 : matching Example.burst_pipe = false).
    { destruct (matching Example.burst_pipe) eqn:E; [|reflexivity].
      apply M in E. destruct E as [[[H|[H|H]]|H] _]; discriminate H. }
    simpl. rewrite K1, K2. split; reflexivity.
Defined.


Lemma db0_users_key : NoDup (map u_id (users Example.db0)).
Proof. repeat constructor; simpl; intuition discriminate. Qed.

Lemma getGrievances_filter_witness :
  Permutation
    (map row_g [mkRow Example.pothole (Some "alice")])
    (filter (conditions Example.roads_main None) (grievances Example.db0)).
Proof.
  refine (proj2 (proj2 (proj2 (proj2
    (getGrievances_filter stable_sort stable_sort_contract
       Example.roads_main Example.db0) None _))
    [mkRow Example.pothole (Some "alice")] 1 _ _ _) _).
  - reflexivity.
  - reflexivity.
  - reflexivity.
  - reflexivity.
  - exact db0_users_key.
Defined.

(** bob is neither the author of the pothole nor an admin; carol is an
    admin; a body with a timestamp member fails also for her. *)
Lemma patch_grievance_permission_witness :
  patch_grievance 5000 Example.as_bob "g-1" (Example.set_status "resolved") Example.db0
  = (json_error 403 "Permission denied", Example.db0)
  /\ patch_grievance 5000 Example.as_carol "g-1" Sample.status_and_timestamp
       Example.db0
     = (json_error 500 "Failed to update grievance", Example.db0)
  /\ exists g db',
       patch_grievance 5000 Example.as_carol "g-1" (Example.set_status "resolved")
                       Example.db0
       = (mkResponse 200 (GrievanceBody (Some g)), db')
       /\ g_id g = "g-1" /\ g_status g = resolved
       /\ (forall x, In x (grievances db') -> g_id x = "g-1" -> g_status x = resolved).
Proof.
  split; [|split].
  - apply (proj1 (patch_grievance_permission 5000 Example.as_bob "u-bob" "g-1"
                    (Example.set_status "resolved") Example.db0
                    (mkRow Example.pothole (Some "alice")) eq_refl eq_refl)).
    reflexivity.
  - apply (proj1 (proj2 (patch_grievance_permission 5000 Example.as_carol "u-carol"
                    "g-1" Sample.status_and_timestamp Example.db0
                    (mkRow Example.pothole (Some "alice")) eq_refl eq_refl)
             eq_refl)).
    left. discriminate.
  - destruct (proj2 (proj2 (patch_grievance_permission 5000 Example.as_carol
                    "u-carol" "g-1" (Example.set_status "resolved") Example.db0
                    (mkRow Example.pothole (Some "alice")) eq_refl eq_refl)
             eq_refl) eq_refl
             ltac:(intros n H; discriminate H) ltac:(intros n H; discriminate H)
             "resolved" resolved eq_refl eq_refl eq_refl)
      as (g & db' & H1 & H2 & H3 & H4 & _).
    exists g, db'. auto.
Defined.

(** Counterexample to C7 as stated (status changes are for admins
    only): alice, a citizen and the author of the pothole, sends a
    PATCH with status "resolved"; the answer is 200 and the stored
    status, pending before, is resolved. *)
Lemma author_changes_status :
  s_userType Example.as_alice = Some "citizen"
  /\ g_authorId Example.pothole = "u-alice"
  /\ g_status Example.pothole = pending
  /\ patch_grievance 5000 Example.as_alice "g-1" (Example.set_status "resolved")
                     Example.db0
     = (mkResponse 200
          (GrievanceBody
             (Some (apply_updates (Example.set_status "resolved") (Some resolved)
                                  5000 Example.pothole))),
        set_grievances Example.db0
          [apply_updates (Example.set_status "resolved") (Some resolved)
                         5000 Example.pothole;
           Example.burst_pipe])
  /\ g_status (apply_updates (Example.set_status "resolved") (Some resolved)
                             5000 Example.pothole) = resolved.
Proof. repeat split. Qed.

(** alice's upvote on the pothole is stored; the insert of a second
    vote by her on it hits the unique index. *)
Lemma createOrUpdateVote_conflict_recovery_witness :
  exists row db',
    createOrUpdateVote (mkInsertUserVote "u-alice" (Some "g-1") None "down")
                       5000 Example.db0
    = Pg.Ok (Some row, db')
    /\ v_voteType row = "down"
    /\ List.length (user_votes db') = List.length (user_votes Example.db0)
    /\ constraints_hold db' = true.
Proof.
  destruct (createOrUpdateVote_conflict_recovery
              (mkInsertUserVote "u-alice" (Some "g-1") None "down") 5000 Example.db0)
    as (l1 & v & l2 & row & db' & _ & _ & _ & _ & H1 & _ & H2 & _ & H3 & _ & _ & _ & _ & H4);
    [reflexivity | discriminate | reflexivity |].
  exists row, db'. auto.
Defined.

(** No comment "c-404" is stored. *)
Lemma comment_vote_on_missing_comment_witness :
  post_comment_vote 5000 Example.as_alice "c-404" (Some "up") Example.db0
  = (json_error 500 "Failed to process vote", Example.db0).
Proof.
  apply (comment_vote_on_missing_comment 5000 Example.as_alice "u-alice" "c-404" "up"
           Example.db0);
    [reflexivity | reflexivity | left; reflexivity | discriminate | reflexivity].
Defined.

(** 1 up, 3 down, urgent, three days old. *)
Lemma priority_score_witness :
  Admin.getPriorityScore (Example.hours 72) Example.unpopular = 0%float.
Proof.
  apply (proj2 (proj2 (proj2 (proj2 (proj2 (proj2
           (priority_score (Example.hours 72) Example.unpopular))))))).
  - vm_compute. discriminate.
  - vm_compute. discriminate.
Defined.

Lemma vote_frame_witness :
  exists g db',
    updateGrievance "g-1" (Example.set_status "resolved") 5000 Example.db0
    = Pg.Ok (Some g, db')
    /\ g_updatedAt g = 5000
    /\ g_updatedAt Example.pothole = 1000.
Proof.
  eexists. eexists. split; [reflexivity|]. split; [|reflexivity].
  apply (proj2 (proj2 (proj2
           (vote_frame 5000 Example.as_alice "g-1" None Example.db0))
           (Example.set_status "resolved") _ _ eq_refl) _ eq_refl).
Defined.

(** ** The scenarios of the specification, run *)

(** alice upvotes the pothole: counts 1/0 and userVote "up"; she then
    votes down: the same row becomes "down", counts 0/1; she votes down
    again: the row is removed, counts 0/0 and no vote. *)
Example vote_flip_scenario :
  let r1 := post_grievance_vote 1100 Example.as_alice "g-1" (Some "up") Example.db_fresh in
  let r2 := post_grievance_vote 1200 Example.as_alice "g-1" (Some "down") (snd r1) in
  let r3 := post_grievance_vote 1300 Example.as_alice "g-1" (Some "down") (snd r2) in
  fst r1 = mkResponse 200 (VoteBody 1 0 (Some "up"))
  /\ user_votes (snd r1) = [mkUserVote 0 "u-alice" (Some "g-1") None "up" 1100]
  /\ fst r2 = mkResponse 200 (VoteBody 0 1 (Some "down"))
  /\ user_votes (snd r2) = [mkUserVote 0 "u-alice" (Some "g-1") None "down" 1200]
  /\ fst r3 = mkResponse 200 (VoteBody 0 0 None)
  /\ user_votes (snd r3) = [].
Proof. repeat split. Qed.

(** The other answers of the grievance vote handler. *)
Example vote_refusals :
  fst (post_grievance_vote 1100 (mkSession None None) "g-1" (Some "up") Example.db0)
  = json_error 401 "Authentication required"
  /\ fst (post_grievance_vote 1100 Example.as_alice "g-1" (Some "sideways") Example.db0)
     = json_error 400 "Invalid vote type"
  /\ fst (post_grievance_vote 1100 Example.as_alice "g-404" (Some "up") Example.db0)
     = json_error 404 "Grievance not found".
Proof. repeat split. Qed.

(** A comment vote of kind down is accepted and stored; the comment has
    no counter for it. *)
Example comment_down_vote :
  let r := post_comment_vote 1600 Example.as_alice "c-1" (Some "down") Example.db0 in
  fst r = mkResponse 200 (CommentVoteBody (Some "down"))
  /\ comments (snd r) = [Example.remark]
  /\ user_votes (snd r)
     = [Example.alice_up;
        mkUserVote 1 "u-alice" None (Some "c-1") "down" 1600].
Proof. repeat split. Qed.

(** Limit 1 shows one row of two; limit 0 is falsy and shows both; a
    negative limit is left out of the query, which shows both. *)
Example pagination_cases :
  getGrievances stable_sort (with_page Example.no_filters (Some 1) None) Example.db0
  = Pg.Ok ([mkRow Example.burst_pipe (Some "bob")], 2)
  /\ getGrievances stable_sort (with_page Example.no_filters (Some 0) None) Example.db0
     = Pg.Ok ([mkRow Example.burst_pipe (Some "bob");
               mkRow Example.pothole (Some "alice")], 2)
  /\ getGrievances stable_sort (with_page Example.no_filters (Some (-1)) None) Example.db0
     = Pg.Ok ([mkRow Example.burst_pipe (Some "bob");
               mkRow Example.pothole (Some "alice")], 2).
Proof. repeat split. Qed.

(** Two grievances of the same instant, newest first: the stable sort
    returns them in the order of the table. *)
Example ties_under_stable_sort :
  getGrievances stable_sort Example.no_filters Example.db_tie
  = Pg.Ok ([mkRow Example.tie_a (Some "alice");
            mkRow Example.tie_b (Some "alice")], 2).
Proof. reflexivity. Qed.

(** The counters have a second writer: the author of the pothole sets
    its upvotes by PATCH, and the stored counter no longer agrees with
    the one vote row. *)
Example patch_writes_counters :
  let db' := snd (patch_grievance 5000 Example.as_alice "g-1"
                    (Example.set_upvotes 1000) Example.db0) in
  map g_upvotes (grievances db') = [1000; 0]
  /\ count_grievance_votes (Some "g-1") "up" db' = 1.
Proof. split; reflexivity. Qed.

(** * More properties of the vote store *)

(** What the toggle does for a target of either kind, by the stored
    vote of the user. *)
Lemma toggle_outcome U gid cid k now db :
  votes_unique (user_votes db) = true ->
  target_shape gid cid ->
  Pg.vote_type_check k = true ->
  (getUserVote U gid cid db = None -> Pg.references_ok db U gid cid = true) ->
  exists db1,
    toggle U gid cid k now db = Pg.Ok db1
    /\ match getUserVote U gid cid db with
       | None =>
           user_votes db1 = user_votes db ++ [mkUserVote (vote_seq db) U gid cid k now]
           /\ vote_seq db1 = S (vote_seq db)
           /\ getUserVote U gid cid db1 = Some (mkUserVote (vote_seq db) U gid cid k now)
       | Some v =>
           vote_seq db1 = vote_seq db
           /\ exists l1 l2,
               user_votes db = l1 ++ v :: l2
               /\ if String.eqb (v_voteType v) k
                  then user_votes db1 = l1 ++ l2
                       /\ getUserVote U gid cid db1 = None
                  else user_votes db1 = l1 ++ revote k now v :: l2
                       /\ getUserVote U gid cid db1 = Some (revote k now v)
       end.
Proof.
  intros Un Sh Ck Rf.
  destruct (target_shape_facts U gid cid Sh) as (Tc & Hg & Fc).
  set (c := Pg.collides U gid cid) in *.
  assert (Gu : forall d, getUserVote U gid cid d = hd_error (filter c (user_votes d)))
    by (intros d; unfold getUserVote; now rewrite (filter_ext _ _ Fc)).
  unfold toggle. destruct (getUserVote U gid cid db) as [v|] eqn:Ev.
  - rewrite Gu in Ev.
    destruct (unique_match c _ v Un) as (l1 & l2 & E & Cv & H1 & H2); auto.
    { intros a b. now apply colliding_rows_collide. }
    simpl. destruct (String.eqb (v_voteType v) k) eqn:Ek.
    + eexists. split; [reflexivity|]. split; [reflexivity|].
      exists l1, l2. split; auto.
      unfold removeVote. simpl.
      rewrite (filter_ext _ _ (fun x => f_equal negb (Fc x))).
      rewrite E, filter_remove_one by auto. split; auto.
      rewrite Gu. simpl. apply hd_filter_none.
      rewrite existsb_app, H1, H2. reflexivity.
    + assert (Hins : Pg.insert_user_vote (mkInsertUserVote U gid cid k) now db
                     = Pg.Throw Pg.unique_violation).
      { apply insert_collision; auto. simpl. fold c.
        rewrite E, existsb_app. simpl. rewrite Cv. apply orb_true_r. }
      destruct (createOrUpdateVote_fallback (mkInsertUserVote U gid cid k) now db
                  Un Hg Hins)
        as (m1 & w & m2 & E' & Cw & M1 & M2 & Run).
      simpl in Cw, M1, M2, Run. fold c in Cw, M1, M2.
      assert (w = v).
      { pose proof (hd_filter_decomp c m1 w m2 M1 Cw) as D.
        rewrite <- E', Ev in D. congruence. }
      subst w. rewrite Run. simpl. eexists. split; [reflexivity|].
      split; [reflexivity|].
      exists m1, m2. split; auto. simpl. split; auto.
      rewrite Gu. simpl. apply hd_filter_decomp; auto.
  - simpl. specialize (Rf eq_refl). rewrite Gu in Ev. apply hd_filter_none in Ev.
    unfold createOrUpdateVote. rewrite insert_ok; simpl; auto.
    eexists. split; [reflexivity|]. simpl. split; auto. split; auto.
    rewrite Gu. simpl. apply filter_nil_iff in Ev.
    rewrite filter_app, Ev. simpl.
    unfold c. now rewrite collides_self.
Qed.

Lemma existsb_id_in {A} (key : A -> string) (l : list A) (id : string) :
  existsb (fun x => String.eqb (key x) id) l = true
  <-> exists x, In x l /\ key x = id.
Proof.
  rewrite existsb_exists. split; intros (x & Hx & E); exists x; split; auto.
  - now apply String.eqb_eq.
  - now apply String.eqb_eq.
Qed.

(** X1. Toggle of [POST /api/comments/:id/vote] on a stored comment,
    for an authenticated user and a kind in up/down: without a vote of
    the user on the comment a row of that kind is appended; a stored
    vote of the same kind is removed; a stored vote of the other kind
    gets the new kind in place.  The answer is 200 with the resulting
    vote, and upvotes of the comment is the number of its up rows: a
    down vote is stored and never counted. *)
Theorem comment_vote_toggle :
  forall now sess U id k db,
    constraints_hold db = true ->
    requireAuth sess = inr U ->
    existsb (fun u => String.eqb (u_id u) U) (users db) = true ->
    id <> "" ->
    k = "up" \/ k = "down" ->
    existsb (fun c => String.eqb (c_id c) id) (comments db) = true ->
    exists db' userVote,
      post_comment_vote now sess id (Some k) db
      = (mkResponse 200 (CommentVoteBody userVote), db')
      /\ (forall c, In c (comments db') -> c_id c = id ->
            c_upvotes c = vote_rows (targets_comment id) "up" (user_votes db'))
      /\ grievances db' = grievances db
      /\ match getUserVote U None (Some id) db with
         | None =>
             user_votes db'
             = user_votes db ++ [mkUserVote (vote_seq db) U None (Some id) k now]
             /\ userVote = Some k
         | Some v =>
             exists l1 l2,
               user_votes db = l1 ++ v :: l2
               /\ if String.eqb (v_voteType v) k
                  then user_votes db' = l1 ++ l2 /\ userVote = None
                  else user_votes db'
                       = l1 ++ mkUserVote (v_id v) (v_userId v) (v_grievanceId v)
                                 (v_commentId v) k now :: l2
                       /\ userVote = Some k
         end.
Proof.
  intros now sess U id k db Hc Ha Hu Hid Hk Hex.
  destruct (valid_voteType_kind k Hk) as (Vk & Ck & Ok).
  apply constraints_split in Hc as [Un _].
  assert (Sh : target_shape None (Some id)) by (exists id; auto).
  destruct (toggle_outcome U None (Some id) k now db Un Sh Ck) as (db1 & Ht & Hcase).
  { intros _. unfold Pg.references_ok. now rewrite Hu, Hex. }
  destruct (toggle_frame _ _ _ _ _ _ _ Ht) as (_ & Eg & _).
  destruct (updateVoteCounts_votes None (Some id) db1) as (Ev & _ & _).
  destruct (updateVoteCounts_frame_comment id db1) as [Fg _].
  exists (updateVoteCounts None (Some id) db1),
    (JS.or_null (option_map v_voteType (getUserVote U None (Some id) db1))).
  split.
  { unfold post_comment_vote. rewrite Ha, Vk, Ht.
    unfold getUserVote. now rewrite Ev. }
  split.
  { intros c Hin Hcid.
    pose proof (updateVoteCounts_establishes_comment id db1 c Hid Hin Hcid) as K.
    unfold comment_counters_ok in K.
    now rewrite Hcid, count_comment_votes_rows in K. }
  split; [now rewrite Fg|].
  rewrite Ev. destruct (getUserVote U None (Some id) db) as [v|].
  - destruct Hcase as (_ & l1 & l2 & E & Hcase). exists l1, l2. split; auto.
    destruct (String.eqb (v_voteType v) k).
    + destruct Hcase as [-> ->]. auto.
    + destruct Hcase as [-> ->]. auto.
  - destruct Hcase as (-> & _ & ->). auto.
Qed.

(** X2. [removeVote] for a target with a non-empty id: afterwards the
    user has no vote on the target; the result tells whether one was
    stored; the rows of other users and targets are the rows kept, and
    without a stored vote the database is as before.  With neither id
    given, the condition is the user alone and every vote of the user
    is deleted. *)
Theorem removeVote_lookup :
  forall U gid cid db,
    target_shape gid cid ->
    getUserVote U gid cid (snd (removeVote U gid cid db)) = None
    /\ (fst (removeVote U gid cid db) = false <-> getUserVote U gid cid db = None)
    /\ (fst (removeVote U gid cid db) = false -> snd (removeVote U gid cid db) = db)
    /\ user_votes (snd (removeVote U gid cid db))
       = filter (fun v => negb (Pg.collides U gid cid v)) (user_votes db)
    /\ user_votes (snd (removeVote U None None db))
       = filter (fun v => negb (String.eqb (v_userId v) U)) (user_votes db).
Proof.
  intros U gid cid db Sh.
  destruct (target_shape_facts U gid cid Sh) as (_ & _ & Fc).
  unfold removeVote, getUserVote. simpl.
  set (hit := vote_conditions U gid cid).
  split; [|split; [|split; [|split]]].
  - assert (F : filter hit (filter (fun v => negb (hit v)) (user_votes db)) = []).
    { apply filter_none_of. intros v Hv. apply filter_In in Hv as [_ Hv].
      now apply negb_true_iff in Hv. }
    now rewrite F.
  - now rewrite hd_filter_none.
  - intros H. rewrite filter_none_id by exact H. now destruct db.
  - apply filter_ext. intros v. unfold hit. now rewrite Fc.
  - apply filter_ext. intros v. unfold vote_conditions. simpl.
    now rewrite !andb_true_r.
Qed.

(** The unique indexes survive an appended row that collides with none. *)
Lemma votes_unique_snoc vs row :
  votes_unique vs = true ->
  existsb (Pg.collides (v_userId row) (v_grievanceId row) (v_commentId row)) vs = false ->
  votes_unique (vs ++ [row]) = true.
Proof.
  intros Un Ex. apply votes_unique_intro; auto.
  intros v w Hv [<-|[]]. rewrite collides_sym.
  destruct (Pg.collides _ _ _ v) eqn:Cv; auto.
  assert (existsb (Pg.collides (v_userId row) (v_grievanceId row) (v_commentId row)) vs
          = true)
    by (apply existsb_exists; eauto).
  congruence.
Qed.

Lemma stored_vote_collides U gid cid db :
  target_shape gid cid ->
  getUserVote U gid cid db = None
  <-> existsb (Pg.collides U gid cid) (user_votes db) = false.
Proof.
  intros Sh. destruct (target_shape_facts U gid cid Sh) as (_ & _ & Fc).
  unfold getUserVote. rewrite (filter_ext _ _ Fc). apply hd_filter_none.
Qed.

(** X3. [createOrUpdateVote] for a target with a non-empty id, on
    tables that satisfy their constraints.  It throws in two cases
    only: a kind other than up/down (check violation), and a user
    without a stored vote whose user id or target id references no row
    (foreign key violation).  In every other case it returns a row of
    that user and target with the requested kind, [getUserVote] finds
    exactly that row afterwards, the table has one row more when the
    user had no vote and the same number of rows when they had one, and
    the constraints still hold. *)
Theorem createOrUpdateVote_lookup :
  forall U gid cid k now db,
    constraints_hold db = true ->
    target_shape gid cid ->
    (Pg.vote_type_check k = false ->
     createOrUpdateVote (mkInsertUserVote U gid cid k) now db
     = Pg.Throw Pg.check_violation)
    /\ (Pg.vote_type_check k = true ->
        getUserVote U gid cid db = None ->
        Pg.references_ok db U gid cid = false ->
        createOrUpdateVote (mkInsertUserVote U gid cid k) now db
        = Pg.Throw Pg.foreign_key_violation)
    /\ (Pg.vote_type_check k = true ->
        getUserVote U gid cid db <> None \/ Pg.references_ok db U gid cid = true ->
        exists row db',
          createOrUpdateVote (mkInsertUserVote U gid cid k) now db
          = Pg.Ok (Some row, db')
          /\ v_userId row = U /\ v_grievanceId row = gid /\ v_commentId row = cid
          /\ v_voteType row = k /\ v_timestamp row = now
          /\ getUserVote U gid cid db' = Some row
          /\ List.length (user_votes db')
             = (List.length (user_votes db)
                + match getUserVote U gid cid db with Some _ => 0 | None => 1 end)%nat
          /\ constraints_hold db' = true).
Proof.
  intros U gid cid k now db Hc Sh.
  destruct (target_shape_facts U gid cid Sh) as (Tc & Hg & Fc).
  pose proof (stored_vote_collides U gid cid db Sh) as St.
  apply constraints_split in Hc as [Un R].
  split; [|split].
  - intros Ck. unfold createOrUpdateVote, Pg.insert_user_vote. simpl.
    now rewrite Ck.
  - intros Ck Hn Rf. apply St in Hn.
    unfold createOrUpdateVote, Pg.insert_user_vote. simpl.
    now rewrite Ck, Tc, Hn, Rf.
  - intros Ck Hor.
    destruct (existsb (Pg.collides U gid cid) (user_votes db)) eqn:Ex.
    + (* a stored row gets the kind *)
      destruct (getUserVote U gid cid db) as [v|] eqn:Ev;
        [|destruct St as [St _]; specialize (St eq_refl); discriminate].
      assert (Hins : Pg.insert_user_vote (mkInsertUserVote U gid cid k) now db
                     = Pg.Throw Pg.unique_violation)
        by (apply insert_collision; auto).
      destruct (createOrUpdateVote_fallback (mkInsertUserVote U gid cid k) now db
                  Un Hg Hins)
        as (l1 & w & l2 & E & Cw & M1 & M2 & Run).
      simpl in Cw, M1, M2, Run.
      assert (Hin : In w (user_votes db))
        by (rewrite E; apply in_or_app; right; now left).
      pose proof (R w Hin) as Rw. unfold vote_row_ok in Rw.
      apply andb_true_iff in Rw as [Rw Rf]. apply andb_true_iff in Rw as [_ Tw].
      destruct (collides_same_target _ _ _ w Tc Tw Cw) as (Eu & Eg & Ec).
      exists (revote k now w),
        (set_user_votes db (l1 ++ revote k now w :: l2)).
      split; [exact Run|]. simpl. repeat split; auto.
      * unfold getUserVote. simpl. rewrite (filter_ext _ _ Fc).
        apply hd_filter_decomp; auto.
      * rewrite E, !length_app. simpl. lia.
      * apply constraints_split. simpl. split.
        -- rewrite E in Un. now apply votes_unique_revote.
        -- intros x Hx. rewrite (vote_row_ok_tables db) by reflexivity.
           apply in_app_or in Hx as [Hx|[<-|Hx]].
           ++ apply R. rewrite E. apply in_or_app. now left.
           ++ unfold vote_row_ok. simpl. rewrite Ck, Tw. exact Rf.
           ++ apply R. rewrite E. apply in_or_app. right. now right.
    + (* a row is appended *)
      destruct St as [_ St]. specialize (St eq_refl). rewrite St in *.
      destruct Hor as [Hor|Rf]; [congruence|].
      unfold createOrUpdateVote. rewrite insert_ok; simpl; auto.
      eexists. eexists. split; [reflexivity|]. simpl. repeat split; auto.
      * unfold getUserVote. simpl. rewrite (filter_ext _ _ Fc).
        apply filter_nil_iff in Ex. rewrite filter_app, Ex. simpl.
        now rewrite collides_self.
      * rewrite length_app. reflexivity.
      * apply constraints_split. simpl. split.
        -- apply votes_unique_snoc; auto.
        -- intros x Hx. apply in_app_or in Hx as [Hx|[<-|[]]].
           ++ rewrite (vote_row_ok_tables db) by reflexivity. auto.
           ++ unfold vote_row_ok. simpl. rewrite Ck, Tc. exact Rf.
Qed.

Lemma map_if_idem {A} (c : A -> bool) (f : A -> A) (l : list A) :
  (forall x, c (f x) = c x) -> (forall x, f (f x) = f x) ->
  map (fun x => if c x then f x else x) (map (fun x => if c x then f x else x) l)
  = map (fun x => if c x then f x else x) l.
Proof.
  intros Hc Hf. rewrite map_map. apply map_ext. intros x.
  destruct (c x) eqn:E; [now rewrite Hc, E, Hf | now rewrite E].
Qed.

(** X4. The recount is idempotent, and on a database whose counters
    agree with the vote rows it changes nothing. *)
Theorem updateVoteCounts_idempotent :
  forall gid cid db,
    updateVoteCounts gid cid (updateVoteCounts gid cid db)
    = updateVoteCounts gid cid db
    /\ (all_counters_ok db -> updateVoteCounts gid cid db = db).
Proof.
  intros gid cid db. split.
  - unfold updateVoteCounts.
    destruct (JS.truthy_opt gid), (JS.truthy_opt cid); simpl; auto;
      unfold set_grievances, set_comments, count_grievance_votes,
        count_comment_votes; simpl; f_equal;
      apply (map_if_idem (fun x => Pg.eq_null (Some (_ x)) _)); reflexivity.
  - intros [Ig Ic]. unfold updateVoteCounts.
    assert (G : map (fun g => if Pg.eq_null (Some (g_id g)) gid
                              then set_counts (count_grievance_votes gid "up" db)
                                              (count_grievance_votes gid "down" db) g
                              else g) (grievances db) = grievances db).
    { rewrite <- (map_id (grievances db)) at 2. apply map_ext_in. intros g Hg.
      destruct (Pg.eq_null (Some (g_id g)) gid) eqn:E; auto.
      rewrite eq_null_sym in E. apply eq_null_Some in E. subst gid.
      destruct (Ig g Hg) as [<- <-]. now destruct g. }
    assert (C : forall d, user_votes d = user_votes db -> comments d = comments db ->
                map (fun c => if Pg.eq_null (Some (c_id c)) cid
                              then set_comment_upvotes (count_comment_votes cid "up" d) c
                              else c) (comments d) = comments d).
    { intros d Ev Ec. rewrite Ec.
      rewrite <- (map_id (comments db)) at 2. apply map_ext_in. intros c Hc.
      destruct (Pg.eq_null (Some (c_id c)) cid) eqn:E; auto.
      rewrite eq_null_sym in E. apply eq_null_Some in E. subst cid.
      rewrite (count_comment_votes_ext _ _ db) by exact Ev.
      rewrite <- (Ic c Hc). now destruct c. }
    destruct (JS.truthy_opt gid), (JS.truthy_opt cid); auto.
    + rewrite G. rewrite (C (set_grievances db (grievances db))) by reflexivity.
      now destruct db.
    + rewrite G. now destruct db.
    + rewrite (C db) by reflexivity. now destruct db.
Qed.

Lemma db_eta db u g c v n :
  users db = u -> grievances db = g -> comments db = c -> user_votes db = v ->
  vote_seq db = n -> db = mkDB u g c v n.
Proof. destruct db; simpl; intros; subst; reflexivity. Qed.

(** X5. Voting twice: a user without a vote on a stored grievance
    sends the same vote twice.  The second request takes the vote back:
    it answers 200 with the counters the grievance had before the first
    request and no vote, and the database is as before the first
    request but for the sequence of vote ids (the counters of the
    grievance are assumed to agree with its vote rows at the start). *)
Theorem grievance_vote_twice :
  forall now1 now2 sess U id k db r,
    constraints_hold db = true ->
    requireAuth sess = inr U ->
    existsb (fun u => String.eqb (u_id u) U) (users db) = true ->
    id <> "" ->
    k = "up" \/ k = "down" ->
    getGrievance id db = Some r ->
    getUserVote U (Some id) None db = None ->
    (forall g, In g (grievances db) -> g_id g = id -> grievance_counters_ok db g) ->
    post_grievance_vote now2 sess id (Some k)
      (snd (post_grievance_vote now1 sess id (Some k) db))
    = (mkResponse 200
         (VoteBody (g_upvotes (row_g r)) (g_downvotes (row_g r)) None),
       mkDB (users db) (grievances db) (comments db) (user_votes db)
            (S (vote_seq db))).
Proof.
  intros now1 now2 sess U id k db r Hc Ha Hu Hid Hk Hg Hn Hok.
  destruct (valid_voteType_kind k Hk) as (Vk & Ck & Ok).
  apply constraints_split in Hc as [Un _].
  assert (Sh : target_shape (Some id) None) by (exists id; auto).
  destruct (target_shape_facts U (Some id) None Sh) as (_ & _ & Fc).
  (* the first request *)
  destruct (toggle_outcome U (Some id) None k now1 db Un Sh Ck) as (db1 & Ht & Hcase).
  { intros _. unfold Pg.references_ok.
    now rewrite Hu, (getGrievance_exists _ _ _ Hg). }
  rewrite Hn in Hcase. destruct Hcase as (Ev1 & Es1 & Eg1).
  destruct (toggle_frame _ _ _ _ _ _ _ Ht) as (Eu & Egr & Ec).
  rewrite (post_grievance_vote_after now1 sess U id k db r db1 Ha Hid Vk Hg Ht).
  simpl.
  set (row := mkUserVote (vote_seq db) U (Some id) None k now1) in *.
  set (up1 := count_grievance_votes (Some id) "up" db1).
  set (down1 := count_grievance_votes (Some id) "down" db1).
  rewrite (updateVoteCounts_grievance id db1 Hid). fold up1 down1.
  set (upd1 := fun g => if String.eqb (g_id g) id then set_counts up1 down1 g else g).
  set (dbA := set_grievances db1 (map upd1 (grievances db1))).
  (* the second request *)
  assert (GA : getGrievance id dbA = Some (on_row upd1 r)).
  { unfold dbA. rewrite getGrievance_map.
    - now rewrite (getGrievance_tables id db db1), Hg.
    - intros g. unfold upd1. destruct (String.eqb (g_id g) id); reflexivity.
    - intros g. unfold upd1. destruct (String.eqb (g_id g) id); reflexivity. }
  assert (TA : toggle U (Some id) None k now2 dbA
               = Pg.Ok (set_user_votes dbA (user_votes db))).
  { unfold toggle.
    replace (getUserVote U (Some id) None dbA) with (Some row)
      by (symmetry; exact Eg1).
    simpl. rewrite String.eqb_refl. unfold removeVote. simpl. do 2 f_equal.
    rewrite Ev1, filter_app.
    rewrite (filter_none_id (vote_conditions U (Some id) None))
      by (apply hd_filter_none; exact Hn).
    cbn [filter]. rewrite (Fc row). unfold row at 1.
    rewrite collides_self by exact Sh. apply app_nil_r. }
  rewrite (post_grievance_vote_after now2 sess U id k dbA (on_row upd1 r)
             (set_user_votes dbA (user_votes db)) Ha Hid Vk GA TA).
  destruct (getGrievance_some _ _ _ Hg) as [Hrid Hrin].
  destruct (Hok (row_g r) Hrin Hrid) as [Kup Kdown]. rewrite Hrid in Kup, Kdown.
  assert (Cu : forall kk, count_grievance_votes (Some id) kk
                            (set_user_votes dbA (user_votes db))
                          = count_grievance_votes (Some id) kk db)
    by (intros kk; now apply count_grievance_votes_ext).
  rewrite !Cu, <- Kup, <- Kdown.
  replace (getUserVote U (Some id) None (set_user_votes dbA (user_votes db)))
    with (@None UserVote) by (symmetry; exact Hn).
  simpl. f_equal.
  rewrite (updateVoteCounts_grievance id _ Hid). rewrite !Cu.
  apply db_eta; simpl; auto.
  rewrite Egr, map_map. rewrite <- (map_id (grievances db)) at 2.
  apply map_ext_in. intros g Hin. unfold upd1.
  destruct (String.eqb (g_id g) id) eqn:E; simpl; rewrite E; auto.
  apply String.eqb_eq in E. destruct (Hok g Hin E) as [K1 K2].
  rewrite E in K1, K2. rewrite <- K1, <- K2. now destruct g.
Qed.

(** * Statistics and relative times *)

Lemma stats_step_comm s a b :
  fst a <> fst b ->
  stats_step (stats_step s a) b = stats_step (stats_step s b) a.
Proof.
  destruct a as [[] x], b as [[] y]; simpl; intros H; try congruence;
    unfold stats_step; simpl; f_equal; lia.
Qed.

Lemma fold_stats_perm l l' :
  Permutation l l' -> NoDup (map fst l) ->
  forall s, fold_left stats_step l s = fold_left stats_step l' s.
Proof.
  induction 1 as [|x l l' P IH|x y l|l l' l'' P1 IH1 P2 IH2]; simpl; intros N s.
  - reflexivity.
  - inversion N; subst. now apply IH.
  - inversion N as [|? ? Ny N']; subst. rewrite stats_step_comm; auto.
    intros E. apply Ny. left. congruence.
  - rewrite IH1 by exact N. apply IH2.
    apply (Permutation_NoDup (Permutation_map fst P1) N).
Qed.

Lemma count_status_sum gs :
  count_status pending gs + count_status urgent gs + count_status in_progress gs
  + count_status resolved gs + count_status closed gs
  = Z.of_nat (List.length gs).
Proof.
  unfold count_status. induction gs as [|g gs IH]; [reflexivity|].
  cbn [filter List.length]. rewrite Nat2Z.inj_succ, <- IH.
  destruct (g_status g); cbn [status_eqb List.length]; rewrite ?Nat2Z.inj_succ; lia.
Qed.

Lemma group_by_status_keys gs : NoDup (map fst (group_by_status gs)).
Proof.
  unfold group_by_status. cbn [map filter snd].
  repeat match goal with
         | |- context [Z.eqb ?a 0] => destruct (Z.eqb a 0)
         end; cbn [negb map fst];
    repeat (constructor; [simpl; intuition discriminate|]); constructor.
Qed.

Lemma stats_of_own_groups gs :
  stats_of_groups (group_by_status gs)
  = mkStats (Z.of_nat (List.length gs)) (count_status pending gs)
      (count_status urgent gs) (count_status in_progress gs)
      (count_status resolved gs).
Proof.
  rewrite <- count_status_sum.
  unfold stats_of_groups, group_by_status. cbn [map filter snd].
  destruct (Z.eqb_spec (count_status pending gs) 0) as [-> |_];
    destruct (Z.eqb_spec (count_status urgent gs) 0) as [-> |_];
    destruct (Z.eqb_spec (count_status in_progress gs) 0) as [-> |_];
    destruct (Z.eqb_spec (count_status resolved gs) 0) as [-> |_];
    destruct (Z.eqb_spec (count_status closed gs) 0) as [-> |_];
    cbn [negb fold_left stats_step fst snd s_total s_pending s_urgent
         s_inProgress s_resolved]; f_equal; lia.
Qed.

(** X6. [getGrievanceStats] over the grievances of the municipality (all
    grievances without one): [pending], [urgent], [inProgress] and
    [resolved] are the numbers of grievances with that status, [total]
    is the number of all of them, closed ones included although they
    have no field of their own; and the result does not depend on the
    order in which the server returns the groups.
    [GET /api/analytics/stats] answers 200 with these numbers to an
    admin and 403 to every other session, logged in or not. *)
Theorem getGrievanceStats_counts :
  forall sess municipality db groups,
    Permutation groups
      (group_by_status (filter (in_municipality municipality) (grievances db))) ->
    let sel := filter (in_municipality municipality) (grievances db) in
    stats_of_groups groups = getGrievanceStats municipality db
    /\ getGrievanceStats municipality db
       = mkStats (Z.of_nat (List.length sel)) (count_status pending sel)
           (count_status urgent sel) (count_status in_progress sel)
           (count_status resolved sel)
    /\ s_total (getGrievanceStats municipality db)
       = s_pending (getGrievanceStats municipality db)
         + s_urgent (getGrievanceStats municipality db)
         + s_inProgress (getGrievanceStats municipality db)
         + s_resolved (getGrievanceStats municipality db)
         + count_status closed sel
    /\ get_stats sess municipality db
       = match requireAuth sess with
         | inr _ =>
             if JS.same (s_userType sess) "admin"
             then mkReply 200 (StatsBody (getGrievanceStats municipality db))
             else reply_error 403 "Admin access required"
         | inl _ => reply_error 403 "Admin access required"
         end.
Proof.
  intros sess municipality db groups P sel. unfold getGrievanceStats. fold sel.
  split; [|split; [|split]].
  - unfold stats_of_groups. symmetry. apply fold_stats_perm.
    + now apply Permutation_sym.
    + apply group_by_status_keys.
  - apply stats_of_own_groups.
  - rewrite stats_of_own_groups. simpl. rewrite <- count_status_sum. lia.
  - unfold get_stats, requireAdmin, requireAuth, getGrievanceStats, JS.truthy_opt.
    destruct (s_userId sess) as [u|]; simpl; auto.
    destruct (JS.truthy u); simpl; auto.
    destruct (JS.same (s_userType sess) "admin"); reflexivity.
Qed.

(** X7. [getTimeAgo] for an age [now - timestamp] in milliseconds: below
    one hour it shows the whole minutes of the age (a number below 60,
    negative when the timestamp lies ahead of the clock), from one hour
    to below one day the whole hours (1 to 23), and from one day on the
    whole days (at least 1); the nested roundings of the code are the
    rounding of the age itself. *)
Theorem getTimeAgo_units :
  forall now timestamp,
    let age := now - timestamp in
    (age < 3600000 ->
     Client.getTimeAgo now timestamp = (Client.show (age / 60000) ++ "m ago")%string
     /\ age / 60000 < 60 /\ (0 <= age -> 0 <= age / 60000))
    /\ (3600000 <= age < 86400000 ->
        Client.getTimeAgo now timestamp = (Client.show (age / 3600000) ++ "h ago")%string
        /\ 1 <= age / 3600000 < 24)
    /\ (86400000 <= age ->
        Client.getTimeAgo now timestamp = (Client.show (age / 86400000) ++ "d ago")%string
        /\ 1 <= age / 86400000).
Proof.
  intros now timestamp age. unfold Client.getTimeAgo. fold age.
  change (1000 * 60) with 60000.
  assert (H1 : age / 60000 / 60 = age / 3600000)
    by (rewrite Z.div_div by lia; reflexivity).
  assert (H2 : age / 60000 / 60 / 24 = age / 86400000)
    by (rewrite !Z.div_div by lia; reflexivity).
  rewrite H2, H1.
  split; [|split]; intros H.
  - assert (L : age / 60000 < 60) by (apply Z.div_lt_upper_bound; lia).
    apply Z.ltb_lt in L as L'. rewrite L'. repeat split; auto.
    intros. apply Z.div_pos; lia.
  - assert (L : 60 <= age / 60000) by (apply Z.div_le_lower_bound; lia).
    assert (M : age / 3600000 < 24) by (apply Z.div_lt_upper_bound; lia).
    assert (M1 : 1 <= age / 3600000) by (apply Z.div_le_lower_bound; lia).
    apply Z.ltb_ge in L. apply Z.ltb_lt in M as M'. rewrite L, M'. auto.
  - assert (L : 60 <= age / 60000) by (apply Z.div_le_lower_bound; lia).
    assert (M : 24 <= age / 3600000) by (apply Z.div_le_lower_bound; lia).
    assert (M1 : 1 <= age / 86400000) by (apply Z.div_le_lower_bound; lia).
    apply Z.ltb_ge in L. apply Z.ltb_ge in M. rewrite L, M. auto.
Qed.


(** * Creating, editing and deleting grievances and comments *)

Lemma votes_reference_grievances db v g :
  constraints_hold db = true -> In v (user_votes db) ->
  v_grievanceId v = Some g ->
  existsb (fun x => String.eqb (g_id x) g) (grievances db) = true.
Proof.
  intros Hc Hv E. apply constraints_split in Hc as [_ R].
  specialize (R v Hv). unfold vote_row_ok, Pg.references_ok in R.
  rewrite E in R. apply andb_prop in R as [_ R]. apply andb_prop in R as [R _].
  apply andb_prop in R as [_ R]. exact R.
Qed.

Lemma no_votes_on_unknown_grievance db id k :
  constraints_hold db = true ->
  existsb (fun x => String.eqb (g_id x) id) (grievances db) = false ->
  count_grievance_votes (Some id) k db = 0.
Proof.
  intros Hc Hf. unfold count_grievance_votes.
  rewrite filter_none_of; [reflexivity|].
  intros v Hv. destruct (Pg.eq_null (v_grievanceId v) (Some id)) eqn:E; auto.
  apply eq_null_Some in E.
  rewrite (votes_reference_grievances db v id Hc Hv E) in Hf. discriminate.
Qed.

Lemma no_votes_on_unknown_comment db id k :
  constraints_hold db = true ->
  existsb (fun x => String.eqb (c_id x) id) (comments db) = false ->
  count_comment_votes (Some id) k db = 0.
Proof.
  intros Hc Hf. unfold count_comment_votes.
  rewrite filter_none_of; [reflexivity|].
  intros v Hv. destruct (Pg.eq_null (v_commentId v) (Some id)) eqn:E; auto.
  apply eq_null_Some in E.
  rewrite (votes_reference_comments db v id Hc Hv E) in Hf. discriminate.
Qed.

(** The constraints of [user_votes] survive a change of the referenced
    tables that keeps every id a stored vote refers to. *)
Lemma constraints_hold_more db db' :
  user_votes db' = user_votes db ->
  (forall v, In v (user_votes db) ->
     Pg.references_ok db (v_userId v) (v_grievanceId v) (v_commentId v) = true ->
     Pg.references_ok db' (v_userId v) (v_grievanceId v) (v_commentId v) = true) ->
  constraints_hold db = true -> constraints_hold db' = true.
Proof.
  intros Ev Hr Hc. apply constraints_split in Hc as [Un R].
  apply constraints_split. rewrite Ev. split; [exact Un|].
  intros v Hv. specialize (R v Hv). unfold vote_row_ok in *.
  apply andb_prop in R as [R1 R2]. rewrite R1. simpl. now apply Hr.
Qed.

Lemma getGrievance_appended id db row :
  existsb (fun x => String.eqb (g_id x) id) (grievances db) = false ->
  g_id row = id ->
  exists r, getGrievance id (set_grievances db (grievances db ++ [row])) = Some r
            /\ row_g r = row.
Proof.
  intros Hf Hid. unfold getGrievance. simpl.
  rewrite flat_map_app, filter_app.
  rewrite (filter_none_of _ (flat_map _ (grievances db))).
  - simpl. rewrite app_nil_r.
    destruct (left_join_users (users db) row) as [|r rest] eqn:E.
    + now apply left_join_nonempty in E.
    + assert (Hr : row_g r = row)
        by (apply (in_left_join (users db)); rewrite E; now left).
      exists r. simpl. rewrite Hr, Hid, String.eqb_refl. auto.
  - intros r Hr. apply in_flat_map in Hr as (g & Hg & Hr).
    apply in_left_join in Hr. rewrite Hr.
    destruct (String.eqb (g_id g) id) eqn:E; auto.
    assert (existsb (fun x => String.eqb (g_id x) id) (grievances db) = true)
      by (apply existsb_exists; eauto).
    congruence.
Qed.

(** X8. [POST /api/grievances] by a logged-in, stored user with a body
    that passes the schema, for a generated id that no grievance has:
    the answer is 201 with the new row, which is appended to the table
    and found by [getGrievance].  Whatever the body contains, the row
    has the generated id, the session's user as author, both counters
    0 and the time of the insert; the constraints of the vote table
    and the agreement of all counters with the vote rows are kept. *)
Theorem post_grievance_created :
  forall uuid now sess body db U g,
    requireAuth sess = inr U ->
    parse_grievance body U = Some g ->
    existsb (fun u => String.eqb (u_id u) U) (users db) = true ->
    existsb (fun x => String.eqb (g_id x) uuid) (grievances db) = false ->
    exists row,
      post_grievance uuid now sess body db
      = (mkReply 201 (OneGrievance row), set_grievances db (grievances db ++ [row]))
      /\ g_id row = uuid /\ g_authorId row = U
      /\ g_upvotes row = 0 /\ g_downvotes row = 0
      /\ g_timestamp row = now /\ g_updatedAt row = now
      /\ (exists r, getGrievance uuid (snd (post_grievance uuid now sess body db)) = Some r
                    /\ row_g r = row)
      /\ (constraints_hold db = true ->
          constraints_hold (snd (post_grievance uuid now sess body db)) = true
          /\ (all_counters_ok db ->
              all_counters_ok (snd (post_grievance uuid now sess body db)))).
Proof.
  intros uuid now sess body db U g Ha Hp Hu Hf.
  assert (Au : ig_authorId g = U).
  { unfold parse_grievance in Hp.
    repeat match type of Hp with
           | match ?x with _ => _ end = _ => destruct x; try discriminate
           end.
    now inversion Hp. }
  unfold post_grievance. rewrite Ha, Hp. unfold createGrievance.
  rewrite Hf, Au, Hu. cbn [negb fst snd].
  eexists. split; [reflexivity|]. cbn [g_id g_authorId g_upvotes g_downvotes
                                       g_timestamp g_updatedAt].
  repeat (split; [reflexivity|]). split.
  - now apply getGrievance_appended.
  - intros Hc. split.
    + revert Hc. apply constraints_hold_more; [reflexivity|].
      intros v _. generalize (v_userId v) (v_grievanceId v) (v_commentId v).
      intros uid gid cid. unfold Pg.references_ok. simpl.
      destruct gid as [x|]; auto. rewrite existsb_app.
      destruct (existsb (fun u => String.eqb (u_id u) uid) (users db)); simpl; auto.
      destruct (existsb (fun y => String.eqb (g_id y) x) (grievances db)); simpl; auto.
      discriminate.
    + intros [Hg Hcm]. split.
      * intros x Hx. simpl in Hx. apply in_app_or in Hx as [Hx|[<-|[]]].
        -- destruct (Hg x Hx) as [A B]. split.
           ++ rewrite A. now apply count_grievance_votes_ext.
           ++ rewrite B. now apply count_grievance_votes_ext.
        -- split; simpl;
             rewrite (count_grievance_votes_ext _ _ db) by reflexivity;
             symmetry; now apply no_votes_on_unknown_grievance.
      * intros c Hin. simpl in Hin. specialize (Hcm c Hin).
        unfold comment_counters_ok in *. rewrite Hcm.
        now apply count_comment_votes_ext.
Qed.

Lemma existsb_filter_other {A} (key : A -> string) (id x : string) (l : list A) :
  x <> id ->
  existsb (fun a => String.eqb (key a) x)
          (filter (fun a => negb (String.eqb (key a) id)) l)
  = existsb (fun a => String.eqb (key a) x) l.
Proof.
  intros Hx. induction l as [|a l IH]; simpl; auto.
  destruct (String.eqb (key a) id) eqn:E; simpl.
  - apply String.eqb_eq in E. rewrite IH.
    assert (N : String.eqb (key a) x = false) by (apply String.eqb_neq; congruence).
    now rewrite N.
  - now rewrite IH.
Qed.

Lemma grievance_referenced_iff id st :
  grievance_referenced id st = true <->
  (exists c, In c (comments (core st)) /\ c_grievanceId c = id)
  \/ (exists a, In a (assignments st) /\ a_grievanceId a = id)
  \/ (exists v, In v (user_votes (core st)) /\ v_grievanceId v = Some id).
Proof.
  unfold grievance_referenced. rewrite !orb_true_iff, !existsb_exists. split.
  - intros [[(c & Hc & E)|(a & Ha & E)]|(v & Hv & E)].
    + left. exists c. split; auto. now apply String.eqb_eq.
    + right. left. exists a. split; auto. now apply String.eqb_eq.
    + right. right. exists v. split; auto. now apply eq_null_Some.
  - intros [(c & Hc & E)|[(a & Ha & E)|(v & Hv & E)]].
    + left. left. exists c. split; auto. now apply String.eqb_eq.
    + left. right. exists a. split; auto. now apply String.eqb_eq.
    + right. exists v. split; auto. now apply eq_null_Some.
Qed.

Lemma joined_after_delete us id id' gs :
  filter (fun r => String.eqb (g_id (row_g r)) id')
         (flat_map (left_join_users us)
            (filter (fun g => negb (String.eqb (g_id g) id)) gs))
  = if String.eqb id' id then []
    else filter (fun r => String.eqb (g_id (row_g r)) id')
                (flat_map (left_join_users us) gs).
Proof.
  induction gs as [|g gs IH]; simpl.
  - now destruct (String.eqb id' id).
  - destruct (String.eqb (g_id g) id) eqn:E; simpl.
    + rewrite IH. rewrite filter_app.
      destruct (String.eqb id' id) eqn:E'; [reflexivity|].
      rewrite (filter_none_of _ (left_join_users us g)); [reflexivity|].
      intros r Hr. apply in_left_join in Hr. rewrite Hr.
      apply String.eqb_eq in E. apply String.eqb_neq in E'.
      apply String.eqb_neq. congruence.
    + rewrite !filter_app, IH.
      destruct (String.eqb id' id) eqn:E'; [|reflexivity].
      rewrite (filter_none_of _ (left_join_users us g)); [reflexivity|].
      intros r Hr. apply in_left_join in Hr. rewrite Hr.
      apply String.eqb_eq in E'. subst id'. exact E.
Qed.

Lemma getGrievance_after_delete id id' db :
  getGrievance id' (set_grievances db
                      (filter (fun g => negb (String.eqb (g_id g) id)) (grievances db)))
  = if String.eqb id' id then None else getGrievance id' db.
Proof.
  unfold getGrievance. simpl. rewrite joined_after_delete.
  now destruct (String.eqb id' id).
Qed.

(** X9. [DELETE /api/grievances/:id] by a logged-in user for a stored
    grievance.  A caller who is neither its author nor an admin gets 403.
    For the author or an admin: as long as a comment, an assignment or a
    vote refers to the grievance the answer is 500 and nothing is
    deleted (no reference cascades); otherwise the answer is 200, the
    grievance is gone, every other grievance is read as before, and the
    constraints of the vote table and the agreement of the counters
    with the vote rows are kept. *)
Theorem delete_grievance_outcome :
  forall sess id st U r,
    requireAuth sess = inr U ->
    getGrievance id (core st) = Some r ->
    (g_authorId (row_g r) <> U -> s_userType sess <> Some "admin" ->
     delete_grievance sess id st = (reply_error 403 "Permission denied", st))
    /\ (g_authorId (row_g r) = U \/ s_userType sess = Some "admin" ->
        ((exists c, In c (comments (core st)) /\ c_grievanceId c = id)
         \/ (exists a, In a (assignments st) /\ a_grievanceId a = id)
         \/ (exists v, In v (user_votes (core st)) /\ v_grievanceId v = Some id) ->
         delete_grievance sess id st
         = (reply_error 500 "Failed to delete grievance", st))
        /\ (grievance_referenced id st = false ->
            fst (delete_grievance sess id st)
            = mkReply 200 (Message "Grievance deleted successfully")
            /\ (forall id',
                  getGrievance id' (core (snd (delete_grievance sess id st)))
                  = if String.eqb id' id then None else getGrievance id' (core st))
            /\ users (core (snd (delete_grievance sess id st))) = users (core st)
            /\ comments (core (snd (delete_grievance sess id st))) = comments (core st)
            /\ user_votes (core (snd (delete_grievance sess id st)))
               = user_votes (core st)
            /\ (constraints_hold (core st) = true ->
                constraints_hold (core (snd (delete_grievance sess id st))) = true)
            /\ (all_counters_ok (core st) ->
                all_counters_ok (core (snd (delete_grievance sess id st)))))).
Proof.
  intros sess id st U r Ha Hg.
  pose proof (getGrievance_exists _ _ _ Hg) as Ex.
  unfold delete_grievance. rewrite Ha, Hg. split.
  - intros Hn Ht.
    assert (E1 : String.eqb (g_authorId (row_g r)) U = false)
      by now apply String.eqb_neq.
    assert (E2 : JS.same (s_userType sess) "admin" = false).
    { unfold JS.same. destruct (s_userType sess) as [t|]; auto.
      apply String.eqb_neq. congruence. }
    now rewrite E1, E2.
  - intros Hp.
    assert (P : negb (String.eqb (g_authorId (row_g r)) U)
                && negb (JS.same (s_userType sess) "admin") = false).
    { destruct Hp as [<- | ->].
      - now rewrite String.eqb_refl.
      - simpl. apply andb_false_r. }
    rewrite P. unfold deleteGrievance. rewrite Ex. cbn [andb]. split.
    + intros Hr. apply grievance_referenced_iff in Hr. now rewrite Hr.
    + intros Hr. rewrite Hr. cbn [fst snd core set_core].
      split; [reflexivity|]. split; [|split; [|split; [|split; [|split]]]];
        try reflexivity.
      * intros id'. apply getGrievance_after_delete.
      * apply constraints_hold_more; [reflexivity|].
        intros v Hv. unfold Pg.references_ok. simpl.
        destruct (v_grievanceId v) as [x|] eqn:Ev; auto.
        rewrite existsb_filter_other; auto.
        intros ->. 
        assert (grievance_referenced id st = true)
          by (apply grievance_referenced_iff; right; right; eauto).
        congruence.
      * intros [Hgs Hcs]. split.
        -- intros g Hin. simpl in Hin. apply filter_In in Hin as [Hin _].
           destruct (Hgs g Hin) as [A B]. split.
           ++ rewrite A. now apply count_grievance_votes_ext.
           ++ rewrite B. now apply count_grievance_votes_ext.
        -- intros c Hin. simpl in Hin. specialize (Hcs c Hin).
           unfold comment_counters_ok in *. rewrite Hcs.
           now apply count_comment_votes_ext.
Qed.

Lemma requireAuth_session sess U :
  requireAuth sess = inr U -> s_userId sess = Some U /\ JS.truthy U = true.
Proof.
  unfold requireAuth. destruct (s_userId sess) as [u|]; [|discriminate].
  destruct (JS.truthy u) eqn:T; [|discriminate].
  intros H. inversion H. subst. auto.
Qed.

Lemma requireAuth_refusal sess r :
  requireAuth sess = inl r -> status r = 401%nat.
Proof.
  unfold requireAuth. destruct (s_userId sess) as [u|].
  - destruct (JS.truthy u); [discriminate|]. intros H. now inversion H.
  - intros H. now inversion H.
Qed.

(** X10. Reading after voting: when [POST /api/grievances/:id/vote]
    answers 200, a following [GET /api/grievances/:id] of the same
    session answers 200 with the grievance of that id, whose counters
    are the [upvotes] and [downvotes] of the vote's answer and whose
    [userVote] is the [userVote] of the vote's answer. *)
Theorem get_grievance_after_vote :
  forall now sess id vt db,
    id <> "" ->
    status (fst (post_grievance_vote now sess id vt db)) = 200%nat ->
    exists r up down uv,
      body (fst (post_grievance_vote now sess id vt db)) = VoteBody up down uv
      /\ get_grievance sess id (snd (post_grievance_vote now sess id vt db))
         = mkReply 200 (GrievanceView r (Some uv))
      /\ g_id (row_g r) = id
      /\ g_upvotes (row_g r) = up /\ g_downvotes (row_g r) = down.
Proof.
  intros now sess id vt db Hid. unfold post_grievance_vote.
  destruct (requireAuth sess) as [resp|U] eqn:Ha.
  { apply requireAuth_refusal in Ha. simpl. rewrite Ha. discriminate. }
  destruct (valid_voteType vt) as [k|]; [|simpl; discriminate].
  destruct (getGrievance id db) as [r0|] eqn:Hg; [|simpl; discriminate].
  destruct (toggle U (Some id) None k now db) as [db1|e] eqn:Ht;
    [|simpl; discriminate].
  intros _. cbn [fst snd body].
  destruct (toggle_frame _ _ _ _ _ _ _ Ht) as (Eu & Egr & _).
  destruct (getGrievance_some _ _ _ Hg) as [Hrid _].
  destruct (requireAuth_session _ _ Ha) as [Hs Ht'].
  rewrite (updateVoteCounts_grievance id db1 Hid).
  set (upd := fun g => if String.eqb (g_id g) id
                       then set_counts (count_grievance_votes (Some id) "up" db1)
                                       (count_grievance_votes (Some id) "down" db1) g
                       else g).
  assert (GA : getGrievance id (set_grievances db1 (map upd (grievances db1)))
               = Some (on_row upd r0)).
  { rewrite getGrievance_map.
    - now rewrite (getGrievance_tables id db db1), Hg.
    - intros g. unfold upd. destruct (String.eqb (g_id g) id); reflexivity.
    - intros g. unfold upd. destruct (String.eqb (g_id g) id); reflexivity. }
  assert (Hid' : g_id (row_g (on_row upd r0)) = id).
  { simpl. unfold upd. now destruct (String.eqb (g_id (row_g r0)) id). }
  rewrite GA. unfold get_grievance. rewrite GA.
  eexists _, _, _, _. split; [reflexivity|].
  split; [|split; [exact Hid'|split; reflexivity]].
  do 2 f_equal. unfold userVote_of. rewrite Hs, Ht', Hid'. reflexivity.
Qed.

(** ** Comments *)

Lemma in_left_join_author us c r :
  In r (left_join_author us c) -> row_c r = c.
Proof.
  unfold left_join_author.
  destruct (filter _ us) as [|u m]; simpl.
  - intros [<-|[]]. reflexivity.
  - intros [<-|H]; [reflexivity|].
    apply in_map_iff in H as (x & <- & _). reflexivity.
Qed.

Lemma left_join_author_nonempty us c : left_join_author us c <> [].
Proof.
  unfold left_join_author. destruct (filter _ us); simpl; discriminate.
Qed.

Lemma left_join_author_one us c :
  NoDup (map u_id us) ->
  exists name, left_join_author us c = [mkCommentRow c name].
Proof.
  intros N. unfold left_join_author.
  destruct (filter (fun u => String.eqb (c_authorId c) (u_id u)) us)
    as [|u [|u' m]] eqn:E.
  - eauto.
  - simpl. eauto.
  - exfalso.
    assert (Hu : In u (filter (fun u => String.eqb (c_authorId c) (u_id u)) us))
      by (rewrite E; simpl; auto).
    assert (Hu' : In u' (filter (fun u => String.eqb (c_authorId c) (u_id u)) us))
      by (rewrite E; simpl; auto).
    apply filter_In in Hu as [_ Eu]. apply filter_In in Hu' as [_ Eu'].
    apply String.eqb_eq in Eu. apply String.eqb_eq in Eu'.
    assert (ND : NoDup (map u_id
                   (filter (fun u => String.eqb (c_authorId c) (u_id u)) us))).
    { clear -N. induction us as [|a us IH]; simpl; [constructor|].
      inversion N as [|? ? Na N']; subst.
      destruct (String.eqb (c_authorId c) (u_id a)); simpl; auto.
      constructor; auto. intros H. apply Na.
      apply in_map_iff in H as (x & Ex & Hx). apply filter_In in Hx as [Hx _].
      apply in_map_iff. eauto. }
    rewrite E in ND. simpl in ND. inversion ND as [|? ? Nu _]; subst.
    apply Nu. left. congruence.
Qed.

Lemma joined_comments us cs :
  NoDup (map u_id us) ->
  map row_c (flat_map (left_join_author us) cs) = cs.
Proof.
  intros N. induction cs as [|c cs IH]; simpl; auto.
  rewrite map_app, IH. destruct (left_join_author_one us c N) as [name ->].
  reflexivity.
Qed.

(** X11. [getComments] under any sort that honours ORDER BY, with user
    ids unique: the rows are the stored comments of the grievance, each
    one once, the newest first, and each row carries the user name of
    the comment's author when that user is stored. *)
Theorem getComments_rows :
  forall srt grievanceId db,
    comment_order_contract srt ->
    NoDup (map u_id (users db)) ->
    Permutation (map row_c (getComments srt grievanceId db))
                (filter (fun c => String.eqb (c_grievanceId c) grievanceId) (comments db))
    /\ StronglySorted
         (fun a b => c_timestamp (row_c b) <= c_timestamp (row_c a))
         (getComments srt grievanceId db)
    /\ (forall r u, In r (getComments srt grievanceId db) ->
                    In u (users db) -> u_id u = c_authorId (row_c r) ->
                    c_authorUsername r = Some (u_username u)).
Proof.
  intros srt gid db Hs N. unfold getComments.
  set (rows := filter _ _).
  destruct (Hs newest_comment_first rows) as [P S].
  split; [|split].
  - eapply Permutation_trans.
    + apply Permutation_sym. apply Permutation_map. exact P.
    + unfold rows. rewrite <- (joined_comments (users db) (comments db) N) at 2.
      rewrite filter_map_comm. apply Permutation_refl.
  - assert (S' : StronglySorted (fun a b => newest_comment_first a b = true)
                   (srt newest_comment_first rows)).
    { apply S.
      - intros a b. unfold newest_comment_first. rewrite !Z.leb_le. lia.
      - intros a b c. unfold newest_comment_first. rewrite !Z.leb_le. lia. }
    revert S'. generalize (srt newest_comment_first rows). intros l.
    induction 1 as [|a l' Hl IH Fa]; constructor; auto.
    eapply Forall_impl; [|exact Fa]. intros b. unfold newest_comment_first.
    now rewrite Z.leb_le.
  - intros r u Hr Hu E.
    apply (Permutation_in _ (Permutation_sym P)) in Hr.
    unfold rows in Hr. apply filter_In in Hr as [Hr _].
    apply in_flat_map in Hr as (c & Hc & Hr).
    pose proof (in_left_join_author _ _ _ Hr) as Ec.
    unfold left_join_author in Hr.
    destruct (filter (fun u => String.eqb (c_authorId c) (u_id u)) (users db))
      as [|u0 m] eqn:F.
    + exfalso.
      assert (In u (filter (fun u => String.eqb (c_authorId c) (u_id u)) (users db))).
      { apply filter_In. split; auto. rewrite E, Ec. apply String.eqb_refl. }
      rewrite F in H. destruct H.
    + apply in_map_iff in Hr as (x & <- & Hx). simpl. do 2 f_equal.
      assert (Hx' : In x (users db) /\ u_id x = u_id u).
      { rewrite <- F in Hx. apply filter_In in Hx as [Hx Ex].
        apply String.eqb_eq in Ex. simpl in E. split; auto. congruence. }
      destruct Hx' as [Hx1 Hx2].
      clear -N Hx1 Hx2 Hu. induction (users db) as [|a us IH]; [destruct Hu|].
      simpl in N. inversion N as [|? ? Na N']; subst.
      destruct Hx1 as [->|Hx1], Hu as [->|Hu]; auto.
      * exfalso. apply Na. rewrite Hx2. now apply in_map.
      * exfalso. apply Na. rewrite <- Hx2. now apply in_map.
Qed.

Lemma counters_kept_votes db db' :
  user_votes db' = user_votes db ->
  (forall g, In g (grievances db') -> In g (grievances db)) ->
  (forall c, In c (comments db') ->
             exists c0, In c0 (comments db) /\ c_id c0 = c_id c
                        /\ c_upvotes c0 = c_upvotes c) ->
  all_counters_ok db -> all_counters_ok db'.
Proof.
  intros Ev Hg Hc [Og Oc]. split.
  - intros g Hin. destruct (Og g (Hg g Hin)) as [A B]. split.
    + rewrite A. symmetry. now apply count_grievance_votes_ext.
    + rewrite B. symmetry. now apply count_grievance_votes_ext.
  - intros c Hin. destruct (Hc c Hin) as (c0 & H0 & Ei & Eu).
    specialize (Oc c0 H0). unfold comment_counters_ok in *.
    rewrite <- Eu, <- Ei, Oc. symmetry. now apply count_comment_votes_ext.
Qed.

Lemma post_comment_stored uuid now sess id body db U text :
  requireAuth sess = inr U ->
  member "text" body = Some (JStr text) ->
  existsb (fun u => String.eqb (u_id u) U) (users db) = true ->
  existsb (fun x => String.eqb (c_id x) uuid) (comments db) = false ->
  existsb (fun g => String.eqb (g_id g) id) (grievances db) = true ->
  post_comment uuid now sess id body db
  = (mkReply 201 (OneComment (mkComment uuid id U text now 0)),
     set_comments db (comments db ++ [mkComment uuid id U text now 0])).
Proof.
  intros Ha Hm Hu Hf Hg. unfold post_comment, parse_comment, createComment.
  rewrite Ha, Hm. simpl. now rewrite Hf, Hg, Hu.
Qed.

(** X12. [POST /api/grievances/:id/comments] by a logged-in, stored user
    with a body whose [text] is a string (the empty string included),
    for a generated id that no comment has.  For an id that no stored
    grievance has the answer is 500 and nothing is stored.  For a stored
    grievance the answer is 201 with the new comment: generated id, the
    grievance of the route, the session's user as author, the text, the
    time of the insert and [upvotes] 0, whatever else the body contains;
    the comment is appended, [getComments] of the grievance lists it,
    and the constraints of the vote table and the agreement of the
    counters with the vote rows are kept. *)
Theorem post_comment_outcome :
  forall srt uuid now sess id body db U text,
    requireAuth sess = inr U ->
    member "text" body = Some (JStr text) ->
    existsb (fun u => String.eqb (u_id u) U) (users db) = true ->
    existsb (fun x => String.eqb (c_id x) uuid) (comments db) = false ->
    (existsb (fun g => String.eqb (g_id g) id) (grievances db) = false ->
     post_comment uuid now sess id body db
     = (reply_error 500 "Failed to create comment", db))
    /\ (existsb (fun g => String.eqb (g_id g) id) (grievances db) = true ->
        post_comment uuid now sess id body db
        = (mkReply 201 (OneComment (mkComment uuid id U text now 0)),
           set_comments db (comments db ++ [mkComment uuid id U text now 0]))
        /\ (comment_order_contract srt ->
            In (mkComment uuid id U text now 0)
               (map row_c (getComments srt id
                             (snd (post_comment uuid now sess id body db)))))
        /\ (constraints_hold db = true ->
            constraints_hold (snd (post_comment uuid now sess id body db)) = true
            /\ (all_counters_ok db ->
                all_counters_ok (snd (post_comment uuid now sess id body db))))).
Proof.
  intros srt uuid now sess id body db U text Ha Hm Hu Hf. split.
  - intros Hg. unfold post_comment, parse_comment, createComment.
    rewrite Ha, Hm. simpl. now rewrite Hf, Hg.
  - intros Hg.
    rewrite (post_comment_stored uuid now sess id body db U text Ha Hm Hu Hf Hg).
    cbn [snd]. set (row := mkComment uuid id U text now 0).
    split; [reflexivity|]. split.
    + intros Hs. unfold getComments.
      destruct (Hs newest_comment_first
                  (filter (fun r => String.eqb (c_grievanceId (row_c r)) id)
                     (flat_map (left_join_author
                                  (users (set_comments db (comments db ++ [row]))))
                        (comments (set_comments db (comments db ++ [row]))))))
        as [P _].
      destruct (left_join_author (users db) row) as [|r rest] eqn:E;
        [now apply left_join_author_nonempty in E|].
      assert (Hr : row_c r = row)
        by (apply (in_left_join_author (users db)); rewrite E; now left).
      apply in_map_iff. exists r. split; [exact Hr|].
      apply (Permutation_in _ P). apply filter_In. split.
      * simpl. apply in_flat_map. exists row. split.
        -- apply in_or_app. right. now left.
        -- rewrite E. now left.
      * rewrite Hr. simpl. apply String.eqb_refl.
    + intros Hc. split.
      * revert Hc. apply constraints_hold_more; [reflexivity|].
        intros v _. generalize (v_userId v) (v_grievanceId v) (v_commentId v).
        intros uid gid cid. unfold Pg.references_ok. simpl.
        destruct cid as [x|]; auto. rewrite existsb_app.
        destruct (existsb (fun u => String.eqb (u_id u) uid) (users db)); simpl; auto.
        destruct gid as [y|]; simpl.
        -- destruct (existsb (fun z => String.eqb (g_id z) y) (grievances db));
             simpl; auto.
           destruct (existsb (fun z => String.eqb (c_id z) x) (comments db));
             simpl; auto. discriminate.
        -- destruct (existsb (fun z => String.eqb (c_id z) x) (comments db));
             simpl; auto. discriminate.
      * intros [Og Oc]. split.
        -- intros g Hin. destruct (Og g Hin) as [A B]. split.
           ++ rewrite A. now apply count_grievance_votes_ext.
           ++ rewrite B. now apply count_grievance_votes_ext.
        -- intros c Hin. simpl in Hin. apply in_app_or in Hin as [Hin|[<-|[]]].
           ++ specialize (Oc c Hin). unfold comment_counters_ok in *.
              rewrite Oc. now apply count_comment_votes_ext.
           ++ unfold comment_counters_ok. simpl.
              rewrite (count_comment_votes_ext _ _ db) by reflexivity.
              symmetry. now apply no_votes_on_unknown_comment.
Qed.

Lemma delete_grievance_blocked sess id st U r :
  requireAuth sess = inr U ->
  getGrievance id (core st) = Some r ->
  g_authorId (row_g r) = U \/ s_userType sess = Some "admin" ->
  grievance_referenced id st = true ->
  delete_grievance sess id st = (reply_error 500 "Failed to delete grievance", st).
Proof.
  intros Ha Hg Hp Hr. unfold delete_grievance. rewrite Ha, Hg.
  assert (P : negb (String.eqb (g_authorId (row_g r)) U)
              && negb (JS.same (s_userType sess) "admin") = false).
  { destruct Hp as [<- | ->].
    - now rewrite String.eqb_refl.
    - simpl. apply andb_false_r. }
  rewrite P. unfold deleteGrievance.
  now rewrite (getGrievance_exists _ _ _ Hg), Hr.
Qed.

(** X13. A comment blocks the deletion of its grievance: once
    [POST /api/grievances/:id/comments] has answered 201, a
    [DELETE /api/grievances/:id] by the author of the grievance or by an
    admin answers 500 and deletes nothing, whatever the other tables
    hold. *)
Theorem comment_blocks_delete_grievance :
  forall uuid now sess id body db resp db' sess' U' r deps asg,
    post_comment uuid now sess id body db = (resp, db') ->
    r_status resp = 201%nat ->
    requireAuth sess' = inr U' ->
    getGrievance id db = Some r ->
    g_authorId (row_g r) = U' \/ s_userType sess' = Some "admin" ->
    delete_grievance sess' id (mkStore db' deps asg)
    = (reply_error 500 "Failed to delete grievance", mkStore db' deps asg).
Proof.
  intros uuid now sess id body db resp db' sess' U' r deps asg Hp Hs Ha Hg Hperm.
  unfold post_comment in Hp.
  destruct (requireAuth sess) as [x|U] eqn:HU.
  { inversion Hp; subst. apply requireAuth_refusal in HU. simpl in Hs.
    rewrite HU in Hs. discriminate. }
  unfold parse_comment in Hp.
  destruct (zod_string (member "text" body)) as [t|];
    [|inversion Hp; subst; discriminate].
  unfold createComment in Hp.
  destruct (existsb (fun x => String.eqb (c_id x) uuid) (comments db));
    [inversion Hp; subst; discriminate|].
  destruct (negb _); [inversion Hp; subst; discriminate|].
  inversion Hp; subst. clear Hp.
  apply (delete_grievance_blocked sess' id _ U' r Ha); [exact Hg|exact Hperm|].
  apply grievance_referenced_iff. left. simpl.
  eexists. split; [apply in_or_app; right; now left|]. reflexivity.
Qed.

Lemma set_comments_same db : set_comments db (comments db) = db.
Proof. now destruct db. Qed.

(** X14. [PATCH /api/comments/:id] by any logged-in user; the author of
    the comment is not compared with the session.  Without a text, or
    with the empty text, the answer is 400; for an id that no comment
    has it is 404; in both cases nothing changes.  Otherwise the answer
    is 200 with the comment carrying the new text, the text is the only
    column that changes, comments with another id, users, grievances
    and votes stay as they are, and the constraints of the vote table
    and the agreement of the counters with the vote rows are kept. *)
Theorem patch_comment_outcome :
  forall sess id text db U,
    requireAuth sess = inr U ->
    (text = None \/ text = Some "" ->
     patch_comment sess id text db = (reply_error 400 "Text is required", db))
    /\ (forall t, text = Some t -> t <> "" ->
        (existsb (fun c => String.eqb (c_id c) id) (comments db) = false ->
         patch_comment sess id text db = (reply_error 404 "Comment not found", db))
        /\ (forall c,
              hd_error (filter (fun c => String.eqb (c_id c) id) (comments db)) = Some c ->
              patch_comment sess id text db
              = (mkReply 200
                   (OneComment (mkComment (c_id c) (c_grievanceId c) (c_authorId c) t
                                  (c_timestamp c) (c_upvotes c))),
                 set_comments db
                   (map (fun x => if String.eqb (c_id x) id
                                  then mkComment (c_id x) (c_grievanceId x) (c_authorId x)
                                         t (c_timestamp x) (c_upvotes x)
                                  else x)
                        (comments db)))
              /\ (constraints_hold db = true ->
                  constraints_hold (snd (patch_comment sess id text db)) = true)
              /\ (all_counters_ok db ->
                  all_counters_ok (snd (patch_comment sess id text db))))).
Proof.
  intros sess id text db U Ha. unfold patch_comment. rewrite Ha. split.
  - intros [-> | ->]; reflexivity.
  - intros t -> Ht. apply truthy_iff in Ht. rewrite Ht.
    unfold updateComment. rewrite hd_error_map. split.
    + intros Hn. apply filter_nil_iff in Hn as Hn'. rewrite Hn'. simpl.
      rewrite (map_if_none (fun c => String.eqb (c_id c) id)) by exact Hn.
      now rewrite set_comments_same.
    + intros c Hc. rewrite Hc. simpl.
      destruct (hd_filter_split _ _ _ Hc) as (l1 & l2 & _ & _ & Ec). rewrite Ec.
      unfold set_text. split; [reflexivity|]. split.
      * apply constraints_hold_more; [reflexivity|].
        intros v _. unfold Pg.references_ok. simpl.
        destruct (v_commentId v) as [x|]; auto.
        rewrite (existsb_map_key c_id); auto.
        intros y. now destruct (String.eqb (c_id y) id).
      * apply counters_kept_votes; simpl; auto.
        intros y Hy. apply in_map_iff in Hy as (c0 & <- & H0).
        exists c0. split; auto. now destruct (String.eqb (c_id c0) id).
Qed.

(** X15. [DELETE /api/comments/:id] by any logged-in user; the author of
    the comment is not compared with the session.  For an id that no
    comment has the answer is 404.  For a stored comment with a vote on
    it the answer is 500 and nothing is deleted; without votes the
    answer is 200, the comment is removed, nothing else changes, and
    the constraints of the vote table and the agreement of the counters
    with the vote rows are kept. *)
Theorem delete_comment_outcome :
  forall sess id db U,
    requireAuth sess = inr U ->
    (existsb (fun c => String.eqb (c_id c) id) (comments db) = false ->
     delete_comment sess id db = (reply_error 404 "Comment not found", db))
    /\ (existsb (fun c => String.eqb (c_id c) id) (comments db) = true ->
        ((exists v, In v (user_votes db) /\ v_commentId v = Some id) ->
         delete_comment sess id db = (reply_error 500 "Failed to delete comment", db))
        /\ ((forall v, In v (user_votes db) -> v_commentId v <> Some id) ->
            delete_comment sess id db
            = (mkReply 200 (Message "Comment deleted successfully"),
               set_comments db
                 (filter (fun c => negb (String.eqb (c_id c) id)) (comments db)))
            /\ (constraints_hold db = true ->
                constraints_hold (snd (delete_comment sess id db)) = true)
            /\ (all_counters_ok db ->
                all_counters_ok (snd (delete_comment sess id db))))).
Proof.
  intros sess id db U Ha. unfold delete_comment, deleteComment. rewrite Ha. split.
  - intros Hn. rewrite Hn. simpl.
    rewrite (filter_none_id (fun c => String.eqb (c_id c) id)) by exact Hn.
    now rewrite set_comments_same.
  - intros He. rewrite He. cbn [andb]. split.
    + intros (v & Hv & Ev).
      assert (X : existsb (fun v => Pg.eq_null (v_commentId v) (Some id))
                          (user_votes db) = true).
      { apply existsb_exists. exists v. split; auto. now apply eq_null_Some. }
      now rewrite X.
    + intros Hno.
      assert (X : existsb (fun v => Pg.eq_null (v_commentId v) (Some id))
                          (user_votes db) = false).
      { destruct (existsb _ (user_votes db)) eqn:E; auto.
        apply existsb_exists in E as (v & Hv & Ev). apply eq_null_Some in Ev.
        now destruct (Hno v Hv). }
      rewrite X. cbn [fst snd]. split; [reflexivity|]. split.
      * apply constraints_hold_more; [reflexivity|].
        intros v Hv. unfold Pg.references_ok. simpl.
        destruct (v_commentId v) as [x|] eqn:Ev; auto.
        rewrite existsb_filter_other; auto.
        intros ->. now apply (Hno v Hv).
      * apply counters_kept_votes; simpl; auto.
        intros c Hc. apply filter_In in Hc as [Hc _]. eauto.
Qed.

(** ** The [userVote] of a read *)

Lemma getUserVote_stored U gid cid db v :
  constraints_hold db = true ->
  target_shape gid cid ->
  getUserVote U gid cid db = Some v
  <-> In v (user_votes db) /\ v_userId v = U
      /\ v_grievanceId v = gid /\ v_commentId v = cid.
Proof.
  intros Hc Sh. apply constraints_split in Hc as [Un R].
  destruct (target_shape_facts U gid cid Sh) as (T & _ & Fc).
  unfold getUserVote. split.
  - intros H. destruct (hd_filter_split _ _ _ H) as (l1 & l2 & E & _ & Cv).
    assert (Hin : In v (user_votes db))
      by (rewrite E; apply in_or_app; right; now left).
    split; auto. rewrite Fc in Cv.
    apply (collides_same_target U gid cid v T); auto.
    specialize (R v Hin). unfold vote_row_ok in R.
    apply andb_prop in R as [R _]. now apply andb_prop in R as [_ R].
  - intros (Hin & Eu & Eg & Ec).
    assert (Cv : vote_conditions U gid cid v = true).
    { rewrite Fc. unfold Pg.collides. rewrite Eu, Eg, Ec, String.eqb_refl.
      destruct Sh as (id & _ & [[-> ->]|[-> ->]]); simpl;
        now rewrite String.eqb_refl. }
    destruct (hd_error (filter (vote_conditions U gid cid) (user_votes db)))
      as [w|] eqn:H.
    + destruct (unique_match (vote_conditions U gid cid) (user_votes db) w Un)
        as (l1 & l2 & E & _ & N1 & N2); auto.
      { intros a b Ca Cb. rewrite Fc in Ca, Cb.
        now apply (colliding_rows_collide U gid cid). }
      rewrite E in Hin. apply in_app_or in Hin as [Hin|[->|Hin]]; auto.
      * assert (existsb (vote_conditions U gid cid) l1 = true)
          by (apply existsb_exists; eauto).
        congruence.
      * assert (existsb (vote_conditions U gid cid) l2 = true)
          by (apply existsb_exists; eauto).
        congruence.
    + apply hd_filter_none in H.
      assert (existsb (vote_conditions U gid cid) (user_votes db) = true)
        by (apply existsb_exists; eauto).
      congruence.
Qed.

Lemma userVote_of_stored sess U gid cid db :
  constraints_hold db = true ->
  requireAuth sess = inr U ->
  target_shape gid cid ->
  exists uv,
    userVote_of sess gid cid db = Some uv
    /\ forall k, uv = Some k
                 <-> exists v, In v (user_votes db) /\ v_userId v = U
                               /\ v_grievanceId v = gid /\ v_commentId v = cid
                               /\ v_voteType v = k.
Proof.
  intros Hc Ha Sh. destruct (requireAuth_session _ _ Ha) as [Hs Ht].
  unfold userVote_of. rewrite Hs, Ht. eexists. split; [reflexivity|].
  intros k. destruct (getUserVote U gid cid db) as [v|] eqn:G.
  - apply (getUserVote_stored U gid cid db v Hc Sh) in G as G'.
    destruct G' as (Hin & Eu & Eg & Ec).
    assert (K : JS.or_null (Some (v_voteType v)) = Some (v_voteType v)).
    { apply constraints_split in Hc as [_ R]. specialize (R v Hin).
      unfold vote_row_ok in R. apply andb_prop in R as [R _].
      apply andb_prop in R as [R _]. unfold Pg.vote_type_check in R.
      apply orb_prop in R as [R|R]; apply String.eqb_eq in R; now rewrite R. }
    simpl option_map. rewrite K. split.
    + intros H. inversion H. exists v. auto.
    + intros (w & Hw & Wu & Wg & Wc & Wk).
      assert (G2 : getUserVote U gid cid db = Some w)
        by (apply getUserVote_stored; auto).
      rewrite G in G2. inversion G2. now subst.
  - simpl. split; [discriminate|].
    intros (w & Hw & Wu & Wg & Wc & Wk).
    assert (G2 : getUserVote U gid cid db = Some w)
      by (apply getUserVote_stored; auto).
    rewrite G in G2. discriminate.
Qed.

(** X17. [GET /api/grievances/:id] on tables that satisfy the
    constraints of the vote table.  For an id that no grievance has the
    answer is 404.  For a stored grievance the answer is 200 with its
    row; a session without a user gets no [userVote]; for a logged-in
    user [userVote] is a vote kind exactly when a vote of that user on
    that grievance is stored, and then it is the kind of that vote;
    otherwise it is null. *)
Theorem get_grievance_user_vote :
  forall sess id db,
    constraints_hold db = true ->
    id <> "" ->
    (getGrievance id db = None ->
     get_grievance sess id db = reply_error 404 "Grievance not found")
    /\ (forall r, getGrievance id db = Some r ->
        (s_userId sess = None ->
         get_grievance sess id db = mkReply 200 (GrievanceView r None))
        /\ (forall U, requireAuth sess = inr U ->
            exists uv,
              get_grievance sess id db = mkReply 200 (GrievanceView r (Some uv))
              /\ forall k, uv = Some k
                           <-> exists v, In v (user_votes db) /\ v_userId v = U
                                         /\ v_grievanceId v = Some id
                                         /\ v_voteType v = k)).
Proof.
  intros sess id db Hc Hid. unfold get_grievance. split.
  - now intros ->.
  - intros r Hg. rewrite Hg. destruct (getGrievance_some _ _ _ Hg) as [Er _].
    rewrite Er. split.
    + intros Hs. unfold userVote_of. now rewrite Hs.
    + intros U Ha.
      destruct (userVote_of_stored sess U (Some id) None db Hc Ha) as (uv & E & K).
      { exists id. auto. }
      exists uv. rewrite E. split; [reflexivity|].
      intros k. rewrite K. split.
      * intros (v & H1 & H2 & H3 & _ & H5). eauto.
      * intros (v & H1 & H2 & H3 & H5). exists v. repeat split; auto.
        apply constraints_split in Hc as [_ R]. specialize (R v H1).
        unfold vote_row_ok in R. apply andb_prop in R as [R _].
        apply andb_prop in R as [_ R]. unfold Pg.vote_target_check in R.
        rewrite H3 in R. now destruct (v_commentId v).
Qed.

(** X18. [GET /api/grievances]: the answer is 500 when the query fails
    and otherwise 200 with the total and the rows of [getGrievances], in
    their order.  A session without a user gets rows without
    [userVote].  For a logged-in user, on tables that satisfy the
    constraints of the vote table and hold no grievance with an empty
    id, the [userVote] of every row is a vote kind exactly when a vote
    of that user on that row's grievance is stored, and then the kind
    of that vote (for every sort that honours ORDER BY). *)
Theorem get_grievances_page :
  forall srt sess category municipality status search sortBy limit offset db,
    let f := mkFilters category municipality status None search sortBy limit offset in
    (forall e, getGrievances srt f db = Pg.Throw e ->
       get_grievances srt sess category municipality status search sortBy limit offset db
       = reply_error 500 "Failed to get grievances")
    /\ (forall rows total, getGrievances srt f db = Pg.Ok (rows, total) ->
        exists page,
          get_grievances srt sess category municipality status search sortBy limit offset db
          = mkReply 200 (GrievancePage page total)
          /\ map fst page = rows
          /\ (s_userId sess = None -> forall x, In x page -> snd x = None)
          /\ (forall U, requireAuth sess = inr U ->
              order_by_contract srt ->
              constraints_hold db = true ->
              (forall g, In g (grievances db) -> g_id g <> "") ->
              forall x, In x page ->
                exists uv,
                  snd x = Some uv
                  /\ forall k, uv = Some k
                       <-> exists v, In v (user_votes db) /\ v_userId v = U
                                     /\ v_grievanceId v = Some (g_id (row_g (fst x)))
                                     /\ v_voteType v = k)).
Proof.
  intros srt sess category municipality status search sortBy limit offset db f.
  unfold get_grievances. fold f. split.
  - now intros e ->.
  - intros rows total H. rewrite H. eexists. split; [reflexivity|].
    split; [|split].
    + rewrite map_map. simpl. apply map_id.
    + intros Hs x Hx. apply in_map_iff in Hx as (r & <- & _). simpl.
      unfold userVote_of. now rewrite Hs.
    + intros U Ha Hsrt Hc Hne x Hx. apply in_map_iff in Hx as (r & <- & Hr). simpl.
      assert (Hin : In (row_g r) (grievances db)).
      { destruct (getGrievances_inv _ _ _ _ _ H) as (st & w & _ & _ & _ & Er).
        rewrite Er in Hr. apply (proj2 (take_page_inv w _)) in Hr as Sub.
        unfold sorter in srt.
        apply (in_joined (users db)). apply in_map.
        destruct (Hsrt (row_order (f_sortBy f))
                    (filter (fun r => conditions f st (row_g r))
                       (flat_map (left_join_users (users db)) (grievances db))))
          as [Pm _].
        apply (Permutation_in _ (Permutation_sym Pm)) in Sub.
        now apply filter_In in Sub as [Sub _]. }
      destruct (userVote_of_stored sess U (Some (g_id (row_g r))) None db Hc Ha)
        as (uv & E & K).
      { exists (g_id (row_g r)). auto. }
      exists uv. split; [exact E|].
      intros k. rewrite K. split.
      * intros (v & H1 & H2 & H3 & _ & H5). eauto.
      * intros (v & H1 & H2 & H3 & H5). exists v. repeat split; auto.
        apply constraints_split in Hc as [_ R]. specialize (R v H1).
        unfold vote_row_ok in R. apply andb_prop in R as [R _].
        apply andb_prop in R as [_ R]. unfold Pg.vote_target_check in R.
        rewrite H3 in R. now destruct (v_commentId v).
Qed.

Lemma requireAuth_refusal_body sess r :
  requireAuth sess = inl r -> body r = ErrorBody "Authentication required".
Proof.
  unfold requireAuth. destruct (s_userId sess) as [u|].
  - destruct (JS.truthy u); [discriminate|]. intros H. now inversion H.
  - intros H. now inversion H.
Qed.

(** X19. A vote blocks the deletion of its grievance: when
    [POST /api/grievances/:id/vote] has answered with a [userVote] that
    is not null, a [DELETE /api/grievances/:id] by the author of the
    grievance or by an admin answers 500 and deletes nothing, whatever
    the other tables hold. *)
Theorem vote_blocks_delete_grievance :
  forall now sess id vt db up down k sess' U' r deps asg,
    id <> "" ->
    body (fst (post_grievance_vote now sess id vt db)) = VoteBody up down (Some k) ->
    requireAuth sess' = inr U' ->
    getGrievance id db = Some r ->
    g_authorId (row_g r) = U' \/ s_userType sess' = Some "admin" ->
    delete_grievance sess' id
      (mkStore (snd (post_grievance_vote now sess id vt db)) deps asg)
    = (reply_error 500 "Failed to delete grievance",
       mkStore (snd (post_grievance_vote now sess id vt db)) deps asg).
Proof.
  intros now sess id vt db up down k sess' U' r deps asg Hid Hb Ha Hg Hperm.
  revert Hb. unfold post_grievance_vote.
  destruct (requireAuth sess) as [resp|U] eqn:HU.
  { apply requireAuth_refusal_body in HU. simpl. rewrite HU. discriminate. }
  destruct (valid_voteType vt) as [kk|]; [|simpl; discriminate].
  rewrite Hg.
  destruct (toggle U (Some id) None kk now db) as [db1|e] eqn:Ht;
    [|simpl; discriminate].
  cbn [fst snd body]. intros Hb.
  destruct (toggle_frame _ _ _ _ _ _ _ Ht) as (Eu & Egr & _).
  set (db2 := updateVoteCounts (Some id) None db1) in *.
  assert (G2 : getGrievance id db2
               = Some (on_row (fun g => if String.eqb (g_id g) id
                                        then set_counts
                                               (count_grievance_votes (Some id) "up" db1)
                                               (count_grievance_votes (Some id) "down" db1) g
                                        else g) r)).
  { unfold db2. rewrite (updateVoteCounts_grievance id db1 Hid), getGrievance_map.
    - now rewrite (getGrievance_tables id db db1), Hg.
    - intros g. destruct (String.eqb (g_id g) id); reflexivity.
    - intros g. destruct (String.eqb (g_id g) id); reflexivity. }
  eapply (delete_grievance_blocked sess' id _ U'); [exact Ha|exact G2| |].
  - simpl. now destruct (String.eqb (g_id (row_g r)) id).
  - destruct (getUserVote U (Some id) None db2) as [v|] eqn:G;
      [|inversion Hb; discriminate].
    unfold getUserVote in G.
    destruct (hd_filter_split _ _ _ G) as (l1 & l2 & E & _ & Cv).
    apply grievance_referenced_iff. right. right. exists v. simpl. split.
    + rewrite E. apply in_or_app. right. now left.
    + rewrite vote_conditions_grievance in Cv by exact Hid.
      unfold Pg.collides in Cv. apply andb_prop in Cv as [_ Cv].
      apply orb_prop in Cv as [Cv|Cv].
      * now apply eq_null_Some.
      * destruct (v_commentId v); discriminate.
Qed.

(** X20. [GET /api/grievances/:id/comments]: the answer is 200 with the
    rows of [getComments], in their order.  A session without a user
    gets rows without [userVote].  For a logged-in user, on tables that
    satisfy the constraints of the vote table and hold no comment with
    an empty id, the [userVote] of every row is a vote kind exactly
    when a vote of that user on that row's comment is stored, and then
    the kind of that vote (for every sort that honours ORDER BY). *)
Theorem get_comments_page :
  forall srt sess id db,
    exists page,
      get_comments srt sess id db = mkReply 200 (CommentList page)
      /\ map fst page = getComments srt id db
      /\ (s_userId sess = None -> forall x, In x page -> snd x = None)
      /\ (forall U, requireAuth sess = inr U ->
          comment_order_contract srt ->
          constraints_hold db = true ->
          (forall c, In c (comments db) -> c_id c <> "") ->
          forall x, In x page ->
            exists uv,
              snd x = Some uv
              /\ forall k, uv = Some k
                   <-> exists v, In v (user_votes db) /\ v_userId v = U
                                 /\ v_commentId v = Some (c_id (row_c (fst x)))
                                 /\ v_voteType v = k).
Proof.
  intros srt sess id db. unfold get_comments. eexists. split; [reflexivity|].
  split; [|split].
  - rewrite map_map. simpl. apply map_id.
  - intros Hs x Hx. apply in_map_iff in Hx as (r & <- & _). simpl.
    unfold userVote_of. now rewrite Hs.
  - intros U Ha Hsrt Hc Hne x Hx. apply in_map_iff in Hx as (r & <- & Hr). simpl.
    assert (Hin : In (row_c r) (comments db)).
    { unfold getComments in Hr.
      destruct (Hsrt newest_comment_first
                  (filter (fun r => String.eqb (c_grievanceId (row_c r)) id)
                     (flat_map (left_join_author (users db)) (comments db))))
        as [Pm _].
      apply (Permutation_in _ (Permutation_sym Pm)) in Hr.
      apply filter_In in Hr as [Hr _].
      apply in_flat_map in Hr as (c & Hc' & Hr).
      apply in_left_join_author in Hr. now rewrite Hr. }
    destruct (userVote_of_stored sess U None (Some (c_id (row_c r))) db Hc Ha)
      as (uv & E & K).
    { exists (c_id (row_c r)). auto. }
    exists uv. split; [exact E|].
    intros k. rewrite K. split.
    + intros (v & H1 & H2 & _ & H4 & H5). eauto.
    + intros (v & H1 & H2 & H4 & H5). exists v. repeat split; auto.
      apply constraints_split in Hc as [_ R]. specialize (R v H1).
      unfold vote_row_ok in R. apply andb_prop in R as [R _].
      apply andb_prop in R as [_ R]. unfold Pg.vote_target_check in R.
      rewrite H4 in R. now destruct (v_grievanceId v).
Qed.

(** ** The further theorems at the sample data *)

Lemma comment_stable_sort_contract : comment_order_contract comment_stable_sort.
Proof.
  intros le rows. unfold comment_stable_sort. split.
  - induction rows as [|x rows IH]; simpl; auto.
    eapply perm_trans; [|apply insert_before_perm]. now constructor.
  - intros T Tr. induction rows as [|x rows IH]; simpl; [constructor|].
    now apply insert_before_sorted.
Qed.

Lemma db1_constraints : constraints_hold Sample.db1 = true.
Proof. reflexivity. Qed.

Lemma db1_counters : all_counters_ok Sample.db1.
Proof.
  split.
  - intros g [<-|[<-|[]]]; split; reflexivity.
  - intros c [<-|[<-|[]]]; reflexivity.
Qed.

(** alice upvotes bob's remark, which she has not voted on. *)
Lemma comment_vote_toggle_witness :
  exists db' userVote,
    post_comment_vote 5000 Example.as_alice "c-1" (Some "up") Example.db0
    = (mkResponse 200 (CommentVoteBody userVote), db')
    /\ grievances db' = grievances Example.db0.
Proof.
  destruct (comment_vote_toggle 5000 Example.as_alice "u-alice" "c-1" "up" Example.db0)
    as (db' & uv & H1 & _ & H2 & _);
    [reflexivity | reflexivity | reflexivity | discriminate
    | left; reflexivity | reflexivity |].
  exists db', uv. split; [exact H1 | exact H2].
Defined.

Lemma removeVote_lookup_witness :
  getUserVote "u-alice" (Some "g-1") None
    (snd (removeVote "u-alice" (Some "g-1") None Example.db0)) = None.
Proof.
  refine (proj1 (removeVote_lookup "u-alice" (Some "g-1") None Example.db0 _)).
  exists "g-1". split; [discriminate|]. left. split; reflexivity.
Defined.

(** bob, without a vote on the pothole, votes down. *)
Lemma createOrUpdateVote_lookup_witness :
  exists row db',
    createOrUpdateVote (mkInsertUserVote "u-bob" (Some "g-1") None "down") 5000 Example.db0
    = Pg.Ok (Some row, db')
    /\ getUserVote "u-bob" (Some "g-1") None db' = Some row
    /\ constraints_hold db' = true.
Proof.
  destruct (createOrUpdateVote_lookup "u-bob" (Some "g-1") None "down" 5000 Example.db0)
    as (_ & _ & H).
  - reflexivity.
  - exists "g-1". split; [discriminate|]. left. split; reflexivity.
  - destruct H as (row & db' & H1 & _ & _ & _ & _ & _ & H2 & _ & H3).
    + reflexivity.
    + right. reflexivity.
    + exists row, db'. auto.
Defined.

(** bob upvotes the pothole twice. *)
Lemma grievance_vote_twice_witness :
  post_grievance_vote 6000 Example.as_bob "g-1" (Some "up")
    (snd (post_grievance_vote 5000 Example.as_bob "g-1" (Some "up") Example.db0))
  = (mkResponse 200 (VoteBody 1 0 None),
     mkDB (users Example.db0) (grievances Example.db0) (comments Example.db0)
          (user_votes Example.db0) 2).
Proof.
  apply (grievance_vote_twice 5000 6000 Example.as_bob "u-bob" "g-1" "up" Example.db0
           (mkRow Example.pothole (Some "alice"))).
  - reflexivity.
  - reflexivity.
  - reflexivity.
  - discriminate.
  - left. reflexivity.
  - reflexivity.
  - reflexivity.
  - intros g Hg _. now apply db0_counters.
Defined.

Lemma getGrievanceStats_counts_witness :
  stats_of_groups Sample.groups_reordered = getGrievanceStats None Example.db0
  /\ getGrievanceStats None Example.db0 = mkStats 2 1 1 0 0.
Proof.
  destruct (getGrievanceStats_counts Example.as_carol None Example.db0
              Sample.groups_reordered) as (H1 & H2 & _).
  - apply perm_swap.
  - split; [exact H1 | exact H2].
Defined.

(** bob files a report; the forged author, id and counters of the body
    are not used. *)
Lemma post_grievance_created_witness :
  exists row,
    post_grievance "g-3" 7000 Example.as_bob Sample.report Example.db0
    = (mkReply 201 (OneGrievance row),
       set_grievances Example.db0 (grievances Example.db0 ++ [row]))
    /\ g_id row = "g-3" /\ g_authorId row = "u-bob"
    /\ g_upvotes row = 0 /\ g_downvotes row = 0.
Proof.
  destruct (post_grievance_created "g-3" 7000 Example.as_bob Sample.report Example.db0
              "u-bob" Sample.parsed_report)
    as (row & H1 & H2 & H3 & H4 & H5 & _);
    [reflexivity | reflexivity | reflexivity | reflexivity |].
  exists row. auto.
Defined.

(** bob deletes his burst pipe, which nobody has commented or voted on. *)
Lemma delete_grievance_outcome_witness :
  fst (delete_grievance Example.as_bob "g-2" Sample.store0)
  = mkReply 200 (Message "Grievance deleted successfully")
  /\ delete_grievance Example.as_alice "g-2" Sample.store0
     = (reply_error 403 "Permission denied", Sample.store0).
Proof.
  split.
  - destruct (delete_grievance_outcome Example.as_bob "g-2" Sample.store0 "u-bob"
                (mkRow Example.burst_pipe (Some "bob"))) as [_ H];
      [reflexivity | reflexivity |].
    destruct H as [_ H]; [left; reflexivity|].
    destruct H as [H _]; [reflexivity|]. exact H.
  - destruct (delete_grievance_outcome Example.as_alice "g-2" Sample.store0 "u-alice"
                (mkRow Example.burst_pipe (Some "bob"))) as [H _];
      [reflexivity | reflexivity |].
    apply H; discriminate.
Defined.

Lemma get_grievance_after_vote_witness :
  exists r up down uv,
    body (fst (post_grievance_vote 5000 Example.as_bob "g-1" (Some "down") Example.db0))
    = VoteBody up down uv
    /\ get_grievance Example.as_bob "g-1"
         (snd (post_grievance_vote 5000 Example.as_bob "g-1" (Some "down") Example.db0))
       = mkReply 200 (GrievanceView r (Some uv))
    /\ g_id (row_g r) = "g-1"
    /\ g_upvotes (row_g r) = up /\ g_downvotes (row_g r) = down.
Proof.
  apply (get_grievance_after_vote 5000 Example.as_bob "g-1" (Some "down") Example.db0).
  - discriminate.
  - reflexivity.
Defined.

Lemma getComments_rows_witness :
  Permutation (map row_c (getComments comment_stable_sort "g-1" Sample.db1))
              [Example.remark; Sample.second_remark]
  /\ StronglySorted (fun a b => c_timestamp (row_c b) <= c_timestamp (row_c a))
       (getComments comment_stable_sort "g-1" Sample.db1).
Proof.
  destruct (getComments_rows comment_stable_sort "g-1" Sample.db1) as (H1 & H2 & _).
  - exact comment_stable_sort_contract.
  - repeat constructor; simpl; intuition discriminate.
  - split; [exact H1 | exact H2].
Defined.

(** alice asks for news on bob's burst pipe; a comment on a grievance
    that does not exist is refused. *)
Lemma post_comment_outcome_witness :
  post_comment "c-9" 8000 Example.as_alice "g-2" Sample.reply_text Example.db0
  = (mkReply 201 (OneComment (mkComment "c-9" "g-2" "u-alice" "Any news?" 8000 0)),
     set_comments Example.db0
       (comments Example.db0 ++ [mkComment "c-9" "g-2" "u-alice" "Any news?" 8000 0]))
  /\ post_comment "c-9" 8000 Example.as_alice "g-404" Sample.reply_text Example.db0
     = (reply_error 500 "Failed to create comment", Example.db0).
Proof.
  split.
  - destruct (post_comment_outcome comment_stable_sort "c-9" 8000 Example.as_alice "g-2"
                Sample.reply_text Example.db0 "u-alice" "Any news?") as [_ H];
      [reflexivity | reflexivity | reflexivity | reflexivity |].
    destruct H as [H _]; [reflexivity|]. exact H.
  - destruct (post_comment_outcome comment_stable_sort "c-9" 8000 Example.as_alice "g-404"
                Sample.reply_text Example.db0 "u-alice" "Any news?") as [H _];
      [reflexivity | reflexivity | reflexivity | reflexivity |].
    apply H. reflexivity.
Defined.

(** After alice's comment bob cannot delete his burst pipe any more. *)
Lemma comment_blocks_delete_grievance_witness :
  delete_grievance Example.as_bob "g-2"
    (mkStore (snd (post_comment "c-9" 8000 Example.as_alice "g-2" Sample.reply_text
                     Example.db0)) [] [])
  = (reply_error 500 "Failed to delete grievance",
     mkStore (snd (post_comment "c-9" 8000 Example.as_alice "g-2" Sample.reply_text
                     Example.db0)) [] []).
Proof.
  apply (comment_blocks_delete_grievance "c-9" 8000 Example.as_alice "g-2"
           Sample.reply_text Example.db0
           (fst (post_comment "c-9" 8000 Example.as_alice "g-2" Sample.reply_text
                   Example.db0))
           (snd (post_comment "c-9" 8000 Example.as_alice "g-2" Sample.reply_text
                   Example.db0))
           Example.as_bob "u-bob" (mkRow Example.burst_pipe (Some "bob")) [] []).
  - reflexivity.
  - reflexivity.
  - reflexivity.
  - reflexivity.
  - left. reflexivity.
Defined.

(** alice rewrites bob's remark. *)
Lemma patch_comment_outcome_witness :
  patch_comment Example.as_alice "c-1" (Some "Edited") Example.db0
  = (mkReply 200 (OneComment (mkComment "c-1" "g-1" "u-bob" "Edited" 1500 0)),
     set_comments Example.db0 [mkComment "c-1" "g-1" "u-bob" "Edited" 1500 0])
  /\ patch_comment Example.as_alice "c-1" (Some "") Example.db0
     = (reply_error 400 "Text is required", Example.db0).
Proof.
  destruct (patch_comment_outcome Example.as_alice "c-1" (Some "Edited") Example.db0
              "u-alice") as [_ H]; [reflexivity|].
  destruct (H "Edited") as [_ H1]; [reflexivity | discriminate |].
  destruct (H1 Example.remark) as [H2 _]; [reflexivity|].
  split; [exact H2|].
  destruct (patch_comment_outcome Example.as_alice "c-1" (Some "") Example.db0
              "u-alice") as [H3 _]; [reflexivity|].
  apply H3. right. reflexivity.
Defined.

(** alice deletes bob's remark, which has no votes; the remark that bob
    has upvoted cannot be deleted. *)
Lemma delete_comment_outcome_witness :
  delete_comment Example.as_alice "c-1" Sample.db1
  = (mkReply 200 (Message "Comment deleted successfully"),
     set_comments Sample.db1 [Sample.second_remark])
  /\ delete_comment Example.as_alice "c-2" Sample.db1
     = (reply_error 500 "Failed to delete comment", Sample.db1).
Proof.
  split.
  - destruct (delete_comment_outcome Example.as_alice "c-1" Sample.db1 "u-alice")
      as [_ H]; [reflexivity|].
    destruct H as [_ H]; [reflexivity|].
    destruct H as [H _]; [|exact H].
    intros v [<-|[<-|[]]]; discriminate.
  - destruct (delete_comment_outcome Example.as_alice "c-2" Sample.db1 "u-alice")
      as [_ H]; [reflexivity|].
    destruct H as [H _]; [reflexivity|].
    apply H. exists Sample.bob_likes. split; [right; left; reflexivity|reflexivity].
Defined.

Lemma get_grievance_user_vote_witness :
  get_grievance Example.as_alice "g-404" Example.db0
  = reply_error 404 "Grievance not found"
  /\ exists uv,
       get_grievance Example.as_alice "g-1" Example.db0
       = mkReply 200 (GrievanceView (mkRow Example.pothole (Some "alice")) (Some uv))
       /\ uv = Some "up".
Proof.
  destruct (get_grievance_user_vote Example.as_alice "g-404" Example.db0)
    as [H _]; [reflexivity | discriminate |].
  split; [apply H; reflexivity|].
  destruct (get_grievance_user_vote Example.as_alice "g-1" Example.db0)
    as [_ H1]; [reflexivity | discriminate |].
  destruct (H1 (mkRow Example.pothole (Some "alice"))) as [_ H2]; [reflexivity|].
  destruct (H2 "u-alice") as (uv & H3 & H4); [reflexivity|].
  exists uv. split; [exact H3|]. apply H4.
  exists Example.alice_up. repeat split. left. reflexivity.
Defined.

(** After bob's upvote alice cannot delete her pothole. *)
Lemma vote_blocks_delete_grievance_witness :
  delete_grievance Example.as_alice "g-1"
    (mkStore (snd (post_grievance_vote 5000 Example.as_bob "g-1" (Some "up")
                     Example.db_fresh)) [] [])
  = (reply_error 500 "Failed to delete grievance",
     mkStore (snd (post_grievance_vote 5000 Example.as_bob "g-1" (Some "up")
                     Example.db_fresh)) [] []).
Proof.
  apply (vote_blocks_delete_grievance 5000 Example.as_bob "g-1" (Some "up")
           Example.db_fresh 1 0 "up" Example.as_alice "u-alice"
           (mkRow (set_counts 0 0 Example.pothole) (Some "alice")) [] []).
  - discriminate.
  - reflexivity.
  - reflexivity.
  - reflexivity.
  - left. reflexivity.
Defined.
